(** * hcrecalls-dynamodb-loader: the loader of [index.js], embedded and verified

    The development follows [src/index.js]:
    - [Js]        JSON/JavaScript values as the program manipulates them;
    - [Strip]     [htmlStripper] and the regular expression it applies;
    - [Ramda]     [R.map] and [R.keys] on those values;
    - [Stages]    [getRecentData] and [cleanData] over the staging files;
    - [Converter] the wire format of the AWS SDK;
    - [Mapper]    [DataLoader.mapRequest], with the records held in a store;
    - [Loader]    [DataLoader]: constructor, [loadingText] and [start] (table
                  gate, chunking, dry run, submission, unprocessed items);
    - [Stub]      scripted datastores and sample data to run the engine on.

    The datastore, the operator and the file system are outside the program:
    [start] is an explicit state-passing computation over a world, and it
    records every call it makes to the outside as an event. *)

From Stdlib Require Import ZArith Ascii String List Lia.
From stdpp Require Import base option list strings gmap pretty.
From Equations Require Import Equations.

Local Open Scope string_scope.
Set Warnings "-register-all".

(* ===================================================================== *)
(** ** JavaScript values *)
(* ===================================================================== *)

Module Js.

(** A JSON document, plus [undefined].  Objects keep their properties in
    insertion order, the order [for ... in] and [R.keys] enumerate them. *)
Inductive Val : Type :=
| VUndef
| VNull
| VBool (b : bool)
| VNum (n : Z)
| VStr (s : string)
| VArr (elems : list Val)
| VObj (props : list (string * Val)).

(** What a [throw] carries. *)
Inductive Exn : Type :=
| ReferenceError (name : string)
| TypeError (what : string)
| SyntaxError
| FsError (path : string)
| RemoteError (cause : Val).

(** Outcome of a call: a normal return or a raised exception (for an
    [async] function: the promise resolved or rejected). *)
Inductive Completion (A : Type) : Type :=
| Returned (a : A)
| Thrown (e : Exn).
Arguments Returned {A} a.
Arguments Thrown {A} e.

(** [o[k]] on a property list. *)
Fixpoint get_prop (k : string) (props : list (string * Val)) : Val :=
  match props with
  | [] => VUndef
  | (k', v) :: rest => if String.eqb k' k then v else get_prop k rest
  end.

(** ToBoolean. *)
Definition truthy (v : Val) : bool :=
  match v with
  | VUndef | VNull => false
  | VBool b => b
  | VNum n => negb (Z.eqb n 0)
  | VStr s => negb (String.eqb s "")
  | VArr _ | VObj _ => true
  end.

(** [v.length] for a value that is an array or an object. *)
Definition length_of (v : Val) : Val :=
  match v with
  | VArr l => VNum (Z.of_nat (length l))
  | VObj props => get_prop "length" props
  | VStr s => VNum (Z.of_nat (String.length s))
  | _ => VUndef
  end.

(** [x > 25] where [x] is the result of a [.length] access on what [R.map]
    built: the length of an array is a number and is compared; on an object
    the access gives [undefined] or the property named [length], itself an
    object, and both convert to NaN, which compares false. *)
Definition gt_num (v : Val) (bound : Z) : bool :=
  match v with
  | VNum n => Z.ltb bound n
  | _ => false
  end.

End Js.
Export Js.

(* ===================================================================== *)
(** ** The markup stripper *)
(* ===================================================================== *)

Module Strip.

Definition LT : ascii := "<"%char.
Definition GT : ascii := ">"%char.
Definition LF : ascii := "010"%char.
Definition CR : ascii := "013"%char.

(** Number of characters before the first [>] of [s], when there is one. *)
Fixpoint until_gt (s : string) : option nat :=
  match s with
  | EmptyString => None
  | String c r => if Ascii.eqb c GT then Some 0 else S <$> until_gt r
  end.

(** Strings are sequences of bytes.  The expression only looks for the
    ASCII characters [<], [>], CR and LF, which never occur inside a
    multi-byte character, so nothing is lost against UTF-16 code units. *)

(** Length of the match of [/(<([^>]+)>)|\r?\n|\r/] anchored at the start of
    [s], the alternatives tried in order.  [[^>]+] is greedy and cannot step
    over a [>], so the tag alternative matches exactly when the first [>]
    after the [<] is at least one character away. *)
Definition match_at (s : string) : option nat :=
  match s with
  | EmptyString => None
  | String c r =>
      if Ascii.eqb c LT then
        match until_gt r with
        | Some (S n) => Some (S (S (S n)))
        | _ => None
        end
      else if Ascii.eqb c CR then
        match r with
        | String c' _ => if Ascii.eqb c' LF then Some 2 else Some 1
        | EmptyString => Some 1
        end
      else if Ascii.eqb c LF then Some 1
      else None
  end.

(** [s.replace(re, "")] with the [g] flag: scan from the left; at a position
    where the expression matches, drop the match and go on after it,
    elsewhere keep the character.  [skip] counts the characters of the
    current match still to drop. *)
Fixpoint replace_from (skip : nat) (s : string) : string :=
  match s with
  | EmptyString => EmptyString
  | String c r =>
      match skip with
      | S k => replace_from k r
      | O =>
          match match_at s with
          | Some (S k) => replace_from k r
          | _ => String c (replace_from 0 r)
          end
      end
  end.

Definition replace (s : string) : string := replace_from 0 s.

(** [htmlStripper]: the value it returns. *)
Fixpoint htmlStripper (data : Val) : Val :=
  match data with
  | VStr s => VStr (replace s)
  | VArr elems => VArr (map htmlStripper elems)
  | VObj props => VObj (map (fun kv => (fst kv, htmlStripper (snd kv))) props)
  | _ => data
  end.

(** Suffixes of a string, the string itself first. *)
Fixpoint suffixes (s : string) : list string :=
  s :: match s with
       | EmptyString => []
       | String _ r => suffixes r
       end.

(** No position of [s] starts a match of the expression. *)
Definition match_free (s : string) : Prop :=
  Forall (fun t => match_at t = None) (suffixes s).

(** Every string leaf of [v] satisfies [P]. *)
Fixpoint leaves_ok (P : string -> Prop) (v : Val) : Prop :=
  match v with
  | VStr s => P s
  | VArr elems => fold_right (fun e acc => leaves_ok P e /\ acc) True elems
  | VObj props => fold_right (fun kv acc => leaves_ok P (snd kv) /\ acc) True props
  | _ => True
  end.

(** No carriage return and no line feed in [s]. *)
Definition no_breaks (s : string) : Prop :=
  Forall (fun c => c <> CR /\ c <> LF) (list_ascii_of_string s).

(** Nothing left for the expression to remove. *)
Definition clean (s : string) : Prop := match_free s /\ no_breaks s.

Definition sample_notice : string :=
  "<b>Recall</b> notice" ++ String LF EmptyString.

Definition sample_nested : Val :=
  VObj [("a", VStr "<i>x</i>"); ("b", VArr [VNum 1; VStr "<p>y</p>"])].

End Strip.

(* ===================================================================== *)
(** ** Ramda's [map] and [keys] on JSON values *)
(* ===================================================================== *)

Module Ramda.

(** Run [f] over a list from the left; the first exception ends the walk. *)
Fixpoint each {A B : Type} (f : A -> Completion B) (l : list A)
  : Completion (list B) :=
  match l with
  | [] => Returned []
  | x :: rest =>
      match f x with
      | Thrown e => Thrown e
      | Returned y =>
          match each f rest with
          | Thrown e => Thrown e
          | Returned ys => Returned (y :: ys)
          end
      end
  end.

Definition chars (s : string) : list Val :=
  map (fun c => VStr (String c EmptyString)) (list_ascii_of_string s).

(** [R.map(f, v)]: element-wise on an array, value-wise (same keys, same
    order) on an object.  On the remaining values [R.map] falls back to its
    indexed loop over [v.length]: a string is walked character by character,
    a number or a boolean has no length and gives [[undefined]], and
    [null]/[undefined] fail on the method lookup. *)
Definition R_map (f : Val -> Completion Val) (v : Val) : Completion Val :=
  match v with
  | VArr elems =>
      match each f elems with
      | Thrown e => Thrown e
      | Returned ys => Returned (VArr ys)
      end
  | VObj props =>
      match each (fun kv => match f (snd kv) with
                            | Thrown e => Thrown e
                            | Returned y => Returned (fst kv, y)
                            end) props with
      | Thrown e => Thrown e
      | Returned ys => Returned (VObj ys)
      end
  | VStr s =>
      match each f (chars s) with
      | Thrown e => Thrown e
      | Returned ys => Returned (VArr ys)
      end
  | VNum _ | VBool _ => Returned (VArr [VUndef])
  | VNull | VUndef => Thrown (TypeError "map")
  end.

(** [R.keys(v).length]: own keys of an array or object, none for a
    primitive. *)
Definition R_keys_length (v : Val) : nat :=
  match v with
  | VArr elems => length elems
  | VObj props => length props
  | _ => 0
  end.

End Ramda.
Export Ramda.

(* ===================================================================== *)
(** ** The staging files and the fetch and clean stages *)
(* ===================================================================== *)

Module Stages.

(** Text of a staging file: the serialisation of a JSON value, or text that
    [JSON.parse] rejects. *)
Inductive FileText : Type :=
| JsonText (v : Val)
| Unparsable.

(** The [./_raw] directory: whether it exists, and its files by path. *)
Record FS : Type := mkFS {
  raw_dir : bool;
  files : gmap string FileText
}.

Inductive Log : Type :=
| LogNoRawDir
| LogCreatedFile (path : string)
| LogFetchError (e : Exn)
| LogMapError (e : Exn).

Definition raw_path (i : nat) : string := "./_raw/" ++ pretty i ++ ".json".
Definition stripped_path (i : nat) : string :=
  "./_raw/" ++ pretty i ++ "-stripped.json".

Definition readFileSync (fs : FS) (path : string) : Completion FileText :=
  match files fs !! path with
  | Some t => Returned t
  | None => Thrown (FsError path)
  end.

Definition writeFileSync (fs : FS) (path : string) (t : FileText)
  : Completion FS :=
  if raw_dir fs
  then Returned (mkFS true (<[path := t]> (files fs)))
  else Thrown (FsError path).

Definition JSON_parse (t : FileText) : Completion Val :=
  match t with
  | JsonText v => Returned v
  | Unparsable => Thrown SyntaxError
  end.

(** What serialisation keeps of a value: a property whose value is
    [undefined] is left out, an [undefined] array element is written as
    [null]. *)
Fixpoint json_norm (v : Val) : Val :=
  match v with
  | VArr elems =>
      VArr (map (fun e => match e with
                          | VUndef => VNull
                          | _ => json_norm e
                          end) elems)
  | VObj props =>
      VObj (fold_right (fun kv acc => match snd kv with
                                      | VUndef => acc
                                      | _ => (fst kv, json_norm (snd kv)) :: acc
                                      end) [] props)
  | _ => v
  end.

(** [JSON.stringify(v)] as handed to [writeFileSync].  For [undefined] it
    returns [undefined], which is written as text that does not parse. *)
Definition JSON_stringify (v : Val) : FileText :=
  match v with
  | VUndef => Unparsable
  | _ => JsonText (json_norm v)
  end.

(** [body.results]. *)
Definition results_of (body : Val) : Completion Val :=
  match body with
  | VObj props => Returned (get_prop "results" props)
  | VNull | VUndef => Thrown (TypeError "results")
  | _ => Returned VUndef
  end.

Definition categories : list nat := [1; 2; 3; 4].

(** [for (let i = 1; i <= 4; i++) body] inside a [try]: the first exception
    leaves the loop. *)
Fixpoint for_each {St : Type} (body : nat -> St -> St * Completion unit)
    (cats : list nat) (st : St) : St * Completion unit :=
  match cats with
  | [] => (st, Returned tt)
  | i :: rest =>
      match body i st with
      | (st', Returned _) => for_each body rest st'
      | (st', Thrown e) => (st', Thrown e)
      end
  end.

(** State of a stage: the files and the console lines printed so far. *)
Definition St : Type := FS * list Log.

(** [if (!fs.existsSync("./_raw")) { console.log(...); fs.mkdirSync("./_raw") }]. *)
Definition ensure_raw_dir (fs : FS) : St :=
  if raw_dir fs then (fs, [])
  else (mkFS true (files fs), [LogNoRawDir]).

(** A stage fails at category [i], after the categories [pre] went through
    and left the state [st]: the body raises [e] there. *)
Definition fails_at (body : nat -> St -> St * Completion unit) (st0 : St)
    (pre : list nat) (i : nat) (st : St) (e : Exn) : Prop :=
  for_each body pre st0 = (st, Returned tt) /\
  exists st', body i st = (st', Thrown e).

Section Fetch.
(** The recalls API: for a category, the parsed JSON body of the response,
    or the failure of [fetch] or of [.json()]. *)
Variable fetch : nat -> Completion Val.

Definition getRecentData_body (i : nat) (st : St) : St * Completion unit :=
  let '(fs, out) := st in
  match fetch i with
  | Thrown e => (st, Thrown e)
  | Returned body =>
      match results_of body with
      | Thrown e => (st, Thrown e)
      | Returned recent =>
          match writeFileSync fs (raw_path i) (JSON_stringify recent) with
          | Thrown e => (st, Thrown e)
          | Returned fs' =>
              ((fs', (out ++ [LogCreatedFile (raw_path i)])%list), Returned tt)
          end
      end
  end.

Definition getRecentData (fs : FS) : St :=
  match for_each getRecentData_body categories (ensure_raw_dir fs) with
  | (st, Returned _) => st
  | ((fs', out), Thrown e) => (fs', (out ++ [LogFetchError e])%list)
  end.
End Fetch.

Definition cleanData_body (i : nat) (st : St) : St * Completion unit :=
  let '(fs, out) := st in
  match readFileSync fs (raw_path i) with
  | Thrown e => (st, Thrown e)
  | Returned text =>
      match JSON_parse text with
      | Thrown e => (st, Thrown e)
      | Returned data =>
          match R_map (fun v => Returned (Strip.htmlStripper v)) data with
          | Thrown e => (st, Thrown e)
          | Returned data' =>
              match writeFileSync fs (stripped_path i) (JSON_stringify data') with
              | Thrown e => (st, Thrown e)
              | Returned fs' => ((fs', out), Returned tt)
              end
          end
      end
  end.

Definition cleanData (fs : FS) : St :=
  match for_each cleanData_body categories (fs, []) with
  | (st, Returned _) => st
  | ((fs', out), Thrown e) => (fs', (out ++ [LogMapError e])%list)
  end.

End Stages.

(* ===================================================================== *)
(** ** The record mapper *)
(* ===================================================================== *)

Module Converter.

(** Modelled from the spec: [AWS.DynamoDB.Converter.input] belongs to the AWS
    SDK, which the repository only requires.  The wire format tags a value
    with its type: a string becomes [{S: value}], a number [{N: stringified
    value}], a list and a map are converted recursively (as [{L: ...}] and
    [{M: ...}]); booleans and null carry the tags [BOOL] and [NULL]. *)
Fixpoint input (v : Val) : Val :=
  match v with
  | VUndef => VUndef
  | VNull => VObj [("NULL", VBool true)]
  | VBool b => VObj [("BOOL", VBool b)]
  | VNum n => VObj [("N", VStr (pretty n))]
  | VStr s => VObj [("S", VStr s)]
  | VArr elems => VObj [("L", VArr (map input elems))]
  | VObj props =>
      VObj [("M", VObj (map (fun kv => (fst kv, input (snd kv))) props))]
  end.

End Converter.

Module Mapper.

(** Records live in a store and are handled by reference: [this.data] is an
    array of references, and [mapRequest] receives one of them. *)
Abbreviation Store := (list (list (string * Val))).
Abbreviation Ref := nat.

Section WithConverter.
(** [AWS.DynamoDB.Converter.input]. *)
Variable Converter_input : Val -> Val.

(** The loop [for (let prop in Item) Item[prop] = Converter.input(Item[prop])]
    on the properties of an object. *)
Definition map_props (props : list (string * Val)) : list (string * Val) :=
  map (fun kv => (fst kv, Converter_input (snd kv))) props.


(** [mapRequest(Item)]: every property of the object [Item] refers to is
    overwritten with its converted value; the reference itself is
    returned. *)
Definition mapRequest (st : Store) (Item : Ref) : Store * Ref :=
  match st !! Item with
  | Some props => (<[Item := map_props props]> st, Item)
  | None => (st, Item)
  end.

(** [R.map(Item => this.mapRequest(Item), this.data)] over an array of
    references: the store after the pass and the array it builds. *)
Fixpoint mapRequest_all (st : Store) (data : list Ref) : Store * list Ref :=
  match data with
  | [] => (st, [])
  | r :: rest =>
      let '(st1, r') := mapRequest st r in
      let '(st2, rs) := mapRequest_all st1 rest in
      (st2, r' :: rs)
  end.

(** The value [mapRequest] returns, for an argument given by value.  An
    array is an object whose properties are its indices.  A non-empty
    string has indices too, but they cannot be assigned: the class body is
    strict code and the assignment throws.  The other primitives have no
    enumerable property and come back as they are. *)
Definition mapRequest_value (Item : Val) : Completion Val :=
  match Item with
  | VObj props => Returned (VObj (map_props props))
  | VArr elems => Returned (VArr (map Converter_input elems))
  | VStr s => if String.eqb s "" then Returned Item
              else Thrown (TypeError "assignment to a string index")
  | _ => Returned Item
  end.

(** What the caller sees through a reference. *)
Definition deref (st : Store) (r : Ref) : Val :=
  match st !! r with
  | Some props => VObj props
  | None => VUndef
  end.
End WithConverter.

End Mapper.

(* ===================================================================== *)
(** ** The upload engine: [DataLoader] *)
(* ===================================================================== *)

Module Loader.
Import Mapper.

Definition TABLE_NAME : string := "RecallsTestData-EN".

(** ToString, as applied to a computed property key and inside a template
    literal. *)
Fixpoint ToString (v : Val) : string :=
  match v with
  | VUndef => "undefined"
  | VNull => "null"
  | VBool true => "true"
  | VBool false => "false"
  | VNum n => pretty n
  | VStr s => s
  | VArr elems =>
      String.concat "," (map (fun e => match e with
                                       | VUndef | VNull => ""
                                       | _ => ToString e
                                       end) elems)
  | VObj _ => "[object Object]"
  end.

(** A property of a [DataLoader] instance. *)
Inductive Slot : Type :=
| SVal (v : Val)
| SClient (config : Val)        (* [new AWS.DynamoDB(config)] *)
| SClosure                      (* one of the promisified wrappers *)
| STimer.                       (* the handle [setInterval] returns *)

(** [new DataLoader(data, table, config, category)]: the properties the
    constructor assigns, in its order. *)
Definition constructor (data table config category : Val) : gmap string Slot :=
  <["createTable" := SClosure]>
  (<["listTables" := SClosure]>
  (<["batchWriteItem" := SClosure]>
  (<["dynamoHelper" := SClient config]>
  (<["dots" := SVal (VStr "...")]>
  (<["textInterval" := SVal VNull]>
  (<["category" := SVal category]>
  (<["table" := SVal table]>
  (<["data" := SVal data]> ∅)))))))).

(** [this.k] read as a value: [undefined] for a property that is not
    there. *)
Definition read (this : gmap string Slot) (k : string) : Val :=
  match this !! k with
  | Some (SVal v) => v
  | Some _ => VObj []
  | None => VUndef
  end.

(** The configuration of the client the wrappers of [this] close over. *)
Definition client (this : gmap string Slot) : Val :=
  match this !! "dynamoHelper" with
  | Some (SClient config) => config
  | _ => VUndef
  end.

(** The resolved value of [batchWriteItem]. *)
Record Output : Type := mkOutput { UnprocessedItems : Val }.

Inductive Line : Type :=
| MsgCheckTableManually
| MsgAborting
| MsgLargeRequest
| MsgDryRun (path : string)
| MsgInsertionCompleteResults (results : list Output)
| MsgResult (res : Output)
| MsgUnprocessed (items : Val)
| MsgInsertionComplete
| MsgUnprocessedTryingAgain (result : Output)
| MsgErrorInserting (err : Exn).

(** What a run does to the outside, in order.  The first argument of a
    datastore call is the configuration of the client that issues it. *)
Inductive Action : Type :=
| ListTables (config : Val)
| Prompt (question : string)
| CreateTable (config params : Val)
| BatchWriteItem (config request : Val)
| Sleep (ms : Z)
| WriteFile (path : string) (text : Stages.FileText)
| SetInterval (ms : Z)
| ClearInterval
| ClearLine
| CursorTo (col : Z)
| StdoutWrite (text : string)
| ConsoleLog (line : Line)
| NewDataLoader (data table config : Val).

(** An action together with the retry depth of the loader performing it:
    0 for the loader the caller built, 1 for the loader it spawns, ... *)
Definition Event : Type := nat * Action.

Definition createTable_params : Val :=
  VObj [("TableName", VStr TABLE_NAME);
        ("KeySchema",
         VArr [VObj [("AttributeName", VStr "recallId"); ("KeyType", VStr "HASH")]]);
        ("AttributeDefinitions",
         VArr [VObj [("AttributeName", VStr "recallId"); ("AttributeType", VStr "S")]]);
        ("ProvisionedThroughput",
         VObj [("ReadCapacityUnits", VNum 1); ("WriteCapacityUnits", VNum 1)])].

Definition create_question : string :=
  "Table, '" ++ TABLE_NAME ++ "' can't be found, would you like to create it? [y/n] ".

Definition lower (c : ascii) : ascii :=
  let n := nat_of_ascii c in
  if (65 <=? n)%nat && (n <=? 90)%nat then ascii_of_nat (n + 32) else c.

(** [/^y(?:es)?$/i.test(answer)]. *)
Definition is_yes (answer : string) : bool :=
  match list_ascii_of_string answer with
  | [y] => Ascii.eqb (lower y) "y"
  | [y; e; s] =>
      Ascii.eqb (lower y) "y" && Ascii.eqb (lower e) "e" && Ascii.eqb (lower s) "s"
  | _ => false
  end.

(** [tableList.includes(name)]. *)
Definition includes (tableList : list string) (name : string) : bool :=
  existsb (String.eqb name) tableList.

Definition put_request (Item : Val) : Val :=
  VObj [("PutRequest", VObj [("Item", Item)])].

Definition mk_request (table : string) (items : Val) : Val :=
  VObj [("RequestItems", VObj [(table, items)])].

(** The request that carries one chunk. *)
Definition chunk_request (table : string) (chunk : list Val) : Val :=
  mk_request table (VArr chunk).

(** The chunking loop:
    [while (items.length > 0) multiRequest.push({... items.splice(0, 25)})]. *)
Equations? splice_loop (table : string) (items : list Val) (multiRequest : list Val)
  : list Val by wf (length items) lt :=
splice_loop table [] multiRequest := multiRequest;
splice_loop table (x :: rest) multiRequest :=
  splice_loop table (drop 25 (x :: rest))
    (multiRequest ++ [mk_request table (VArr (take 25 (x :: rest)))]).
Proof. rewrite length_drop. simpl. lia. Qed.

(** The elements of an array value. *)
Definition elems_of (v : Val) : list Val :=
  match v with
  | VArr l => l
  | _ => []
  end.

(** The partitioning step of [start], on the mapped items: the value of
    [multiRequest] ([false], or the array of chunk requests) and the
    [request] object as the step leaves it ([splice] empties its list when
    it chunks).  Only an array has a length that compares above 25. *)
Definition partition (table : string) (items : Val) : Val * Val :=
  if gt_num (length_of items) 25
  then (VArr (splice_loop table (elems_of items) []), mk_request table (VArr []))
  else (VBool false, mk_request table items).

(** [v.length] as an expression: reading a property of [null] or
    [undefined] throws. *)
Definition length_access (v : Val) : Completion Val :=
  match v with
  | VUndef | VNull => Thrown (TypeError "length")
  | _ => Returned (length_of v)
  end.

(** [loadingText()]: the next frame of the dots, stored in [this.dots], and
    what is sent to the terminal.  The [switch] compares with [===]. *)
Definition loadingText (this : gmap string Slot) : gmap string Slot * list Action :=
  let dots :=
    match read this "dots" with
    | VStr s =>
        if String.eqb s "" || String.eqb s "." || String.eqb s ".."
        then s ++ "." else ""
    | _ => ""
    end in
  (<["dots" := SVal (VStr dots)]> this,
   [ClearLine; CursorTo 0; StdoutWrite ("Loading data into table" ++ dots)]).

(** [`./_raw/${this.category}-DEBUG.json`]. *)
Definition debug_file (this : gmap string Slot) : string :=
  "./_raw/" ++ ToString (read this "category") ++ "-DEBUG.json".

(** [multiRequest.length ? multiRequest : request]. *)
Definition debug_payload (multiRequest request : Val) : Val :=
  if truthy (length_of multiRequest) then multiRequest else request.

(** The world outside the program: the SDK's converter, the datastore
    behind the clients, the operator at the prompt and the file system.  Each
    call may change the world; a datastore call and a file write may fail. *)
Record Sdk (W : Type) : Type := mkSdk {
  Converter_input : Val -> Val;
  listTables : Val -> W -> W * Completion (list string);
  createTable : Val -> Val -> W -> W * Completion Val;
  batchWriteItem : Val -> Val -> W -> W * Completion Output;
  prompt : string -> W -> W * string;
  writeFileSync : string -> Stages.FileText -> W -> W * Completion unit
}.
Arguments Converter_input {W} _ _.
Arguments listTables {W} _ _ _.
Arguments createTable {W} _ _ _ _.
Arguments batchWriteItem {W} _ _ _ _.
Arguments prompt {W} _ _ _.
Arguments writeFileSync {W} _ _ _ _.

Section Engine.
Context {W : Type}.
Variable sdk : Sdk W.

(** A computation: from a world to the world after, the events performed
    and how it completed; [None] when the retry chain is longer than the
    fuel allows to follow. *)
Definition M (A : Type) : Type :=
  W -> option (W * list Event * Completion A).

Definition ret {A} (a : A) : M A := fun w => Some (w, [], Returned a).

Definition throw {A} (e : Exn) : M A := fun w => Some (w, [], Thrown e).

Definition bind {A B} (m : M A) (k : A -> M B) : M B :=
  fun w =>
    match m w with
    | None => None
    | Some (w1, t1, Thrown e) => Some (w1, t1, Thrown e)
    | Some (w1, t1, Returned a) =>
        match k a w1 with
        | None => None
        | Some (w2, t2, c) => Some (w2, (t1 ++ t2)%list, c)
        end
    end.

(** [try { m } catch (err) { handler err }]. *)
Definition try_catch {A} (m : M A) (handler : Exn -> M A) : M A :=
  fun w =>
    match m w with
    | None => None
    | Some (w1, t1, Returned a) => Some (w1, t1, Returned a)
    | Some (w1, t1, Thrown e) =>
        match handler e w1 with
        | None => None
        | Some (w2, t2, c) => Some (w2, (t1 ++ t2)%list, c)
        end
    end.

(** Run [m] to a settled promise: its completion becomes a value. *)
Definition settle {A} (m : M A) : M (Completion A) :=
  fun w =>
    match m w with
    | None => None
    | Some (w1, t1, c) => Some (w1, t1, Returned c)
    end.

Definition lift {A} (c : Completion A) : M A := fun w => Some (w, [], c).

Definition emit (wave : nat) (a : Action) : M unit :=
  fun w => Some (w, [(wave, a)], Returned tt).

Definition call {A} (wave : nat) (a : Action) (f : W -> W * Completion A) : M A :=
  fun w => let '(w1, c) := f w in Some (w1, [(wave, a)], c).

Definition log (wave : nat) (line : Line) : M unit := emit wave (ConsoleLog line).

Notation "'let!' x <- m ;; k" := (bind m (fun x => k))
  (at level 10, x name, m at level 99, k at level 200, only parsing).
Notation "'do!' m ;; k" := (bind m (fun _ => k))
  (at level 10, m at level 99, k at level 200, only parsing).

(** [clearInterval(this.textInterval); process.stdout.clearLine();
    process.stdout.cursorTo(0)]. *)
Definition stop_loading_text (wave : nat) : M unit :=
  do! emit wave ClearInterval ;; do! emit wave ClearLine ;; emit wave (CursorTo 0).

(** [for (let _req of multiRequest) { results.push(await
    this.batchWriteItem(_req)); await _sleep(1500) }]. *)
Fixpoint submit_each (wave : nat) (config : Val) (reqs : list Val)
  : M (list Output) :=
  match reqs with
  | [] => ret []
  | _req :: rest =>
      let! res <- call wave (BatchWriteItem config _req) (batchWriteItem sdk config _req) ;;
      do! emit wave (Sleep 1500) ;;
      let! more <- submit_each wave config rest ;;
      ret (res :: more)
  end.

(** The [async res => { ... }] callback of the multi-request path.  Its
    inner test names [result], the [const] declared further down in the
    enclosing [try] block and not yet initialised while this path runs, so
    evaluating it throws; the statements after it are never reached. *)
Definition inspect_result (wave : nat) (res : Output) : M unit :=
  do! log wave (MsgResult res) ;;
  let! len <- lift (length_access (UnprocessedItems res)) ;;
  if truthy len then
    do! log wave (MsgUnprocessed (UnprocessedItems res)) ;;
    throw (ReferenceError "result")
  else ret tt.

(** [R.map(callback, results)]: every callback runs, in order, up to its
    completion (none of them reaches an [await]). *)
Fixpoint inspect_each (wave : nat) (results : list Output)
  : M (list (Completion unit)) :=
  match results with
  | [] => ret []
  | res :: rest =>
      let! p <- settle (inspect_result wave res) ;;
      let! ps <- inspect_each wave rest ;;
      ret (p :: ps)
  end.

(** [await Promise.all(promises)] on settled promises: the first rejection
    is thrown. *)
Fixpoint Promise_all (promises : list (Completion unit)) : M unit :=
  match promises with
  | [] => ret tt
  | Returned _ :: rest => Promise_all rest
  | Thrown e :: _ => throw e
  end.

(** [async start(dry)]. *)
Fixpoint start (fuel : nat) (wave : nat) (this : gmap string Slot) (dry : Val)
  {struct fuel} : M unit :=
  match fuel with
  | O => fun _ => None
  | S fuel' =>
    let! tableList <- call wave (ListTables (client this)) (listTables sdk (client this)) ;;
    if negb (includes tableList TABLE_NAME) then
      let! createTable_answer <-
        call wave (Prompt create_question)
          (fun w => let '(w1, a) := prompt sdk create_question w in (w1, Returned a)) ;;
      if is_yes createTable_answer then
        do! call wave (CreateTable (client this) createTable_params)
          (createTable sdk (client this) createTable_params) ;;
        log wave MsgCheckTableManually
      else
        log wave MsgAborting
    else
      let table := ToString (read this "table") in
      let! items <- lift (R_map (fun Item =>
                 match mapRequest_value (Converter_input sdk) Item with
                 | Thrown e => Thrown e
                 | Returned mapped => Returned (put_request mapped)
                 end) (read this "data")) ;;
      let large := gt_num (length_of items) 25 in
      do! (if large then log wave MsgLargeRequest else ret tt) ;;
      let multiRequest := fst (partition table items) in
      let request := snd (partition table items) in
      if truthy dry then
        let _debugFilename := debug_file this in
        let text := Stages.JSON_stringify (debug_payload multiRequest request) in
        do! log wave (MsgDryRun _debugFilename) ;;
        call wave (WriteFile _debugFilename text) (writeFileSync sdk _debugFilename text)
      else
        do! emit wave (SetInterval 250) ;;
        let this := <["textInterval" := STimer]> this in
        try_catch
          (if truthy (length_of multiRequest) then
             let! results <- submit_each wave (client this) (elems_of multiRequest) ;;
             do! stop_loading_text wave ;;
             do! log wave (MsgInsertionCompleteResults results) ;;
             let! promises <- inspect_each wave results ;;
             Promise_all promises
           else
             let! result <- call wave (BatchWriteItem (client this) request)
                         (batchWriteItem sdk (client this) request) ;;
             do! stop_loading_text wave ;;
             do! log wave MsgInsertionComplete ;;
             let unprocessedItems := negb (R_keys_length (UnprocessedItems result) =? 0)%nat in
             if unprocessedItems then
               do! log wave (MsgUnprocessedTryingAgain result) ;;
               let! len <- lift (length_access (UnprocessedItems result)) ;;
               if truthy len then
                 do! emit wave (NewDataLoader (UnprocessedItems result)
                              (read this "table") (read this "dynamoConfig")) ;;
                 start fuel' (S wave)
                   (constructor (UnprocessedItems result)
                      (read this "table") (read this "dynamoConfig") VUndef)
                   VUndef
               else ret tt
             else ret tt)
          (fun err =>
             do! stop_loading_text wave ;;
             log wave (MsgErrorInserting err))
  end.
End Engine.

(** The outcome [r] with the events [t] in front of its own. *)
Definition after {W A : Type} (t : list Event)
    (r : option (W * list Event * Completion A))
  : option (W * list Event * Completion A) :=
  match r with
  | None => None
  | Some (w, t', c) => Some (w, (t ++ t')%list, c)
  end.

(** The [catch] block of [start] applied to the outcome of its [try] block:
    an exception is logged and the call returns. *)
Definition caught {W : Type} (wave : nat)
    (r : option (W * list Event * Completion unit))
  : option (W * list Event * Completion unit) :=
  match r with
  | None => None
  | Some (w, t, Returned _) => Some (w, t, Returned tt)
  | Some (w, t, Thrown e) =>
      Some (w, (t ++ [(wave, ClearInterval); (wave, ClearLine); (wave, CursorTo 0);
                      (wave, ConsoleLog (MsgErrorInserting e))])%list, Returned tt)
  end.

(** The datastore calls of a trace. *)
Definition is_batch_write (ev : Event) : bool :=
  match snd ev with BatchWriteItem _ _ => true | _ => false end.
Definition is_write_file (ev : Event) : bool :=
  match snd ev with WriteFile _ _ => true | _ => false end.
Definition is_spawn (ev : Event) : bool :=
  match snd ev with NewDataLoader _ _ _ => true | _ => false end.

(** Every event of every run of [m] satisfies [P]. *)
Definition traces {W A : Type} (P : Event -> Prop) (m : M (W:=W) A) : Prop :=
  forall w w' t c, m w = Some (w', t, c) -> Forall P t.

(** The configuration a run at depth [wave], with a client configured by
    [cfg], hands out: its own datastore calls carry [cfg]; a loader it
    constructs is given [undefined], and so is every datastore call of a
    deeper loader. *)
Definition config_ok (wave : nat) (cfg : Val) (ev : Event) : Prop :=
  wave <= fst ev /\
  match snd ev with
  | NewDataLoader _ _ c => c = VUndef
  | ListTables c | CreateTable c _ | BatchWriteItem c _ =>
      (fst ev = wave /\ c = cfg) \/ (wave < fst ev /\ c = VUndef)
  | _ => True
  end.

(** An array of records, mapped and wrapped as [start] does it. *)
Definition mapped_items (input : Val -> Val) (records : list (list (string * Val)))
  : list Val :=
  map (fun props => put_request (VObj (map_props input props))) records.

(** The events of the loader at depth [wave] itself. *)
Definition own (wave : nat) (trace : list Event) : list Event :=
  List.filter (fun ev => (fst ev =? wave)%nat) trace.

(** The requests submitted, in order, each with the depth of its loader. *)
Definition submissions (trace : list Event) : list (nat * Val) :=
  omap (fun ev => match snd ev with
                  | BatchWriteItem _ req => Some (fst ev, req)
                  | _ => None
                  end) trace.

End Loader.

(* ===================================================================== *)
(** ** Scripted worlds, for running the engine on concrete inputs *)
(* ===================================================================== *)

Module Stub.
Import Loader.

(** A world that is the script of the answers still to be given to
    [batchWriteItem], one per call; once the script is used up every write
    is accepted in full.  The table listing and the operator's answer are
    fixed, table creation and file writes succeed. *)
Definition accepted : Output := mkOutput (VObj []).

Definition scripted (tables : list string) (answer : string)
  : Sdk (list (Completion Output)) :=
  {| Converter_input := Converter.input;
     listTables := fun _ w => (w, Returned tables);
     createTable := fun _ _ w => (w, Returned (VObj []));
     batchWriteItem := fun _ _ w =>
       match w with
       | [] => ([], Returned accepted)
       | r :: rest => (rest, r)
       end;
     prompt := fun _ w => (w, answer);
     writeFileSync := fun _ _ w => (w, Returned tt) |}.

Definition dynamoConfig : Val :=
  VObj [("region", VStr "ca-central-1"); ("endpoint", VStr "http://localhost:8000")].

(** The record [{recallId: "<n>"}]. *)
Definition recall (n : nat) : Val := VObj [("recallId", VStr (pretty n))].

(** [{recallId: "0"}, ..., {recallId: "<n-1>"}]. *)
Definition recalls (n : nat) : list Val := map recall (seq 0 n).

(** The loader [startLoading] builds for category [i]. *)
Definition loader (data : list Val) (i : Z) : gmap string Slot :=
  constructor (VArr data) (VStr TABLE_NAME) dynamoConfig (VNum i).

(** A record once mapped and wrapped, as the datastore echoes it back. *)
Definition wire (n : nat) : Val :=
  put_request (VObj [("recallId", Converter.input (VStr (pretty n)))]).

(** Staging files and an API for the fetch and clean stages. *)
Definition listing : Val :=
  VArr [VObj [("recallId", VStr "64712"); ("title", VStr "<b>Recall</b> notice")]].

Definition raw_files (present : list nat) : Stages.FS :=
  Stages.mkFS true
    (foldr (fun i m => <[Stages.raw_path i := Stages.JsonText listing]> m) ∅ present).

Definition fetch_failing (bad : nat) (i : nat) : Completion Val :=
  if (i =? bad)%nat then Thrown (RemoteError (VStr "ETIMEDOUT"))
  else Returned (VObj [("results", listing)]).

(** The elements of the sample listing. *)
Definition elems_of_listing : list Val := Loader.elems_of listing.

End Stub.

(* ===================================================================== *)
(** ** Vocabulary for the properties of the stripper *)
(* ===================================================================== *)

Module StripSpec.
Import Strip.

(** Text in which the expression finds nothing to start a match on: no
    [<], no carriage return, no line feed. *)
Definition plain (s : string) : Prop :=
  Forall (fun c => c <> LT /\ c <> CR /\ c <> LF) (list_ascii_of_string s).

(** Text without [>]. *)
Definition no_gt (s : string) : Prop :=
  Forall (fun c => c <> GT) (list_ascii_of_string s).

(** A value with the text of its string leaves erased: what is left is the
    nesting, the keys in their order, the array lengths and the leaves that
    are not strings. *)
Fixpoint shape (v : Val) : Val :=
  match v with
  | VStr _ => VStr ""
  | VArr elems => VArr (map shape elems)
  | VObj props => VObj (map (fun kv => (fst kv, shape (snd kv))) props)
  | _ => v
  end.

End StripSpec.

(* ===================================================================== *)
(** ** Vocabulary for the properties of the engine *)
(* ===================================================================== *)

Module EngineSpec.
Import Loader.

(** Every run of [m] leaves a trace that satisfies [Q]. *)
Definition runs {W A : Type} (Q : list Event -> Prop) (m : M (W:=W) A) : Prop :=
  forall w w' t c, m w = Some (w', t, c) -> Q t.

(** Every run of [m] that returns normally has performed [ev]. *)
Definition returns_after {W A : Type} (ev : Event) (m : M (W:=W) A) : Prop :=
  forall w w' t a, m w = Some (w', t, Returned a) -> In ev t.

(** [m] never raises. *)
Definition never_throws {W A : Type} (m : M (W:=W) A) : Prop :=
  forall w w' t e, m w <> Some (w', t, Thrown e).

(** Every loading-text timer started in the trace is cleared later in the
    trace by the loader that started it. *)
Fixpoint stopped (t : list Event) : Prop :=
  match t with
  | [] => True
  | (d, SetInterval _) :: rest => In (d, ClearInterval) rest /\ stopped rest
  | _ :: rest => stopped rest
  end.

(** An event that uploads nothing and starts nothing: no batch write, no
    new loader, no timer. *)
Definition quiet (ev : Event) : Prop :=
  match snd ev with
  | BatchWriteItem _ _ | NewDataLoader _ _ _ | SetInterval _ => False
  | _ => True
  end.

(** An event that is not a batch write. *)
Definition no_write (ev : Event) : Prop := is_batch_write ev = false.

(** The submission loop on requests that are all accepted: each write is
    followed by the pause of 1.5 s. *)
Definition paced (wave : nat) (config : Val) (reqs : list Val) : list Event :=
  flat_map (fun r => [(wave, BatchWriteItem config r); (wave, Sleep 1500)]) reqs.

(** What the [catch] block of [start] performs for the error [e]. *)
Definition error_report (wave : nat) (e : Exn) : list Event :=
  [(wave, ClearInterval); (wave, ClearLine); (wave, CursorTo 0);
   (wave, ConsoleLog (MsgErrorInserting e))].

(** A datastore that accepts every write in full, lists the given tables
    and refuses to create one; the operator answers [answer]. *)
Definition accepting (tables : list string) (answer : string) : Sdk unit :=
  {| Converter_input := Converter.input;
     listTables := fun _ w => (w, Returned tables);
     createTable := fun _ _ w =>
       (w, Thrown (RemoteError (VStr "ResourceInUseException")));
     batchWriteItem := fun _ _ w => (w, Returned (mkOutput (VObj [])));
     prompt := fun _ w => (w, answer);
     writeFileSync := fun _ _ w => (w, Returned tt) |}.

(** When [m] raises, its trace is quiet. *)
Definition throws_quietly {W A : Type} (m : M (W:=W) A) : Prop :=
  forall w w' t e, m w = Some (w', t, Thrown e) -> Forall quiet t.

End EngineSpec.

(* ===================================================================== *)
(** ** The detail stage: [getFullData] *)
(* ===================================================================== *)

Module FullData.
Import Stages.

(** The address of the detail of one recall. *)
Definition detail_url (recallId : Val) : string :=
  "https://healthycanadians.gc.ca/recall-alert-rappel-avis/api/"
  ++ Loader.ToString recallId ++ "/en".

(** [item.recallId]: reading a property of [null] or [undefined] throws, an
    object gives its property, every other value has none. *)
Definition recallId_of (item : Val) : Completion Val :=
  match item with
  | VNull | VUndef => Thrown (TypeError "recallId")
  | VObj props => Returned (get_prop "recallId" props)
  | _ => Returned VUndef
  end.

Section Detail.
(** The recalls API for one recall: for an address, the parsed JSON body, or
    the failure of [fetch] or of [.json()].  The API keeps no state between
    requests. *)
Variable fetch : string -> Completion Val.

(** The callback [async item => { try { ... return _full } catch(err)
    { console.log(err); return item } }], run to its settled promise: the
    value it resolves to, and the error it printed if there was one.  It
    never rejects. *)
Definition full_item (item : Val) : Val * option Exn :=
  match recallId_of item with
  | Thrown e => (item, Some e)
  | Returned recallId =>
      match fetch (detail_url recallId) with
      | Returned _full => (_full, None)
      | Thrown e => (item, Some e)
      end
  end.

(** [await Promise.all(promises)] on what [R.map] built from the settled
    promises: an array resolves to the array of the values; anything else is
    not iterable and rejects. *)
Definition Promise_all_values (promises : Val) : Completion Val :=
  match promises with
  | VArr values => Returned (VArr values)
  | _ => Thrown (TypeError "not iterable")
  end.

(** The items [R.map] hands to the callback, in order, for the value of
    [data.results]: the elements of an array, the values of an object, the
    characters of a string.  The callbacks run concurrently; an error printed
    by one of them is recorded with the others of its category in item
    order, the order on the console being that of arrival. *)
Definition visited (results : Val) : list Val :=
  match results with
  | VArr elems => elems
  | VObj props => map snd props
  | VStr s => chars s
  | _ => []
  end.

Definition item_errors (results : Val) : list Exn :=
  omap (fun item => snd (full_item item)) (visited results).

(** State of the stage: the files, and the errors the callbacks printed. *)
Definition FullSt : Type := FS * list Exn.

Definition getFullData_body (i : nat) (st : FullSt) : FullSt * Completion unit :=
  let '(fs, errs) := st in
  match readFileSync fs (raw_path i) with
  | Thrown e => (st, Thrown e)
  | Returned text =>
      match JSON_parse text with
      | Thrown e => (st, Thrown e)
      | Returned data =>
          match results_of data with
          | Thrown e => (st, Thrown e)
          | Returned results =>
              match R_map (fun item => Returned (fst (full_item item))) results with
              | Thrown e => (st, Thrown e)
              | Returned promises =>
                  let errs' := (errs ++ item_errors results)%list in
                  match Promise_all_values promises with
                  | Thrown e => ((fs, errs'), Thrown e)
                  | Returned data' =>
                      match writeFileSync fs (raw_path i) (JSON_stringify data') with
                      | Thrown e => ((fs, errs'), Thrown e)
                      | Returned fs' => ((fs', errs'), Returned tt)
                      end
                  end
              end
          end
      end
  end.

(** [getFullData()]: the files and the item errors, and the error the outer
    [catch] printed ("Error mapping test data") if the loop was left. *)
Definition getFullData (fs : FS) : FullSt * option Exn :=
  match for_each getFullData_body categories (fs, []) with
  | (st, Returned _) => (st, None)
  | (st, Thrown e) => (st, Some e)
  end.
End Detail.

End FullData.

(* ===================================================================== *)
(** ** Sample data for the later stages *)
(* ===================================================================== *)

Module Samples.

(** A detail API that knows the recall 64712 only. *)
Definition detail_of_64712 : Val :=
  VObj [("recallId", VStr "64712"); ("title", VStr "<p>Recall</p>")].

Definition fetch_detail (url : string) : Completion Val :=
  if String.eqb url (FullData.detail_url (VStr "64712"))
  then Returned detail_of_64712
  else Thrown (RemoteError (VStr "invalid json response body")).

(** Raw files in the shape the detail stage reads: [{results: [...]}]. *)
Definition wrapped_files (results : list Val) : Stages.FS :=
  Stages.mkFS true
    (foldr (fun i m =>
              <[Stages.raw_path i := Stages.JsonText (VObj [("results", VArr results)])]> m)
       ∅ Stages.categories).

End Samples.

(* ===================================================================== *)
(** ** The upload stage and the entry point: [startLoading], [initialize] *)
(* ===================================================================== *)

Module Pipeline.
Import Stages Loader.

Section Upload.
Context {W : Type}.
Variable sdk : Sdk W.
(** [fs.readFileSync(path, 'utf8')] in the current world. *)
Variable readFile : string -> W -> Completion FileText.
(** What [require('./dynamo.config.js')] exports. *)
Variable dynamoConfig : Val.

(** One iteration of the loop of [startLoading]: read and parse the stripped
    file of category [i], build its loader and run it. *)
Definition load_category (fuel : nat) (dry : Val) (i : nat) : M (W:=W) unit :=
  fun w =>
    match readFile (stripped_path i) w with
    | Thrown e => Some (w, [], Thrown e)
    | Returned text =>
        match JSON_parse text with
        | Thrown e => Some (w, [], Thrown e)
        | Returned data =>
            start sdk fuel 0
              (constructor data (VStr TABLE_NAME) dynamoConfig (VNum (Z.of_nat i)))
              dry w
        end
    end.

(** The loop over the categories, inside the [try]: the events of each
    category it entered, and how the loop ended. *)
Fixpoint load_each (fuel : nat) (dry : Val) (cats : list nat) (w : W)
  : option (W * list (nat * list Event) * Completion unit) :=
  match cats with
  | [] => Some (w, [], Returned tt)
  | i :: rest =>
      match load_category fuel dry i w with
      | None => None
      | Some (w1, t, Thrown e) => Some (w1, [(i, t)], Thrown e)
      | Some (w1, t, Returned _) =>
          match load_each fuel dry rest w1 with
          | None => None
          | Some (w2, runs, c) => Some (w2, (i, t) :: runs, c)
          end
      end
  end.

(** [startLoading(dry)]: the events category by category, and the error the
    [catch] printed ("Error reading test data") when the loop was left. *)
Definition startLoading (fuel : nat) (dry : Val) (w : W)
  : option (W * list (nat * list Event) * option Exn) :=
  match load_each fuel dry categories w with
  | None => None
  | Some (w', runs, Returned _) => Some (w', runs, None)
  | Some (w', runs, Thrown e) => Some (w', runs, Some e)
  end.
End Upload.

(** The datastore and the operator of [sdk], next to a file system: file
    writes go to the files. *)
Definition host {W : Type} (sdk : Sdk W) : Sdk (FS * W) :=
  {| Converter_input := Converter_input sdk;
     listTables := fun config st =>
       let '(w', r) := listTables sdk config (snd st) in ((fst st, w'), r);
     createTable := fun config params st =>
       let '(w', r) := createTable sdk config params (snd st) in ((fst st, w'), r);
     batchWriteItem := fun config request st =>
       let '(w', r) := batchWriteItem sdk config request (snd st) in ((fst st, w'), r);
     prompt := fun question st =>
       let '(w', a) := prompt sdk question (snd st) in ((fst st, w'), a);
     writeFileSync := fun path text st =>
       match Stages.writeFileSync (fst st) path text with
       | Returned fs' => ((fs', snd st), Returned tt)
       | Thrown e => (st, Thrown e)
       end |}.

Definition host_readFile {W : Type} (path : string) (st : FS * W)
  : Completion FileText :=
  Stages.readFileSync (fst st) path.

(** The options as [minimist] hands them over: a flag that was not given is
    [undefined]. *)
Record Flags : Type := mkFlags {
  recent : Val; full : Val; clean : Val; dry : Val; upload : Val; all : Val
}.

(** [if (all) { recent = full = clean = upload = all }]. *)
Definition apply_all (f : Flags) : Flags :=
  if truthy (all f)
  then mkFlags (all f) (all f) (all f) (dry f) (all f) (all f)
  else f.

(** [!recent && !full && !clean && !upload && !dry]. *)
Definition nothing_selected (f : Flags) : bool :=
  negb (truthy (recent f)) && negb (truthy (full f)) && negb (truthy (clean f))
  && negb (truthy (upload f)) && negb (truthy (dry f)).

Definition menu_question : string :=
  String.concat (String Strip.LF "")
    ["No command selected, please choose one of the following:";
     "[1] Pull down recent recall data from HC Recalls API";
     "[2] Transform captured recent data into detailed data.";
     "[3] Clean HTML from data";
     "[4] Upload to DynamoDB";
     "[5] Perform a dry run of uploading to DynamoDB";
     "[e|exit] Exits";
     "[a|all] Runs through entire process.";
     "--->  "].

(** [answer.toLowerCase()]. *)
Definition toLowerCase (s : string) : string :=
  string_of_list_ascii (map lower (list_ascii_of_string s)).

(** The [switch] of the menu: the flags after the choice, [None] for
    [exit], and whether the choice was refused as invalid. *)
Definition choose (f : Flags) (choice : string) : option Flags * bool :=
  if String.eqb choice "1" then
    (Some (mkFlags (VBool true) (full f) (clean f) (dry f) (upload f) (all f)), false)
  else if String.eqb choice "2" then
    (Some (mkFlags (recent f) (VBool true) (clean f) (dry f) (upload f) (all f)), false)
  else if String.eqb choice "3" then
    (Some (mkFlags (recent f) (full f) (VBool true) (dry f) (upload f) (all f)), false)
  else if String.eqb choice "4" then
    (Some (mkFlags (recent f) (full f) (clean f) (dry f) (VBool true) (all f)), false)
  else if String.eqb choice "5" then
    (Some (mkFlags (recent f) (full f) (clean f) (VBool true) (VBool true) (all f)), false)
  else if String.eqb choice "all" then
    (Some (mkFlags (VBool true) (VBool true) (VBool true) (VBool true) (VBool true)
             (all f)), false)
  else if String.eqb choice "exit" then (None, false)
  else (Some f, true).

Section Entry.
Context {W : Type}.
Variable sdk : Sdk W.
Variable dynamoConfig : Val.
Variable fetch_list : nat -> Completion Val.
Variable fetch_detail : string -> Completion Val.

(** The [while] loop of the menu: the world after the prompts, the number
    of times the menu was shown, the number of choices refused, and the flags
    it ends with -- [None] when the operator chose [exit].  Every prompt uses
    one unit of fuel. *)
Fixpoint menu (fuel : nat) (f : Flags) (w : W)
  : option (W * nat * nat * option Flags) :=
  if nothing_selected f then
    match fuel with
    | O => None
    | S fuel' =>
        let '(w1, answer) := prompt sdk menu_question w in
        match choose f (toLowerCase answer) with
        | (None, _) => Some (w1, 1, 0, None)
        | (Some f', refused) =>
            match menu fuel' f' w1 with
            | None => None
            | Some (w2, shown, n, r) =>
                Some (w2, S shown, (if refused then S n else n), r)
            end
        end
    end
  else Some (w, 0, 0, Some f).

(** What a run of the program did, stage by stage; a stage that was not
    selected is [None]. *)
Record Report : Type := mkReport {
  files_after : FS;
  world_after : W;
  menu_prompts : nat;
  refused_choices : nat;
  recent_stage : option (list Log);
  full_stage : option (list Exn * option Exn);
  clean_stage : option (list Log);
  upload_stage : option (list (nat * list Event) * option Exn)
}.

(** [initialize()], from the parsed options to [process.exit()]: [None] when
    the fuel does not cover the prompts or a retry chain, [Some None] when
    the operator left through [exit]. *)
Definition initialize (fuel : nat) (args : Flags) (fs : FS) (w : W)
  : option (option Report) :=
  match menu fuel (apply_all args) w with
  | None => None
  | Some (w1, shown, refused, None) => Some None
  | Some (w1, shown, refused, Some f) =>
      let '(fs1, r1) :=
        if truthy (recent f)
        then let '(fs', out) := getRecentData fetch_list fs in (fs', Some out)
        else (fs, None) in
      let '(fs2, r2) :=
        if truthy (full f)
        then let '((fs', errs), err) := FullData.getFullData fetch_detail fs1 in
             (fs', Some (errs, err))
        else (fs1, None) in
      let '(fs3, r3) :=
        if truthy (clean f)
        then let '(fs', out) := cleanData fs2 in (fs', Some out)
        else (fs2, None) in
      if truthy (upload f) || truthy (dry f) then
        match startLoading (host sdk) host_readFile dynamoConfig fuel
                (VBool (truthy (dry f))) (fs3, w1) with
        | None => None
        | Some ((fs4, w2), runs, err) =>
            Some (Some (mkReport fs4 w2 shown refused r1 r2 r3 (Some (runs, err))))
        end
      else Some (Some (mkReport fs3 w1 shown refused r1 r2 r3 None))
  end.
End Entry.

End Pipeline.

Module PipelineSpec.
Import Js.

(** The properties of a record as the clean stage writes them to the
    stripped file: stripped by [htmlStripper], then serialised. *)
Definition cleaned_record (props : list (string * Val)) : list (string * Val) :=
  match Stages.json_norm (Strip.htmlStripper (VObj props)) with
  | VObj props' => props'
  | _ => []
  end.

(** [./_raw/{i}-DEBUG.json], the debug file of the loader of category [i]. *)
Definition debug_path (i : nat) : string :=
  Loader.debug_file
    (Loader.constructor VUndef (VStr Loader.TABLE_NAME) VUndef (VNum (Z.of_nat i))).

(** What a dry run writes for the records [records]: the chunk requests when
    there are more than 25 of them, the single request otherwise. *)
Definition dry_run_text (input : Val -> Val) (records : list (list (string * Val)))
  : Stages.FileText :=
  let parts :=
    Loader.partition Loader.TABLE_NAME (VArr (Loader.mapped_items input records)) in
  Stages.JSON_stringify (Loader.debug_payload (fst parts) (snd parts)).

End PipelineSpec.

(* ===================================================================== *)
(** * Properties *)
(* ===================================================================== *)

(** Induction on JSON values that reaches into arrays and objects. *)
Lemma Val_deep_ind (P : Val -> Prop) :
  P VUndef -> P VNull -> (forall b, P (VBool b)) -> (forall n, P (VNum n)) ->
  (forall s, P (VStr s)) ->
  (forall elems, Forall P elems -> P (VArr elems)) ->
  (forall props, Forall (fun kv => P (snd kv)) props -> P (VObj props)) ->
  forall v, P v.
Proof.
  intros Hu Hn Hb Hz Hs Ha Ho.
  fix IH 1. intros [| | b | n | s | elems | props].
  - exact Hu.
  - exact Hn.
  - apply Hb.
  - apply Hz.
  - apply Hs.
  - apply Ha. induction elems as [| e rest IHl]; constructor; [apply IH | exact IHl].
  - apply Ho. induction props as [| kv rest IHl]; constructor; [apply IH | exact IHl].
Qed.

Module StripFacts.
Import Strip.

Lemma match_at_positive s : match_at s <> Some 0.
Proof.
  destruct s as [| c r]; simpl; [discriminate |].
  destruct (Ascii.eqb c LT).
  - destruct (until_gt r) as [[| n] |]; discriminate.
  - destruct (Ascii.eqb c CR).
    + destruct r as [| c' r']; [discriminate |].
      destruct (Ascii.eqb c' LF); discriminate.
    + destruct (Ascii.eqb c LF); discriminate.
Qed.

(** One step of the scan, as an equation. *)
Lemma replace_from_step c r :
  replace_from 0 (String c r) =
  match match_at (String c r) with
  | Some (S k) => replace_from k r
  | _ => String c (replace_from 0 r)
  end.
Proof. reflexivity. Qed.

(** The scan adds no [>]. *)
Lemma until_gt_replace_none r :
  until_gt r = None -> forall k, until_gt (replace_from k r) = None.
Proof.
  induction r as [| c r IH]; intros Hr k; [reflexivity |].
  simpl in Hr. destruct (Ascii.eqb c GT) eqn:Hc; [discriminate |].
  destruct (until_gt r) eqn:Hu; [discriminate |].
  destruct k as [| k]; [| simpl; auto].
  rewrite replace_from_step.
  destruct (match_at (String c r)) as [[| k] |]; auto;
    simpl; rewrite Hc, IH; auto.
Qed.

(** A [>] under the scan position is kept. *)
Lemma until_gt_replace_zero r :
  until_gt r = Some 0 -> until_gt (replace_from 0 r) = Some 0.
Proof.
  destruct r as [| c r]; [discriminate |]. simpl.
  destruct (Ascii.eqb c GT) eqn:Hc.
  - intros _. apply Ascii.eqb_eq in Hc. subst c. reflexivity.
  - destruct (until_gt r); discriminate.
Qed.

Lemma replace_from_match_free s : forall k, match_free (replace_from k s).
Proof.
  induction s as [| c r IH]; intros k.
  - repeat constructor.
  - destruct k as [| k]; [| apply IH].
    rewrite replace_from_step.
    destruct (match_at (String c r)) as [[| k] |] eqn:Hm; [| apply IH |].
    + exfalso. exact (match_at_positive _ Hm).
    + constructor; [| apply IH].
      simpl in Hm |- *.
      destruct (Ascii.eqb c LT).
      * destruct (until_gt r) as [[| n] |] eqn:Hu; [| discriminate |].
        -- fold (replace_from 0 r). now rewrite (until_gt_replace_zero _ Hu).
        -- fold (replace_from 0 r). now rewrite (until_gt_replace_none _ Hu).
      * destruct (Ascii.eqb c CR).
        -- destruct r as [| c' r']; [discriminate |].
           destruct (Ascii.eqb c' LF); discriminate.
        -- destruct (Ascii.eqb c LF); [discriminate | reflexivity].
Qed.

Lemma match_free_no_breaks s : match_free s -> no_breaks s.
Proof.
  induction s as [| c r IH]; intros H; [constructor |].
  inversion H as [| ? ? Hhd Htl]; subst.
  constructor; [| apply IH, Htl].
  simpl in Hhd. split; intros ->; simpl in Hhd.
  - destruct r as [| c' r']; [discriminate |].
    destruct (Ascii.eqb c' LF); discriminate.
  - discriminate.
Qed.

(** Text without matches is left as it is. *)
Lemma replace_match_free s : match_free s -> replace s = s.
Proof.
  unfold replace.
  induction s as [| c r IH]; intros H; [reflexivity |].
  inversion H as [| ? ? Hhd Htl]; subst.
  rewrite replace_from_step, Hhd. f_equal. apply IH, Htl.
Qed.

Lemma htmlStripper_leaves v : leaves_ok clean (htmlStripper v).
Proof.
  induction v as [| | b | n | s | elems IH | props IH] using Val_deep_ind;
    simpl; auto.
  - split; [apply replace_from_match_free |].
    apply match_free_no_breaks, replace_from_match_free.
  - induction IH; simpl; auto.
  - induction IH; simpl; auto.
Qed.

Lemma htmlStripper_idempotent v : htmlStripper (htmlStripper v) = htmlStripper v.
Proof.
  induction v as [| | b | n | s | elems IH | props IH] using Val_deep_ind;
    simpl; auto.
  - f_equal. apply replace_match_free, replace_from_match_free.
  - f_equal. induction IH as [| e rest He _ IHl]; simpl; [reflexivity |].
    now rewrite He, IHl.
  - f_equal. induction IH as [| kv rest Hkv _ IHl]; simpl; [reflexivity |].
    now rewrite Hkv, IHl.
Qed.

(** C8 -- Markup Stripper correctness.  For every JSON value [v]:
    every string leaf of [htmlStripper v] is free of matches of the
    expression (no tag sequence [<...>] starts anywhere in it) and holds no
    carriage return or line feed; stripping again changes nothing; a string
    leaf is replaced by its stripped text, a number, a boolean, [null] (and
    [undefined]) come back unchanged, an array is stripped element by element
    and an object value by value under the same keys.  On the two samples:
    ["<b>Recall</b> notice\n"] gives ["Recall notice"], and
    [{a: "<i>x</i>", b: [1, "<p>y</p>"]}] gives [{a: "x", b: [1, "y"]}]. *)
Theorem htmlStripper_correct (v : Val) :
  leaves_ok clean (htmlStripper v) /\
  htmlStripper (htmlStripper v) = htmlStripper v /\
  match v with
  | VStr s => htmlStripper v = VStr (replace s)
  | VArr elems => htmlStripper v = VArr (map htmlStripper elems)
  | VObj props =>
      htmlStripper v = VObj (map (fun kv => (fst kv, htmlStripper (snd kv))) props)
  | VUndef | VNull | VBool _ | VNum _ => htmlStripper v = v
  end /\
  htmlStripper (VStr sample_notice) = VStr "Recall notice" /\
  htmlStripper sample_nested =
    VObj [("a", VStr "x"); ("b", VArr [VNum 1; VStr "y"])].
Proof.
  split; [apply htmlStripper_leaves |].
  split; [apply htmlStripper_idempotent |].
  split; [destruct v; reflexivity |].
  split; reflexivity.
Qed.

End StripFacts.

Module StagesFacts.
Import Stages.

Lemma for_each_app {S : Type} (body : nat -> S -> S * Completion unit) pre post st :
  for_each body (pre ++ post) st =
  match for_each body pre st with
  | (st', Returned _) => for_each body post st'
  | (st', Thrown e) => (st', Thrown e)
  end.
Proof.
  revert st. induction pre as [| i pre IH]; intros st; simpl; [reflexivity |].
  destruct (body i st) as [st' [[] | e]]; [apply IH | reflexivity].
Qed.

(** A loop that fails at [i] ends there, whatever comes after [i]. *)
Lemma for_each_stops {S : Type} (body : nat -> S -> S * Completion unit)
    pre i post st0 st st' e :
  for_each body pre st0 = (st, Returned tt) ->
  body i st = (st', Thrown e) ->
  for_each body (pre ++ i :: post) st0 = (st', Thrown e).
Proof.
  intros Hpre Hi. rewrite for_each_app, Hpre. simpl. now rewrite Hi.
Qed.

(** A failing iteration leaves the files and the console as they were. *)
Lemma getRecentData_body_failure fetch i st st' e :
  getRecentData_body fetch i st = (st', Thrown e) -> st' = st.
Proof.
  unfold getRecentData_body. destruct st as [fs out].
  destruct (fetch i) as [body |]; [| congruence].
  destruct (results_of body) as [recent |]; [| congruence].
  destruct (writeFileSync _ _ _); congruence.
Qed.

Lemma cleanData_body_failure i st st' e :
  cleanData_body i st = (st', Thrown e) -> st' = st.
Proof.
  unfold cleanData_body. destruct st as [fs out].
  destruct (readFileSync _ _) as [text |]; [| congruence].
  destruct (JSON_parse text) as [data |]; [| congruence].
  destruct (R_map _ data) as [data' |]; [| congruence].
  destruct (writeFileSync _ _ _); congruence.
Qed.

(** C6, as the code has it -- the [try] encloses the whole [for] loop of a
    stage.  When fetching (or cleaning) fails at category [i] after the
    categories before it went through, the error is caught and logged and
    the stage returns with the files exactly as those earlier categories
    left them: category [i] and every later category of the stage write
    nothing. *)
Theorem stage_abandoned_from_first_failure
    (fetch : nat -> Completion Val) (fs : FS) (pre post : list nat) (i : nat) :
  categories = (pre ++ i :: post)%list ->
  (forall st e,
     fails_at (getRecentData_body fetch) (ensure_raw_dir fs) pre i st e ->
     getRecentData fetch fs = (fst st, (snd st ++ [LogFetchError e])%list)) /\
  (forall st e,
     fails_at cleanData_body (fs, []) pre i st e ->
     cleanData fs = (fst st, (snd st ++ [LogMapError e])%list)).
Proof.
  intros Hcats. split; intros [fs1 out1] e [Hpre [st' Hi]].
  - pose proof (getRecentData_body_failure _ _ _ _ _ Hi) as ->.
    unfold getRecentData. rewrite Hcats.
    now rewrite (for_each_stops _ _ _ post _ _ _ _ Hpre Hi).
  - pose proof (cleanData_body_failure _ _ _ _ Hi) as ->.
    unfold cleanData. rewrite Hcats.
    now rewrite (for_each_stops _ _ _ post _ _ _ _ Hpre Hi).
Qed.

Lemma stage_abandoned_from_first_failure_witness :
  categories = ([1] ++ 2 :: [3; 4])%list /\
  files (fst (cleanData (Stub.raw_files [1; 3; 4]))) !! stripped_path 3 = None /\
  files (fst (getRecentData (Stub.fetch_failing 2) (Stub.raw_files []))) !! raw_path 3
    = None.
Proof.
  split; [reflexivity |].
  destruct (stage_abandoned_from_first_failure
              (Stub.fetch_failing 2) (Stub.raw_files [1; 3; 4]) [1] [3; 4] 2 eq_refl)
    as [_ Hclean].
  destruct (stage_abandoned_from_first_failure
              (Stub.fetch_failing 2) (Stub.raw_files []) [1] [3; 4] 2 eq_refl)
    as [Hfetch _].
  split.
  - rewrite (Hclean _ _ (conj eq_refl (ex_intro _ _ eq_refl))).
    vm_compute. reflexivity.
  - rewrite (Hfetch _ _ (conj eq_refl (ex_intro _ _ eq_refl))).
    vm_compute. reflexivity.
Defined.

(** C6 as stated fails: with the raw file of category 1 missing, cleaning
    category 2 on its own succeeds, yet [cleanData] writes no stripped file
    for it (nor for 3 and 4); with the fetch of category 1 failing, the
    categories 2 to 4 are not fetched although the API answers for them. *)
Lemma later_categories_do_not_proceed :
  (let fs := Stub.raw_files [2; 3; 4] in
   snd (cleanData_body 2 (fs, [])) = Returned tt /\
   Forall (fun j => files (fst (cleanData fs)) !! stripped_path j = None) [2; 3; 4]) /\
  (let fs := Stub.raw_files [] in
   snd (getRecentData_body (Stub.fetch_failing 1) 2 (fs, [])) = Returned tt /\
   Forall (fun j => files (fst (getRecentData (Stub.fetch_failing 1) fs)) !! raw_path j
                    = None) [2; 3; 4]).
Proof.
  split; (split; [vm_compute; reflexivity |]);
    repeat constructor; vm_compute; reflexivity.
Qed.

End StagesFacts.

Module MapperFacts.
Import Mapper.

Section WithConverter.
Variable Converter_input : Val -> Val.

Lemma mapRequest_eq (st : Store) (Item : Ref) props :
  st !! Item = Some props ->
  mapRequest Converter_input st Item
  = (<[Item := map_props Converter_input props]> st, Item).
Proof. intros H. unfold mapRequest. now rewrite H. Qed.

(** The value-level mapper used by the engine returns what the caller
    reads through the reference after the store-level call. *)
Lemma mapRequest_value_deref (st : Store) (Item : Ref) props :
  st !! Item = Some props ->
  mapRequest_value Converter_input (deref st Item)
  = Returned (deref (fst (mapRequest Converter_input st Item)) Item).
Proof.
  intros H. rewrite (mapRequest_eq _ _ _ H). unfold deref. rewrite H. simpl.
  rewrite list_lookup_insert_eq; [reflexivity |].
  eapply lookup_lt_Some, H.
Qed.
End WithConverter.

(** C4, as the code has it -- [mapRequest] works in place.  For every record
    held at [Item]: the call returns the reference it was given; after it
    the caller's object (the element of the engine's data array) holds, under
    the same keys and in the same order, the wire-format value of each
    property; every other record is untouched. *)
Theorem mapRequest_in_place (Converter_input : Val -> Val)
    (st : Store) (Item : Ref) (props : list (string * Val)) :
  st !! Item = Some props ->
  let st' := fst (mapRequest Converter_input st Item) in
  snd (mapRequest Converter_input st Item) = Item /\
  deref st' Item
    = VObj (map (fun kv => (fst kv, Converter_input (snd kv))) props) /\
  length st' = length st /\
  forall other : Ref, other <> Item -> st' !! other = st !! other.
Proof.
  intros H. rewrite (mapRequest_eq _ _ _ _ H). simpl.
  split; [reflexivity |]. split; [| split].
  - unfold deref. rewrite list_lookup_insert_eq; [reflexivity |].
    eapply lookup_lt_Some, H.
  - apply length_insert.
  - intros other Hne. apply list_lookup_insert_ne. congruence.
Qed.

Lemma mapRequest_in_place_witness :
  let st : Store := [[("recallId", VStr "64712"); ("category", VNum 3)];
                     [("recallId", VStr "64713")]] in
  deref (fst (mapRequest Converter.input st 0)) 0
  = VObj [("recallId", VObj [("S", VStr "64712")]);
          ("category", VObj [("N", VStr "3")])].
Proof.
  intros st.
  exact (proj1 (proj2 (mapRequest_in_place Converter.input st 0 _ eq_refl))).
Defined.

(** C4 as stated fails: after mapping the record [{recallId: "64712"}], the
    object the caller still holds -- and the element of the data array the
    engine mapped over -- is no longer the record that was passed in. *)
Lemma mapRequest_mutates_record :
  let st : Store := [[("recallId", VStr "64712")]] in
  let data : list Ref := [0] in
  deref st 0 = VObj [("recallId", VStr "64712")] /\
  deref (fst (mapRequest Converter.input st 0)) 0
    = VObj [("recallId", VObj [("S", VStr "64712")])] /\
  deref (fst (mapRequest Converter.input st 0)) 0 <> deref st 0 /\
  map (deref (fst (mapRequest_all Converter.input st data))) data
    <> map (deref st) data.
Proof.
  cbn. repeat split; discriminate.
Qed.

End MapperFacts.

Module PartitionFacts.
Import Loader.

(** What the chunking loop appends: the chunks of [items], in order, each
    with 1 to 25 items, the first being the first 25 items. *)
Lemma splice_loop_chunks (table : string) (items multiRequest : list Val) :
  exists chunks : list (list Val),
    splice_loop table items multiRequest
      = (multiRequest ++ map (chunk_request table) chunks)%list /\
    concat chunks = items /\
    Forall (fun c => 0 < length c <= 25) chunks /\
    length chunks = (length items + 24) / 25 /\
    head chunks = match items with [] => None | _ => Some (take 25 items) end.
Proof.
  funelim (splice_loop table items multiRequest).
  - exists []. simp splice_loop. rewrite app_nil_r. repeat split; constructor.
  - destruct H as (chunks & Heq & Hcat & Hlen & Hcount & _).
    exists (take 25 (x :: rest) :: chunks).
    simp splice_loop. rewrite Heq, <- app_assoc. simpl app.
    split; [reflexivity |]. split; [| split; [| split]].
    + change (concat (take 25 (x :: rest) :: chunks))
        with (take 25 (x :: rest) ++ concat chunks)%list.
      rewrite Hcat. apply take_drop.
    + constructor; [| exact Hlen]. rewrite length_take. simpl length. lia.
    + change (length (take 25 (x :: rest) :: chunks)) with (S (length chunks)).
      rewrite Hcount, length_drop. simpl length.
      destruct (le_lt_dec (S (length rest)) 25) as [Hle | Hgt].
      * replace (S (length rest) - 25) with 0 by lia.
        change ((0 + 24) / 25) with 0.
        apply Nat.div_unique with (r := length rest); lia.
      * replace (S (length rest) + 24) with ((S (length rest) - 25 + 24) + 1 * 25) by lia.
        rewrite Nat.div_add by lia. lia.
    + reflexivity.
Qed.

(** With at least one item, the first chunk is the first 25 items. *)
Lemma splice_loop_first (table : string) (items : list Val) :
  0 < length items ->
  exists chunks : list (list Val),
    splice_loop table items [] = map (chunk_request table) (take 25 items :: chunks) /\
    concat (take 25 items :: chunks) = items /\
    S (length chunks) = (length items + 24) / 25 /\
    Forall (fun c => length c <= 25) (take 25 items :: chunks).
Proof.
  intros Hpos.
  destruct (splice_loop_chunks table items [])
    as (chunks & Heq & Hcat & Hlen & Hcount & Hhead).
  destruct items as [| x rest]; [simpl in Hpos; lia |].
  destruct chunks as [| c1 chunks]; [discriminate |].
  injection Hhead as ->. exists chunks.
  split; [exact Heq |]. split; [exact Hcat |]. split; [exact Hcount |].
  eapply Forall_impl; [exact Hlen |]. simpl. intros c Hc. lia.
Qed.

(** At most 25 items: nothing is chunked. *)
Lemma partition_small (table : string) (l : list Val) :
  length l <= 25 ->
  partition table (VArr l) = (VBool false, mk_request table (VArr l)).
Proof.
  intros Hn. unfold partition. simpl length_of. unfold gt_num.
  destruct (Z.ltb_spec 25 (Z.of_nat (length l))); [lia | reflexivity].
Qed.

(** More than 25 items: the chunk requests, and [request] left empty. *)
Lemma partition_large (table : string) (l : list Val) :
  25 < length l ->
  exists chunks : list (list Val),
    partition table (VArr l)
      = (VArr (map (chunk_request table) chunks), mk_request table (VArr [])) /\
    length chunks = (length l + 24) / 25 /\
    Forall (fun c => length c <= 25) chunks /\
    concat chunks = l.
Proof.
  intros Hn. unfold partition. simpl length_of. unfold gt_num.
  destruct (Z.ltb_spec 25 (Z.of_nat (length l))); [| lia].
  destruct (splice_loop_chunks table l []) as (chunks & Heq & Hcat & Hlen & Hcount & _).
  exists chunks. simpl elems_of. rewrite Heq. simpl app.
  split; [reflexivity |]. split; [exact Hcount |]. split; [| exact Hcat].
  eapply Forall_impl; [exact Hlen |]. simpl. intros c Hc. lia.
Qed.

(** C3 -- Partition correctness.  For every sequence [l] of mapped records:
    with at most 25 of them, [multiRequest] stays [false] and the single
    [request] carries the whole sequence, as it is; with more than 25,
    [multiRequest] is the array of the chunk requests, there are
    [ceil(N / 25)] of them (the least [k] with [N <= 25 * k]), each chunk has at
    most 25 items, and the chunks put end to end are the sequence again. *)
Theorem partition_correct (table : string) (l : list Val) :
  (length l <= 25 ->
     partition table (VArr l) = (VBool false, mk_request table (VArr l))) /\
  (25 < length l ->
     exists chunks : list (list Val),
       partition table (VArr l)
         = (VArr (map (chunk_request table) chunks), mk_request table (VArr [])) /\
       length chunks = (length l + 24) / 25 /\
       25 * (length chunks - 1) < length l <= 25 * length chunks /\
       Forall (fun c => length c <= 25) chunks /\
       concat chunks = l).
Proof.
  split; [apply partition_small |]. intros Hn.
  destruct (partition_large table l Hn) as (chunks & Heq & Hcount & Hlen & Hcat).
  exists chunks. split; [exact Heq |]. split; [exact Hcount |].
  split; [| split; assumption].
  rewrite Hcount.
  pose proof (Nat.div_mod_eq (length l + 24) 25).
  pose proof (Nat.mod_upper_bound (length l + 24) 25). lia.
Qed.

Lemma partition_correct_witness :
  partition TABLE_NAME (VArr (Stub.recalls 3))
    = (VBool false, mk_request TABLE_NAME (VArr (Stub.recalls 3))) /\
  exists chunks : list (list Val),
    partition TABLE_NAME (VArr (Stub.recalls 26))
      = (VArr (map (chunk_request TABLE_NAME) chunks), mk_request TABLE_NAME (VArr [])) /\
    length chunks = (length (Stub.recalls 26) + 24) / 25 /\
    25 * (length chunks - 1) < length (Stub.recalls 26) <= 25 * length chunks /\
    Forall (fun c => length c <= 25) chunks /\
    concat chunks = Stub.recalls 26.
Proof.
  split.
  - apply (proj1 (partition_correct TABLE_NAME (Stub.recalls 3))). vm_compute. lia.
  - apply (proj2 (partition_correct TABLE_NAME (Stub.recalls 26))). vm_compute. lia.
Defined.

End PartitionFacts.

Module EngineFacts.
Import Loader.

Section Traces.
Context {W : Type}.
Variable P : Event -> Prop.

Lemma traces_ret {A} (a : A) : traces (W:=W) P (ret a).
Proof. intros w w' t c [= <- <- <-]. constructor. Qed.

Lemma traces_throw {A} e : traces (W:=W) P (throw (A:=A) e).
Proof. intros w w' t c [= <- <- <-]. constructor. Qed.

Lemma traces_lift {A} (x : Completion A) : traces (W:=W) P (lift x).
Proof. intros w w' t c [= <- <- <-]. constructor. Qed.

Lemma traces_emit wave a : P (wave, a) -> traces (W:=W) P (emit wave a).
Proof. intros H w w' t c [= <- <- <-]. repeat constructor. exact H. Qed.

Lemma traces_call {A} wave a (f : W -> W * Completion A) :
  P (wave, a) -> traces P (call wave a f).
Proof.
  intros H w w' t c. unfold call. destruct (f w) as [w1 r].
  intros [= <- <- <-]. repeat constructor. exact H.
Qed.

Lemma traces_bind {A B} (m : M (W:=W) A) (k : A -> M B) :
  traces P m -> (forall a, traces P (k a)) -> traces P (bind m k).
Proof.
  intros Hm Hk w w' t c. unfold bind.
  destruct (m w) as [[[w1 t1] [a | e]] |] eqn:Em; [| | discriminate].
  - destruct (k a w1) as [[[w2 t2] c2] |] eqn:Ek; [| discriminate].
    intros [= <- <- <-]. apply Forall_app.
    split; [eapply Hm, Em | eapply Hk, Ek].
  - intros [= <- <- <-]. eapply Hm, Em.
Qed.

Lemma traces_try_catch {A} (m : M (W:=W) A) (h : Exn -> M A) :
  traces P m -> (forall e, traces P (h e)) -> traces P (try_catch m h).
Proof.
  intros Hm Hh w w' t c. unfold try_catch.
  destruct (m w) as [[[w1 t1] [a | e]] |] eqn:Em; [| | discriminate].
  - intros [= <- <- <-]. eapply Hm, Em.
  - destruct (h e w1) as [[[w2 t2] c2] |] eqn:Eh; [| discriminate].
    intros [= <- <- <-]. apply Forall_app.
    split; [eapply Hm, Em | eapply Hh, Eh].
Qed.

Lemma traces_settle {A} (m : M (W:=W) A) : traces P m -> traces P (settle m).
Proof.
  intros Hm w w' t c. unfold settle.
  destruct (m w) as [[[w1 t1] r] |] eqn:Em; [| discriminate].
  intros [= <- <- <-]. eapply Hm, Em.
Qed.

Lemma Promise_all_traces ps : traces (W:=W) P (Promise_all ps).
Proof.
  induction ps as [| [[] | e] rest IH]; cbn [Promise_all];
    [apply traces_ret | exact IH | apply traces_throw].
Qed.
End Traces.

Lemma traces_impl {W A} (P Q : Event -> Prop) (m : M (W:=W) A) :
  (forall ev, P ev -> Q ev) -> traces P m -> traces Q m.
Proof.
  intros HPQ Hm w w' t c E. eapply Forall_impl; [eapply Hm, E | exact HPQ].
Qed.

(** One structural step through a computation. *)
Ltac traces_step :=
  first
    [ apply traces_ret | apply traces_throw | apply traces_lift
    | apply traces_settle
    | apply Promise_all_traces
    | apply traces_bind; [| intros ?]
    | apply traces_try_catch; [| intros ?]
    | match goal with
      | |- traces _ (if ?b then _ else _) => destruct b
      | |- traces _ (match ?x with _ => _ end) => destruct x
      end ].

Lemma client_textInterval (this : gmap string Slot) s :
  client (<["textInterval" := s]> this) = client this.
Proof. unfold client. now rewrite lookup_insert_ne. Qed.

Lemma read_textInterval (this : gmap string Slot) s k :
  k <> "textInterval" -> read (<["textInterval" := s]> this) k = read this k.
Proof. intros H. unfold read. now rewrite lookup_insert_ne. Qed.

(** The constructor assigns nine properties; [dynamoConfig] is not one of
    them. *)
Lemma constructor_dynamoConfig data table config category :
  constructor data table config category !! "dynamoConfig" = None.
Proof. reflexivity. Qed.

Lemma constructor_client data table config category :
  client (constructor data table config category) = config.
Proof. reflexivity. Qed.

Section Config.
Context {W : Type}.
Variable sdk : Sdk W.

Lemma config_ok_own wave cfg a :
  match a with
  | NewDataLoader _ _ c => c = VUndef
  | ListTables c | CreateTable c _ | BatchWriteItem c _ => c = cfg
  | _ => True
  end -> config_ok wave cfg (wave, a).
Proof. intros H. split; [simpl; lia |]. destruct a; simpl in *; auto. Qed.

Lemma config_ok_child wave cfg ev :
  config_ok (S wave) VUndef ev -> config_ok wave cfg ev.
Proof.
  intros [Hle H]. split; [lia |].
  destruct (snd ev); auto; right; destruct H as [[? ?] | [? ?]]; split; auto; lia.
Qed.

Ltac config_step :=
  first [ apply traces_call, config_ok_own; reflexivity
        | apply traces_emit, config_ok_own; exact I
        | traces_step ].

Lemma submit_each_config_ok wave cfg reqs :
  traces (config_ok wave cfg) (submit_each sdk wave cfg reqs).
Proof.
  induction reqs as [| r rest IH]; cbn [submit_each]; [apply traces_ret |].
  apply traces_bind; [config_step | intros res].
  apply traces_bind; [config_step | intros _].
  apply traces_bind; [exact IH | intros more]. apply traces_ret.
Qed.

Lemma inspect_each_config_ok wave cfg results :
  traces (W:=W) (config_ok wave cfg) (inspect_each wave results).
Proof.
  induction results as [| r rest IH]; cbn [inspect_each]; [apply traces_ret |].
  apply traces_bind;
    [| intros p; apply traces_bind; [exact IH | intros; apply traces_ret]].
  unfold inspect_result, log. repeat config_step.
Qed.

Lemma stop_loading_text_config_ok wave cfg :
  traces (W:=W) (config_ok wave cfg) (stop_loading_text wave).
Proof. unfold stop_loading_text. repeat config_step. Qed.

(** A loader without a [dynamoConfig] property passes [undefined] on. *)
Lemma start_config_ok fuel : forall wave this dry,
  this !! "dynamoConfig" = None ->
  traces (config_ok wave (client this)) (start sdk fuel wave this dry).
Proof.
  induction fuel as [| fuel IH]; intros wave this dry Hcfg.
  - intros w w' t c. discriminate.
  - assert (Hread : read (<["textInterval" := STimer]> this) "dynamoConfig" = VUndef).
    { rewrite read_textInterval by discriminate. unfold read. now rewrite Hcfg. }
    cbn [start]. unfold log. rewrite Hread.
    repeat first
      [ apply stop_loading_text_config_ok
      | apply inspect_each_config_ok
      | rewrite client_textInterval
      | apply submit_each_config_ok
      | config_step ].
    + now apply traces_emit, config_ok_own.
    + eapply traces_impl; [apply config_ok_child |].
      apply (IH (S wave) (constructor _ _ VUndef VUndef)).
      apply constructor_dynamoConfig.
Qed.
End Config.

(** C9 -- Retry-wave client configuration.  Take any loader built by the
    constructor and any run of [start] on it.  The instance has no
    [dynamoConfig] property, neither as constructed, nor after [start] has
    assigned [textInterval], nor after [loadingText] has assigned [dots]
    (the only assignments outside the constructor), so [this.dynamoConfig]
    reads [undefined]; every [new DataLoader] of the run receives
    [undefined] as its configuration, and every datastore call issued by a
    deeper loader comes from a client configured with [undefined].  The
    loader's own calls carry the configuration it was built with. *)
Theorem retry_client_config_undefined {W : Type} (sdk : Sdk W)
    (data table config category : Val) (fuel wave : nat) (dry : Val)
    (w w' : W) (trace : list Event) (c : Completion unit) :
  start sdk fuel wave (constructor data table config category) dry w
    = Some (w', trace, c) ->
  read (constructor data table config category) "dynamoConfig" = VUndef /\
  read (<["textInterval" := STimer]> (constructor data table config category))
    "dynamoConfig" = VUndef /\
  read (fst (loadingText (constructor data table config category)))
    "dynamoConfig" = VUndef /\
  Forall (config_ok wave config) trace.
Proof.
  intros Hrun. split; [reflexivity |]. split; [reflexivity |].
  split; [unfold loadingText, read; cbn [fst]; now rewrite lookup_insert_ne |].
  eapply (start_config_ok sdk fuel wave (constructor data table config category));
    [apply constructor_dynamoConfig | exact Hrun].
Qed.

Lemma retry_client_config_undefined_witness :
  exists w' trace c,
    start (Stub.scripted [TABLE_NAME] "n") 2 0 (Stub.loader (Stub.recalls 1) 1)
      (VBool false) [Returned (mkOutput (VArr [Stub.wire 0]))]
      = Some (w', trace, c) /\
    In (0, NewDataLoader (VArr [Stub.wire 0]) (VStr TABLE_NAME) VUndef) trace /\
    In (1, ListTables VUndef) trace /\
    Forall (config_ok 0 Stub.dynamoConfig) trace.
Proof.
  pose proof (retry_client_config_undefined
                (Stub.scripted [TABLE_NAME] "n") (VArr (Stub.recalls 1)) (VStr TABLE_NAME)
                Stub.dynamoConfig (VNum 1) 2 0 (VBool false)
                [Returned (mkOutput (VArr [Stub.wire 0]))] _ _ _ eq_refl)
    as (_ & _ & _ & Hcfg).
  eexists _, _, _. split; [reflexivity |].
  split; [do 8 right; left; reflexivity |].
  split; [do 9 right; left; reflexivity |].
  exact Hcfg.
Defined.

Lemma includes_false (tableList : list string) (name : string) :
  includes tableList name = false <-> ~ In name tableList.
Proof.
  unfold includes. split.
  - intros H Hin. apply not_true_iff_false in H. apply H.
    apply existsb_exists. exists name. split; [exact Hin | apply String.eqb_refl].
  - intros H. apply not_true_iff_false. intros Hex.
    apply existsb_exists in Hex as (x & Hin & Heq).
    apply String.eqb_eq in Heq. subst x. auto.
Qed.

Section Runs.
Context {W : Type}.
Variable sdk : Sdk W.

(** The run when the table is not listed, event by event. *)
Lemma start_table_missing fuel wave this dry w w1 tableList :
  listTables sdk (client this) w = (w1, Returned tableList) ->
  includes tableList TABLE_NAME = false ->
  start sdk (S fuel) wave this dry w =
  let '(w2, answer) := prompt sdk create_question w1 in
  if is_yes answer then
    match createTable sdk (client this) createTable_params w2 with
    | (w3, Returned _) =>
        Some (w3, [(wave, ListTables (client this)); (wave, Prompt create_question);
                   (wave, CreateTable (client this) createTable_params);
                   (wave, ConsoleLog MsgCheckTableManually)], Returned tt)
    | (w3, Thrown e) =>
        Some (w3, [(wave, ListTables (client this)); (wave, Prompt create_question);
                   (wave, CreateTable (client this) createTable_params)], Thrown e)
    end
  else
    Some (w2, [(wave, ListTables (client this)); (wave, Prompt create_question);
               (wave, ConsoleLog MsgAborting)], Returned tt).
Proof.
  intros Hl Hinc.
  cbn [start]. unfold bind at 1. unfold call at 1. rewrite Hl, Hinc. cbn [negb].
  unfold bind at 1. unfold call at 1.
  destruct (prompt sdk create_question w1) as [w2 answer].
  destruct (is_yes answer).
  - unfold bind, call, log, emit.
    destruct (createTable sdk (client this) createTable_params w2) as [w3 [r | e]];
      reflexivity.
  - reflexivity.
Qed.

Lemma R_map_records input records :
  R_map (fun Item =>
           match Mapper.mapRequest_value input Item with
           | Thrown e => Thrown e
           | Returned mapped => Returned (put_request mapped)
           end) (VArr (map VObj records))
  = Returned (VArr (mapped_items input records)).
Proof.
  unfold R_map, mapped_items.
  induction records as [| props rest IH]; [reflexivity |].
  cbn [map each Mapper.mapRequest_value].
  destruct (each _ (map VObj rest)) as [ys |]; [| discriminate].
  now injection IH as ->.
Qed.

(** The dry run when the table is listed, event by event. *)
Lemma start_dry_run fuel wave this dry w w1 tableList records :
  listTables sdk (client this) w = (w1, Returned tableList) ->
  includes tableList TABLE_NAME = true ->
  read this "data" = VArr (map VObj records) ->
  truthy dry = true ->
  let items := VArr (mapped_items (Converter_input sdk) records) in
  let parts := partition (ToString (read this "table")) items in
  let text := Stages.JSON_stringify (debug_payload (fst parts) (snd parts)) in
  start sdk (S fuel) wave this dry w =
  let '(w2, r) := writeFileSync sdk (debug_file this) text w1 in
  Some (w2,
        ((wave, ListTables (client this))
         :: (if gt_num (length_of items) 25
             then [(wave, ConsoleLog MsgLargeRequest)] else [])
         ++ [(wave, ConsoleLog (MsgDryRun (debug_file this)));
             (wave, WriteFile (debug_file this) text)])%list,
        r).
Proof.
  intros Hl Hinc Hdata Hdry items parts text.
  cbn [start]. unfold bind at 1. unfold call at 1. rewrite Hl, Hinc. cbn [negb].
  rewrite Hdata, R_map_records, Hdry.
  unfold bind, call, lift, log, emit, ret. fold items. fold parts. fold text.
  destruct (gt_num (length_of items) 25);
    destruct (writeFileSync sdk (debug_file this) text w1) as [w2 r]; reflexivity.
Qed.
End Runs.



(** What the dry run writes: the single request, or the list of chunk
    requests. *)
Lemma debug_payload_partition (table : string) (items : list Val) :
  let parts := partition table (VArr items) in
  (length items <= 25 ->
     debug_payload (fst parts) (snd parts) = mk_request table (VArr items)) /\
  (25 < length items ->
     exists chunks : list (list Val),
       debug_payload (fst parts) (snd parts)
         = VArr (map (chunk_request table) chunks) /\
       length chunks = (length items + 24) / 25 /\
       Forall (fun c => length c <= 25) chunks /\
       concat chunks = items).
Proof.
  intros parts. subst parts.
  split; intros Hn.
  - rewrite (PartitionFacts.partition_small table items Hn). reflexivity.
  - destruct (PartitionFacts.partition_large table items Hn)
      as (chunks & Heq & Hcount & Hlen & Hcat).
    exists chunks. rewrite Heq. unfold debug_payload. cbn [fst snd length_of truthy].
    rewrite length_map.
    pose proof (Nat.div_mod_eq (length items + 24) 25) as Hdiv.
    pose proof (Nat.mod_upper_bound (length items + 24) 25) as Hmod.
    destruct (Z.eqb_spec (Z.of_nat (length chunks)) 0) as [Hzero | _]; [lia |].
    repeat split; assumption.
Qed.

(** C5 -- Dry-run isolation.  For every record set, [start] with a truthy
    [dry] terminates without any batch-write call, whatever the datastore
    answers to the listing.  When the listing contains the table name -- the
    case in which the run gets past the table check -- it performs one file
    write, its last action, to [./_raw/{category}-DEBUG.json], of the
    serialised single request (up to 25 records) or of the serialised list
    of chunk requests (more than 25), and it returns as that write
    returns. *)
Theorem dry_run_isolation {W : Type} (sdk : Sdk W) (fuel wave : nat)
    (this : gmap string Slot) (dry : Val) (w : W)
    (records : list (list (string * Val))) :
  read this "data" = VArr (map VObj records) ->
  truthy dry = true ->
  let table := ToString (read this "table") in
  let items := mapped_items (Converter_input sdk) records in
  let path := ("./_raw/" ++ ToString (read this "category") ++ "-DEBUG.json")%string in
  exists w' trace c,
    start sdk (S fuel) wave this dry w = Some (w', trace, c) /\
    submissions trace = [] /\
    forall w1 tableList,
      listTables sdk (client this) w = (w1, Returned tableList) ->
      includes tableList TABLE_NAME = true ->
      exists payload,
        (length records <= 25 -> payload = mk_request table (VArr items)) /\
        (25 < length records ->
           exists chunks : list (list Val),
             payload = VArr (map (chunk_request table) chunks) /\
             length chunks = (length records + 24) / 25 /\
             Forall (fun c => length c <= 25) chunks /\
             concat chunks = items) /\
        writeFileSync sdk path (Stages.JSON_stringify payload) w1 = (w', c) /\
        List.filter is_write_file trace
          = [(wave, WriteFile path (Stages.JSON_stringify payload))] /\
        last trace = Some (wave, WriteFile path (Stages.JSON_stringify payload)).
Proof.
  intros Hdata Hdry table items path.
  destruct (listTables sdk (client this) w) as [w1 [tableList | e]] eqn:Hl.
  - destruct (includes tableList TABLE_NAME) eqn:Hinc.
    + rewrite (start_dry_run sdk _ _ _ _ _ _ _ _ Hl Hinc Hdata Hdry).
      fold items. fold table. change (debug_file this) with path.
      set (parts := partition table (VArr items)).
      destruct (writeFileSync sdk path _ w1) as [w2 r] eqn:Hw.
      eexists w2, _, r. split; [reflexivity |].
      split; [destruct (gt_num (length_of (VArr items)) 25); reflexivity |].
      intros w1' tableList' [= <- <-] _.
      exists (debug_payload (fst parts) (snd parts)).
      assert (Hlen : length items = length records) by apply length_map.
      destruct (debug_payload_partition table items) as [Hsmall Hlarge].
      rewrite Hlen in Hsmall, Hlarge.
      split; [exact Hsmall |]. split; [exact Hlarge |]. split; [exact Hw |].
      destruct (gt_num (length_of (VArr items)) 25); split; reflexivity.
    + rewrite (start_table_missing sdk _ _ _ _ _ _ _ Hl Hinc).
      destruct (prompt sdk create_question w1) as [w2 answer].
      destruct (is_yes answer);
        [destruct (createTable sdk (client this) createTable_params w2)
           as [w3 [r | e]] |];
        eexists _, _, _; (split; [reflexivity |]); (split; [reflexivity |]);
        intros w1' tableList' [= <- <-] Hinc'; congruence.
  - cbn [start]. unfold bind at 1. unfold call at 1. rewrite Hl.
    eexists _, _, _. split; [reflexivity |]. split; [reflexivity |].
    intros w1' tableList' [=].
Qed.

Lemma dry_run_isolation_witness :
  exists w' trace,
    start (Stub.scripted [TABLE_NAME] "n") 1 0 (Stub.loader (Stub.recalls 2) 3)
      (VBool true) [] = Some (w', trace, Returned tt) /\
    submissions trace = [] /\
    List.filter is_write_file trace
      = [(0, WriteFile "./_raw/3-DEBUG.json"
               (Stages.JSON_stringify
                  (mk_request TABLE_NAME (VArr [Stub.wire 0; Stub.wire 1]))))].
Proof.
  destruct (dry_run_isolation (Stub.scripted [TABLE_NAME] "n") 0 0
              (Stub.loader (Stub.recalls 2) 3) (VBool true) []
              [[("recallId", VStr "0")]; [("recallId", VStr "1")]]
              eq_refl eq_refl)
    as (w' & trace & c & Hrun & Hsub & Hlisted).
  destruct (Hlisted [] [TABLE_NAME] eq_refl eq_refl)
    as (payload & Hsmall & _ & Hw & Hfile & _).
  rewrite (Hsmall ltac:(simpl; lia)) in Hw, Hfile.
  injection Hw as <- <-.
  exists [], trace. split; [exact Hrun |]. split; [exact Hsub |]. exact Hfile.
Defined.

Section Paths.
Context {W : Type}.
Variable sdk : Sdk W.

Lemma bind_ret {A B} (x : A) (k : A -> M (W:=W) B) w : bind (ret x) k w = k x w.
Proof. unfold bind, ret. now destruct (k x w) as [[[? ?] ?] |]. Qed.

Lemma bind_lift {A B} (x : A) (k : A -> M (W:=W) B) w :
  bind (lift (Returned x)) k w = k x w.
Proof. unfold bind, lift. now destruct (k x w) as [[[? ?] ?] |]. Qed.

Lemma bind_bind {A B C} (m : M (W:=W) A) (k1 : A -> M B) (k2 : B -> M C) w :
  bind (bind m k1) k2 w = bind m (fun x => bind (k1 x) k2) w.
Proof.
  unfold bind. destruct (m w) as [[[w1 t1] [a | e]] |]; [| reflexivity ..].
  destruct (k1 a w1) as [[[w2 t2] [b | e]] |]; [| reflexivity ..].
  destruct (k2 b w2) as [[[w3 t3] c] |]; [| reflexivity].
  now rewrite app_assoc.
Qed.

Lemma bind_emit {B} wave a (k : unit -> M (W:=W) B) w :
  bind (emit wave a) k w = after [(wave, a)] (k tt w).
Proof. reflexivity. Qed.

Lemma bind_call {A B} wave a (f : W -> W * Completion A) (k : A -> M B) w :
  bind (call wave a f) k w =
  match f w with
  | (w1, Returned x) => after [(wave, a)] (k x w1)
  | (w1, Thrown e) => Some (w1, [(wave, a)], Thrown e)
  end.
Proof. unfold bind, call. now destruct (f w) as [w1 [x | e]]. Qed.

Lemma bind_stop_loading_text {B} wave (k : unit -> M (W:=W) B) w :
  bind (stop_loading_text wave) k w
  = after [(wave, ClearInterval); (wave, ClearLine); (wave, CursorTo 0)] (k tt w).
Proof.
  unfold stop_loading_text, bind, emit, after.
  now destruct (k tt w) as [[[? ?] ?] |].
Qed.

Lemma try_catch_caught wave (m : M (W:=W) unit) w :
  try_catch m (fun err => bind (stop_loading_text wave)
                            (fun _ => log wave (MsgErrorInserting err))) w
  = caught wave (m w).
Proof.
  unfold try_catch, caught. destruct (m w) as [[[w1 t1] [[] | e]] |]; reflexivity.
Qed.

Lemma after_after {A} t1 t2 (r : option (W * list Event * Completion A)) :
  after t1 (after t2 r) = after (t1 ++ t2) r.
Proof. destruct r as [[[? ?] ?] |]; simpl; [| reflexivity]. now rewrite app_assoc. Qed.

Lemma caught_after wave t (r : option (W * list Event * Completion unit)) :
  caught wave (after t r) = after t (caught wave r).
Proof.
  destruct r as [[[w1 t1] [[] | e]] |]; simpl; [reflexivity | | reflexivity].
  now rewrite app_assoc.
Qed.

Lemma length_access_keys U :
  (R_keys_length U =? 0)%nat = false -> length_access U = Returned (length_of U).
Proof. destruct U; simpl; intros H; try discriminate; reflexivity. Qed.

(** The run of a single request (at most 25 records, no dry run), event
    by event. *)
Lemma start_single_request fuel wave this dry w w1 tableList records :
  listTables sdk (client this) w = (w1, Returned tableList) ->
  includes tableList TABLE_NAME = true ->
  read this "data" = VArr (map VObj records) ->
  length records <= 25 ->
  truthy dry = false ->
  let request :=
    mk_request (ToString (read this "table"))
      (VArr (mapped_items (Converter_input sdk) records)) in
  start sdk (S fuel) wave this dry w =
  after [(wave, ListTables (client this)); (wave, SetInterval 250);
         (wave, BatchWriteItem (client this) request)]
    match batchWriteItem sdk (client this) request w1 with
    | (w2, Thrown e) =>
        Some (w2, [(wave, ClearInterval); (wave, ClearLine); (wave, CursorTo 0);
                   (wave, ConsoleLog (MsgErrorInserting e))], Returned tt)
    | (w2, Returned result) =>
        after [(wave, ClearInterval); (wave, ClearLine); (wave, CursorTo 0);
               (wave, ConsoleLog MsgInsertionComplete)]
          (if (R_keys_length (UnprocessedItems result) =? 0)%nat
           then Some (w2, [], Returned tt)
           else
             after [(wave, ConsoleLog (MsgUnprocessedTryingAgain result))]
               (if truthy (length_of (UnprocessedItems result))
                then
                  after [(wave, NewDataLoader (UnprocessedItems result)
                                  (read this "table") (read this "dynamoConfig"))]
                    (caught wave
                       (start sdk fuel (S wave)
                          (constructor (UnprocessedItems result)
                             (read this "table") (read this "dynamoConfig") VUndef)
                          VUndef w2))
                else Some (w2, [], Returned tt)))
    end.
Proof.
  intros Hl Hinc Hdata Hn Hdry request.
  cbn [start]. rewrite bind_call, Hl, Hinc. cbn [negb].
  rewrite Hdata, R_map_records, bind_lift, Hdry.
  rewrite (PartitionFacts.partition_small _
             (mapped_items (Converter_input sdk) records))
    by (unfold mapped_items; rewrite length_map; exact Hn).
  cbn [fst snd length_of truthy gt_num].
  replace (Z.ltb 25 _) with false
    by (unfold mapped_items; rewrite length_map; symmetry; apply Z.ltb_ge; lia).
  rewrite client_textInterval, !read_textInterval by discriminate.
  rewrite bind_ret, bind_emit, try_catch_caught, bind_call. fold request.
  destruct (batchWriteItem sdk (client this) request w1) as [w2 [result | e]];
    [| reflexivity].
  rewrite bind_stop_loading_text. unfold log. rewrite bind_emit.
  destruct (R_keys_length (UnprocessedItems result) =? 0)%nat eqn:Hk; cbn [negb];
    [reflexivity |].
  rewrite bind_emit, (length_access_keys _ Hk), bind_lift.
  destruct (truthy (length_of (UnprocessedItems result))); [| reflexivity].
  rewrite bind_emit, !caught_after, !after_after. reflexivity.
Qed.

(** The run of a chunked request (more than 25 records, no dry run): the
    events up to the submission loop, and what is run inside the [try]. *)
Lemma start_multi_request fuel wave this dry w w1 tableList records :
  listTables sdk (client this) w = (w1, Returned tableList) ->
  includes tableList TABLE_NAME = true ->
  read this "data" = VArr (map VObj records) ->
  25 < length records ->
  truthy dry = false ->
  let table := ToString (read this "table") in
  let items := mapped_items (Converter_input sdk) records in
  exists chunks : list (list Val),
    concat (take 25 items :: chunks) = items /\
    S (length chunks) = (length records + 24) / 25 /\
    start sdk (S fuel) wave this dry w =
    after [(wave, ListTables (client this)); (wave, ConsoleLog MsgLargeRequest);
           (wave, SetInterval 250)]
      (caught wave
         (bind (submit_each sdk wave (client this)
                  (map (chunk_request table) (take 25 items :: chunks)))
               (fun results =>
                  bind (stop_loading_text wave) (fun _ =>
                  bind (log wave (MsgInsertionCompleteResults results)) (fun _ =>
                  bind (inspect_each wave results) Promise_all))) w1)).
Proof.
  intros Hl Hinc Hdata Hn Hdry table items.
  assert (Hlen : length items = length records) by apply length_map.
  destruct (PartitionFacts.splice_loop_first table items ltac:(lia))
    as (chunks & Heq & Hcat & Hcount & _).
  exists chunks. split; [exact Hcat |]. split; [rewrite <- Hlen; exact Hcount |].
  cbn [start]. rewrite bind_call, Hl, Hinc. cbn [negb].
  rewrite Hdata, R_map_records, bind_lift, Hdry.
  fold table. unfold partition. cbn [length_of gt_num elems_of].
  replace (Z.ltb 25 _) with true
    by (unfold mapped_items; rewrite length_map; symmetry; apply Z.ltb_lt; lia).
  cbn [fst snd]. fold items. rewrite Heq. cbn [length_of map truthy length].
  rewrite client_textInterval.
  unfold log at 1. rewrite !bind_emit, try_catch_caught.
  rewrite !after_after. reflexivity.
Qed.
End Paths.

Lemma own_same wave a t : own wave ((wave, a) :: t) = (wave, a) :: own wave t.
Proof. unfold own. simpl. now rewrite Nat.eqb_refl. Qed.

Lemma own_app wave t1 t2 : own wave (t1 ++ t2) = (own wave t1 ++ own wave t2)%list.
Proof. apply List.filter_app. Qed.

Lemma own_deeper wave t : Forall (fun ev => wave < fst ev) t -> own wave t = [].
Proof.
  induction 1 as [| ev t Hev _ IH]; [reflexivity |].
  unfold own in *. simpl. rewrite IH.
  destruct (Nat.eqb_spec (fst ev) wave); [lia | reflexivity].
Qed.

Lemma child_events_deeper {W} (sdk : Sdk W) fuel wave data table config w w' t c :
  start sdk fuel (S wave) (constructor data table config VUndef) VUndef w = Some (w', t, c) ->
  Forall (fun ev => wave < fst ev) t.
Proof.
  intros H.
  eapply Forall_impl;
    [eapply (start_config_ok sdk fuel (S wave)), H; apply constructor_dynamoConfig |].
  intros ev [Hle _]. simpl in Hle. lia.
Qed.

(** C10 -- Empty-input edge case.  With the table listed and [dry] falsy,
    [start] on an empty record array takes the single-request path: its
    first three actions are the listing, the start of the loading text and a
    [batchWriteItem] whose request holds the empty list under the table name,
    and in every run this loader submits exactly that one request -- nothing
    short-circuits the submission.  When the write fails, or answers without
    unprocessed items, the run returns after this single submission. *)
Theorem empty_input_one_batch_write {W : Type} (sdk : Sdk W) (fuel wave : nat)
    (this : gmap string Slot) (dry : Val) (w w1 : W) (tableList : list string) :
  listTables sdk (client this) w = (w1, Returned tableList) ->
  includes tableList TABLE_NAME = true ->
  read this "data" = VArr [] ->
  truthy dry = false ->
  let request := mk_request (ToString (read this "table")) (VArr []) in
  (forall w' trace c,
     start sdk (S fuel) wave this dry w = Some (w', trace, c) ->
     submissions (own wave trace) = [(wave, request)] /\
     exists rest,
       trace = ((wave, ListTables (client this)) :: (wave, SetInterval 250)
                :: (wave, BatchWriteItem (client this) request) :: rest)) /\
  (forall w2 r,
     batchWriteItem sdk (client this) request w1 = (w2, r) ->
     match r with
     | Thrown _ => True
     | Returned result => R_keys_length (UnprocessedItems result) = 0
     end ->
     exists trace,
       start sdk (S fuel) wave this dry w = Some (w2, trace, Returned tt) /\
       submissions trace = [(wave, request)]).
Proof.
  intros Hl Hinc Hdata Hdry request.
  pose proof (start_single_request sdk fuel wave this dry w w1 tableList []
                Hl Hinc Hdata ltac:(simpl; lia) Hdry) as Hrun.
  cbn [mapped_items map] in Hrun. fold request in Hrun. rewrite Hrun. clear Hrun.
  split.
  - intros w' trace c.
    destruct (batchWriteItem sdk (client this) request w1) as [w2 [result | e]].
    + destruct (R_keys_length (UnprocessedItems result) =? 0)%nat.
      { intros [= <- <- <-]. rewrite !own_same. split; [reflexivity | eauto]. }
      destruct (truthy (length_of (UnprocessedItems result))).
      2:{ intros [= <- <- <-]. rewrite !own_same. split; [reflexivity | eauto]. }
      destruct (start sdk fuel (S wave) _ VUndef w2) as [[[w3 t3] c3] |] eqn:Hchild;
        [| discriminate].
      pose proof (child_events_deeper _ _ _ _ _ _ _ _ _ _ Hchild) as Hdeep.
      destruct c3 as [[] | e3]; intros [= <- <- <-].
      * rewrite !own_same, (own_deeper _ _ Hdeep). split; [reflexivity | eauto].
      * rewrite !own_same, own_app, (own_deeper _ _ Hdeep). rewrite !own_same.
        split; [reflexivity | eauto].
    + intros [= <- <- <-]. rewrite !own_same. split; [reflexivity | eauto].
  - intros w2 r Hw Hr. rewrite Hw. destruct r as [result | e].
    + rewrite Hr. eexists. split; reflexivity.
    + eexists. split; reflexivity.
Qed.

Lemma empty_input_one_batch_write_witness :
  exists trace,
    start (Stub.scripted [TABLE_NAME] "n") 1 0 (Stub.loader [] 2) (VBool false) []
      = Some ([], trace, Returned tt) /\
    submissions trace = [(0, mk_request TABLE_NAME (VArr []))].
Proof.
  exact (proj2 (empty_input_one_batch_write (Stub.scripted [TABLE_NAME] "n") 0 0
                  (Stub.loader [] 2) (VBool false) [] [] [TABLE_NAME]
                  eq_refl eq_refl eq_refl eq_refl)
           [] (Returned Stub.accepted) eq_refl eq_refl).
Defined.

(** C2, as the code has it -- Abort on submission error.  For every run over
    more than 25 records in which the first chunk's [batchWriteItem] raises
    [e]: that write is the only submission; the [catch] block stops the
    loading text and prints the error, and [start] then returns normally --
    the error reaches the console, not the caller.  No later chunk is
    submitted. *)
Theorem submission_error_aborts {W : Type} (sdk : Sdk W) (fuel wave : nat)
    (this : gmap string Slot) (dry : Val) (w w1 w2 : W) (tableList : list string)
    (records : list (list (string * Val))) (e : Exn) :
  listTables sdk (client this) w = (w1, Returned tableList) ->
  includes tableList TABLE_NAME = true ->
  read this "data" = VArr (map VObj records) ->
  25 < length records ->
  truthy dry = false ->
  let first_chunk :=
    chunk_request (ToString (read this "table"))
      (take 25 (mapped_items (Converter_input sdk) records)) in
  batchWriteItem sdk (client this) first_chunk w1 = (w2, Thrown e) ->
  start sdk (S fuel) wave this dry w
  = Some (w2,
          [(wave, ListTables (client this)); (wave, ConsoleLog MsgLargeRequest);
           (wave, SetInterval 250);
           (wave, BatchWriteItem (client this) first_chunk);
           (wave, ClearInterval); (wave, ClearLine); (wave, CursorTo 0);
           (wave, ConsoleLog (MsgErrorInserting e))],
          Returned tt).
Proof.
  intros Hl Hinc Hdata Hn Hdry first_chunk Hw.
  destruct (start_multi_request sdk fuel wave this dry w w1 tableList records
              Hl Hinc Hdata Hn Hdry) as (chunks & _ & _ & ->).
  cbn [map submit_each]. fold first_chunk.
  rewrite bind_bind, bind_call, Hw. reflexivity.
Qed.

Lemma submission_error_aborts_witness :
  exists trace,
    start (Stub.scripted [TABLE_NAME] "n") 1 0 (Stub.loader (Stub.recalls 30) 1)
      (VBool false) [Thrown (RemoteError (VStr "ThrottlingException"))]
      = Some ([], trace, Returned tt) /\
    length (submissions trace) = 1 /\
    last trace
      = Some (0, ConsoleLog
                   (MsgErrorInserting (RemoteError (VStr "ThrottlingException")))).
Proof.
  eexists. split.
  - apply (submission_error_aborts (Stub.scripted [TABLE_NAME] "n") 0 0
             (Stub.loader (Stub.recalls 30) 1) (VBool false)
             [Thrown (RemoteError (VStr "ThrottlingException"))]
             [Thrown (RemoteError (VStr "ThrottlingException"))] []
             [TABLE_NAME]
             (map (fun n => [("recallId", VStr (pretty n))]) (seq 0 30))
             (RemoteError (VStr "ThrottlingException")));
      try reflexivity.
    vm_compute. lia.
  - split; reflexivity.
Defined.

(** C2 as stated fails: in a two-chunk run whose first write is rejected with
    a throttling error, [start] hands its caller the normal return -- the very
    completion of the run in which both chunks are accepted; no failure
    outcome is surfaced. *)
Lemma submission_error_not_surfaced :
  let failing :=
    start (Stub.scripted [TABLE_NAME] "n") 1 0 (Stub.loader (Stub.recalls 26) 1)
      (VBool false) [Thrown (RemoteError (VStr "ThrottlingException"))] in
  let accepted :=
    start (Stub.scripted [TABLE_NAME] "n") 1 0 (Stub.loader (Stub.recalls 26) 1)
      (VBool false) [] in
  (exists w' trace, failing = Some (w', trace, Returned tt) /\
                    length (submissions trace) = 1) /\
  (exists w' trace, accepted = Some (w', trace, Returned tt) /\
                    length (submissions trace) = 2) /\
  ~ (exists w' trace err, failing = Some (w', trace, Thrown err)).
Proof.
  split; [| split].
  - eexists _, _. split; [vm_compute; reflexivity | reflexivity].
  - eexists _, _. split; [vm_compute; reflexivity | reflexivity].
  - intros (w' & trace & err & H). vm_compute in H. discriminate.
Qed.

Section NoRetry.
Context {W : Type}.
Variable sdk : Sdk W.

(** Events of the loader itself that construct nothing. *)
Let plain (wave : nat) (ev : Event) : Prop :=
  fst ev = wave /\ is_spawn ev = false.

Ltac plain_step :=
  first [ apply traces_call; split; reflexivity
        | apply traces_emit; split; reflexivity
        | traces_step ].

Lemma submit_each_plain wave cfg reqs :
  traces (plain wave) (submit_each sdk wave cfg reqs).
Proof.
  induction reqs as [| r rest IH]; cbn [submit_each]; [apply traces_ret |].
  apply traces_bind; [plain_step | intros res].
  apply traces_bind; [plain_step | intros _].
  apply traces_bind; [exact IH | intros more]. apply traces_ret.
Qed.

Lemma inspect_each_plain wave results :
  traces (W:=W) (plain wave) (inspect_each wave results).
Proof.
  induction results as [| r rest IH]; cbn [inspect_each]; [apply traces_ret |].
  apply traces_bind;
    [| intros p; apply traces_bind; [exact IH | intros; apply traces_ret]].
  unfold inspect_result, log. repeat plain_step.
Qed.

(** The chunked path never constructs a loader for unprocessed items:
    whatever the datastore answers, every event of the run belongs to the
    loader itself, none is a [new DataLoader], and the call returns. *)
Lemma multi_request_never_retries fuel wave this dry w w1 tableList records
    w' trace c :
  listTables sdk (client this) w = (w1, Returned tableList) ->
  includes tableList TABLE_NAME = true ->
  read this "data" = VArr (map VObj records) ->
  25 < length records ->
  truthy dry = false ->
  start sdk (S fuel) wave this dry w = Some (w', trace, c) ->
  Forall (fun ev => fst ev = wave /\ is_spawn ev = false) trace /\ c = Returned tt.
Proof.
  intros Hl Hinc Hdata Hn Hdry.
  destruct (start_multi_request sdk fuel wave this dry w w1 tableList records
              Hl Hinc Hdata Hn Hdry) as (chunks & _ & _ & ->).
  match goal with |- after _ (caught _ (?m w1)) = _ -> _ =>
    assert (Hm : traces (plain wave) m); [| destruct (m w1) as [[[w3 t3] c3] |] eqn:Em]
  end.
  - apply traces_bind; [apply submit_each_plain | intros results].
    unfold stop_loading_text, log.
    repeat first [apply inspect_each_plain | plain_step].
  - pose proof (Hm _ _ _ _ Em) as Ht3.
    destruct c3 as [[] | e]; intros [= <- <- <-]; (split; [| reflexivity]);
      repeat (constructor; [split; reflexivity |]);
      try (apply Forall_app; split; [exact Ht3 |]);
      try exact Ht3;
      repeat (constructor; [split; reflexivity |]); constructor.
  - discriminate.
Qed.

(** The single-request path does not retry on the answer DynamoDB gives:
    [UnprocessedItems] is a map from table names to write requests, and a
    map has no [length] unless a table goes by that name. *)
Lemma single_request_map_answer_not_retried fuel wave this dry w w1 w2
    tableList records props :
  listTables sdk (client this) w = (w1, Returned tableList) ->
  includes tableList TABLE_NAME = true ->
  read this "data" = VArr (map VObj records) ->
  length records <= 25 ->
  truthy dry = false ->
  let request :=
    mk_request (ToString (read this "table"))
      (VArr (mapped_items (Converter_input sdk) records)) in
  batchWriteItem sdk (client this) request w1
    = (w2, Returned (mkOutput (VObj props))) ->
  props <> [] ->
  truthy (get_prop "length" props) = false ->
  start sdk (S fuel) wave this dry w
  = Some (w2,
          [(wave, ListTables (client this)); (wave, SetInterval 250);
           (wave, BatchWriteItem (client this) request);
           (wave, ClearInterval); (wave, ClearLine); (wave, CursorTo 0);
           (wave, ConsoleLog MsgInsertionComplete);
           (wave, ConsoleLog (MsgUnprocessedTryingAgain (mkOutput (VObj props))))],
          Returned tt).
Proof.
  intros Hl Hinc Hdata Hn Hdry request Hw Hne Hlen.
  rewrite (start_single_request sdk fuel wave this dry w w1 tableList records
             Hl Hinc Hdata Hn Hdry).
  fold request. rewrite Hw. cbn [UnprocessedItems R_keys_length length_of].
  rewrite Hlen. destruct props; [congruence | reflexivity].
Qed.
End NoRetry.

(** C1 -- what the code does where the claim expects a retry wave.
    (1) One record, and a first answer that reports it unprocessed the way
    DynamoDB does, as a map from the table name to the write requests: the
    run prints its "trying again" warning and returns after that single
    submission; no loader is constructed for the unprocessed item.
    (2) Twenty-six records, the first chunk's answer reporting an item
    unprocessed as a list: both chunks are submitted by the loader itself,
    then inspecting the first result throws a ReferenceError ([result] is
    read where [res] is meant), which is logged; no loader is constructed.
    (3) The same with the map-shaped answer: no warning, no loader. *)
Theorem unprocessed_items_not_retried :
  let answer_map := mkOutput (VObj [(TABLE_NAME, VArr [Stub.wire 0])]) in
  let answer_list := mkOutput (VArr [Stub.wire 0]) in
  let run n answer :=
    start (Stub.scripted [TABLE_NAME] "n") 3 0 (Stub.loader (Stub.recalls n) 1)
      (VBool false) [Returned answer] in
  (exists trace,
     run 1 answer_map = Some ([], trace, Returned tt) /\
     length (submissions trace) = 1 /\
     List.filter is_spawn trace = [] /\
     last trace = Some (0, ConsoleLog (MsgUnprocessedTryingAgain answer_map))) /\
  (exists trace,
     run 26 answer_list = Some ([], trace, Returned tt) /\
     map fst (submissions trace) = [0; 0] /\
     List.filter is_spawn trace = [] /\
     last trace = Some (0, ConsoleLog (MsgErrorInserting (ReferenceError "result")))) /\
  (exists trace,
     run 26 answer_map = Some ([], trace, Returned tt) /\
     map fst (submissions trace) = [0; 0] /\
     List.filter is_spawn trace = [] /\
     last trace = Some (0, ConsoleLog (MsgResult Stub.accepted))).
Proof.
  repeat split; eexists; (split; [vm_compute; reflexivity |]); repeat split; reflexivity.
Qed.

End EngineFacts.

Module StripMoreFacts.
Import Strip StripSpec.

Lemma match_at_plain c r :
  c <> LT -> c <> CR -> c <> LF -> match_at (String c r) = None.
Proof.
  intros H1 H2 H3. simpl.
  apply Ascii.eqb_neq in H1, H2, H3. now rewrite H1, H2, H3.
Qed.

Lemma replace_plain_prefix a b : plain a -> replace (a ++ b) = a ++ replace b.
Proof.
  unfold replace, plain.
  induction a as [| c a IH]; intros H; [reflexivity |].
  simpl in H. inversion H as [| ? ? (H1 & H2 & H3) Htl]; subst.
  change (String c a ++ b) with (String c (a ++ b)).
  rewrite StripFacts.replace_from_step, (match_at_plain _ _ H1 H2 H3), (IH Htl).
  reflexivity.
Qed.

Lemma until_gt_body body rest :
  no_gt body -> until_gt (body ++ String GT rest) = Some (String.length body).
Proof.
  unfold no_gt. induction body as [| c body IH]; intros H; [reflexivity |].
  simpl in H. inversion H as [| ? ? Hc Htl]; subst.
  simpl. apply Ascii.eqb_neq in Hc. now rewrite Hc, (IH Htl).
Qed.

Lemma until_gt_no_gt s : no_gt s -> until_gt s = None.
Proof.
  unfold no_gt. induction s as [| c s IH]; intros H; [reflexivity |].
  simpl in H. inversion H as [| ? ? Hc Htl]; subst.
  simpl. apply Ascii.eqb_neq in Hc. now rewrite Hc, (IH Htl).
Qed.

Lemma replace_from_skip_tag body rest :
  replace_from (S (String.length body)) (body ++ String GT rest) = replace_from 0 rest.
Proof. induction body as [| c body IH]; [reflexivity | exact IH]. Qed.

Lemma replace_tag body rest :
  body <> "" -> no_gt body ->
  replace (String LT (body ++ String GT rest)) = replace rest.
Proof.
  intros Hne Hbody. unfold replace.
  rewrite StripFacts.replace_from_step.
  change (match_at (String LT (body ++ String GT rest)))
    with (match until_gt (body ++ String GT rest) with
          | Some (S n) => Some (S (S (S n)))
          | _ => None
          end).
  rewrite (until_gt_body _ _ Hbody).
  destruct body as [| c body]; [congruence |].
  cbn [String.length]. apply (replace_from_skip_tag (String c body)).
Qed.

Lemma append_empty_r (s : string) : s ++ "" = s.
Proof.
  induction s as [| c s IH]; [reflexivity |].
  change (String c (s ++ "") = String c s). now rewrite IH.
Qed.

Lemma length_chars (s : string) :
  length (list_ascii_of_string s) = String.length s.
Proof. induction s as [| c s IH]; simpl; [reflexivity | now rewrite IH]. Qed.

(** X1 -- Plain text is kept.  Text with no [<], no carriage return and no
    line feed comes out of the stripper unchanged, and so does such a prefix
    of any text: whatever is removed further on, the characters before it
    stay as they are. *)
Theorem plain_text_kept (a b : string) :
  plain a -> replace a = a /\ replace (a ++ b) = a ++ replace b.
Proof.
  intros H. split; [| now apply replace_plain_prefix].
  pose proof (replace_plain_prefix a "" H) as E.
  change (a ++ replace "") with (a ++ "") in E.
  now rewrite !(append_empty_r a) in E.
Qed.

Lemma plain_text_kept_witness :
  replace "Recall notice" = "Recall notice" /\
  replace ("Recall " ++ "<b>notice</b>") = "Recall " ++ replace "<b>notice</b>".
Proof.
  split.
  - apply (plain_text_kept "Recall notice" "").
    repeat constructor; discriminate.
  - apply (plain_text_kept "Recall " "<b>notice</b>").
    repeat constructor; discriminate.
Defined.

(** X2 -- A tag is removed as a whole.  After plain text, a [<] followed by
    at least one character other than [>] and then a [>] disappears together
    with everything between the brackets -- letters, spaces, line breaks,
    further [<] -- and the scan goes on after the [>]. *)
Theorem tag_removed (a body rest : string) :
  plain a -> body <> "" -> no_gt body ->
  replace (a ++ String LT (body ++ String GT rest)) = a ++ replace rest.
Proof.
  intros Ha Hne Hbody.
  now rewrite (replace_plain_prefix _ _ Ha), (replace_tag _ _ Hne Hbody).
Qed.

Lemma tag_removed_witness :
  replace ("if 1 " ++ String LT (" 2 and 3 " ++ String GT " 2 then"))
  = "if 1 " ++ replace " 2 then".
Proof.
  apply (tag_removed "if 1 " " 2 and 3 " " 2 then");
    [repeat constructor; discriminate | discriminate | repeat constructor; discriminate].
Defined.

(** X3 -- Line breaks are removed.  After plain text, a carriage return, a
    line feed, or the pair of them is dropped and the scan goes on with what
    follows. *)
Theorem line_break_removed (a rest : string) :
  plain a ->
  replace (a ++ String CR (String LF rest)) = a ++ replace rest /\
  replace (a ++ String LF rest) = a ++ replace rest /\
  replace (a ++ String CR rest) = a ++ replace rest.
Proof.
  intros Ha. rewrite !(replace_plain_prefix _ _ Ha).
  split; [reflexivity |]. split; [reflexivity |].
  f_equal. unfold replace. rewrite StripFacts.replace_from_step.
  destruct rest as [| c rest]; [reflexivity |].
  cbn [match_at]. change (Ascii.eqb CR LT) with false.
  change (Ascii.eqb CR CR) with true. cbn iota.
  destruct (Ascii.eqb c LF) eqn:Hc; [| reflexivity].
  apply Ascii.eqb_eq in Hc. subst c. reflexivity.
Qed.

Lemma line_break_removed_witness :
  replace ("Recall" ++ String CR (String LF "notice")) = "Recall" ++ replace "notice".
Proof.
  apply (line_break_removed "Recall" "notice"). repeat constructor; discriminate.
Defined.

(** X4 -- A bracket that opens no tag is kept.  After plain text, a [<]
    with no [>] anywhere after it stays in the text, and so does the empty
    pair [<>]; the text after them is still stripped. *)
Theorem unclosed_bracket_kept (a rest : string) :
  plain a ->
  (no_gt rest ->
     replace (a ++ String LT rest) = a ++ String LT (replace rest)) /\
  replace (a ++ String LT (String GT rest)) = a ++ String LT (String GT (replace rest)).
Proof.
  intros Ha. rewrite !(replace_plain_prefix _ _ Ha). split.
  - intros Hrest. f_equal. unfold replace. rewrite StripFacts.replace_from_step.
    cbn [match_at]. change (Ascii.eqb LT LT) with true. cbn iota.
    now rewrite (until_gt_no_gt _ Hrest).
  - reflexivity.
Qed.

Lemma unclosed_bracket_kept_witness :
  replace ("dose " ++ String LT " 5 mg") = "dose " ++ String LT (replace " 5 mg").
Proof.
  apply (unclosed_bracket_kept "dose " " 5 mg");
    repeat constructor; discriminate.
Defined.

Lemma replace_from_sublist s : forall k,
  sublist (list_ascii_of_string (replace_from k s)) (list_ascii_of_string s).
Proof.
  induction s as [| c r IH]; intros k; [constructor |].
  destruct k as [| k]; [| simpl; apply sublist_cons, IH].
  rewrite StripFacts.replace_from_step.
  destruct (match_at (String c r)) as [[| k] |];
    simpl; first [apply sublist_skip, IH | apply sublist_cons, IH].
Qed.

(** X5 -- The stripper only deletes.  The stripped text is made of
    characters of the original text in their original order: nothing is
    inserted, replaced or moved, and the result is never longer. *)
Theorem replace_only_deletes (s : string) :
  sublist (list_ascii_of_string (replace s)) (list_ascii_of_string s) /\
  String.length (replace s) <= String.length s.
Proof.
  pose proof (replace_from_sublist s 0) as H. split; [exact H |].
  apply sublist_length in H.
  now rewrite !length_chars in H.
Qed.

(** X6 -- [htmlStripper] keeps the shape of the data.  For every JSON
    value the result has the same nesting, the same keys in the same order,
    arrays of the same length and the same leaves that are not strings: only
    the text of string leaves can differ. *)
Theorem htmlStripper_shape (v : Val) : shape (htmlStripper v) = shape v.
Proof.
  induction v as [| | b | n | s | elems IH | props IH] using Val_deep_ind;
    simpl; auto.
  - f_equal. induction IH as [| e rest He _ IHl]; simpl; [reflexivity |].
    now rewrite He, IHl.
  - f_equal. induction IH as [| kv rest Hkv _ IHl]; simpl; [reflexivity |].
    now rewrite Hkv, IHl.
Qed.

End StripMoreFacts.

Module MapperMoreFacts.
Import Mapper.

Section WithConverter.
Variable Converter_input : Val -> Val.

Lemma mapRequest_lookup (st : Store) (Item r : Ref) :
  fst (mapRequest Converter_input st Item) !! r
  = (if Nat.eq_dec Item r then map_props Converter_input else id) <$> st !! r.
Proof.
  unfold mapRequest. destruct (st !! Item) as [props |] eqn:HItem; cbn [fst].
  - destruct (Nat.eq_dec Item r) as [-> | Hne].
    + rewrite HItem. cbn. apply list_lookup_insert_eq.
      eapply lookup_lt_Some, HItem.
    + rewrite list_lookup_insert_ne by exact Hne. now destruct (st !! r).
  - destruct (Nat.eq_dec Item r) as [-> | Hne].
    + now rewrite HItem.
    + now destruct (st !! r).
Qed.

Lemma mapRequest_all_lookup (data : list Ref) : forall (st : Store) (r : Ref),
  fst (mapRequest_all Converter_input st data) !! r
  = Nat.iter (count_occ Nat.eq_dec data r) (map_props Converter_input) <$> st !! r.
Proof.
  induction data as [| a data IH]; intros st r.
  - cbn. now destruct (st !! r).
  - cbn [mapRequest_all].
    destruct (mapRequest Converter_input st a) as [st1 r'] eqn:E1.
    destruct (mapRequest_all Converter_input st1 data) as [st2 rs] eqn:E2.
    cbn [fst]. specialize (IH st1 r). rewrite E2 in IH. cbn [fst] in IH.
    rewrite IH.
    pose proof (mapRequest_lookup st a r) as H1. rewrite E1 in H1. cbn [fst] in H1.
    rewrite H1. cbn [count_occ].
    destruct (Nat.eq_dec a r) as [-> | Hne]; destruct (st !! r) as [props |];
      cbn; try reflexivity.
    f_equal. symmetry. apply Nat.iter_succ_r.
Qed.

Lemma mapRequest_all_refs (data : list Ref) : forall st : Store,
  snd (mapRequest_all Converter_input st data) = data.
Proof.
  induction data as [| a data IH]; intros st; [reflexivity |].
  cbn [mapRequest_all]. unfold mapRequest at 1.
  destruct (st !! a); cbn;
    match goal with
    | |- context [mapRequest_all _ ?s data] =>
        specialize (IH s); destruct (mapRequest_all Converter_input s data); cbn in *;
        now rewrite IH
    end.
Qed.
End WithConverter.

(** X7 -- One conversion per occurrence.  Mapping a data array of references
    returns the same references, and a record in the store ends up converted
    once for each time it is listed: a record listed once holds its
    wire-format values, a record that is not listed is untouched, and a
    record listed twice has its already converted values converted again. *)
Theorem mapRequest_all_per_occurrence (Converter_input : Val -> Val)
    (st : Store) (data : list Ref) (r : Ref) (props : list (string * Val)) :
  st !! r = Some props ->
  snd (mapRequest_all Converter_input st data) = data /\
  deref (fst (mapRequest_all Converter_input st data)) r
  = VObj (Nat.iter (count_occ Nat.eq_dec data r)
            (fun ps => map (fun kv => (fst kv, Converter_input (snd kv))) ps) props).
Proof.
  intros H. split; [apply mapRequest_all_refs |].
  unfold deref. rewrite mapRequest_all_lookup, H. reflexivity.
Qed.

Lemma mapRequest_all_per_occurrence_witness :
  let st : Store := [[("recallId", VStr "1")]; [("recallId", VStr "2")];
                     [("recallId", VStr "3")]] in
  deref (fst (mapRequest_all Converter.input st [0; 2; 0])) 0
    = VObj [("recallId", VObj [("M", VObj [("S", VObj [("S", VStr "1")])])])] /\
  deref (fst (mapRequest_all Converter.input st [0; 2; 0])) 1
    = VObj [("recallId", VStr "2")] /\
  deref (fst (mapRequest_all Converter.input st [0; 2; 0])) 2
    = VObj [("recallId", VObj [("S", VStr "3")])].
Proof.
  intros st.
  split; [| split].
  - exact (proj2 (mapRequest_all_per_occurrence Converter.input st [0; 2; 0] 0 _ eq_refl)).
  - exact (proj2 (mapRequest_all_per_occurrence Converter.input st [0; 2; 0] 1 _ eq_refl)).
  - exact (proj2 (mapRequest_all_per_occurrence Converter.input st [0; 2; 0] 2 _ eq_refl)).
Defined.

End MapperMoreFacts.

Module PartitionMoreFacts.
Import Loader.

Lemma ceil_step (n : nat) : (S n + 24) / 25 = S ((S n - 25 + 24) / 25).
Proof.
  destruct (le_lt_dec (S n) 25) as [Hle | Hgt].
  - replace (S n - 25) with 0 by lia. change ((0 + 24) / 25) with 0.
    symmetry. apply Nat.div_unique with (r := n); lia.
  - replace (S n + 24) with ((S n - 25 + 24) + 1 * 25) by lia.
    rewrite Nat.div_add by lia. lia.
Qed.

Lemma splice_loop_indexed (table : string) (items multiRequest : list Val) :
  splice_loop table items multiRequest
  = (multiRequest
     ++ map (fun k => chunk_request table (take 25 (drop (25 * k) items)))
          (seq 0 ((length items + 24) / 25)))%list.
Proof.
  funelim (splice_loop table items multiRequest).
  - simp splice_loop. now rewrite app_nil_r.
  - simp splice_loop. rewrite H. clear H Heqcall.
    rewrite length_drop. cbn [length]. rewrite (ceil_step (length rest)).
    rewrite <- app_assoc. f_equal.
    cbn [seq map app]. rewrite Nat.mul_0_r.
    change (drop 0 (x :: rest)) with (x :: rest). f_equal.
    rewrite <- seq_shift, map_map. apply map_ext. intros k.
    rewrite drop_drop. do 3 f_equal. lia.
Qed.

Lemma splice_loop_from_empty (table : string) (items : list Val) :
  splice_loop table items []
  = map (fun k => chunk_request table (take 25 (drop (25 * k) items)))
      (seq 0 ((length items + 24) / 25)).
Proof. now rewrite splice_loop_indexed. Qed.

(** X8 -- The chunks by position.  The chunking loop turns the items into
    [ceil(N / 25)] requests, and the request at position [k] (from 0) carries
    exactly the items at positions [25k] to [25k + 24] of the sequence (up to
    the end of the sequence, for the last one): every chunk but the last
    holds exactly 25 items, no item is skipped and none is sent twice. *)
Theorem splice_loop_by_position (table : string) (items : list Val) (k : nat) :
  k < (length items + 24) / 25 ->
  let chunk := take 25 (drop (25 * k) items) in
  length (splice_loop table items []) = (length items + 24) / 25 /\
  splice_loop table items [] !! k = Some (chunk_request table chunk) /\
  (S k < (length items + 24) / 25 -> length chunk = 25) /\
  (S k = (length items + 24) / 25 -> length chunk = length items - 25 * k).
Proof.
  intros Hk chunk. subst chunk. rewrite splice_loop_from_empty.
  pose proof (Nat.div_mod_eq (length items + 24) 25) as Hdiv.
  pose proof (Nat.mod_upper_bound (length items + 24) 25) as Hmod.
  split; [now rewrite length_map, length_seq |]. split.
  - rewrite list_lookup_fmap, lookup_seq_lt by exact Hk. reflexivity.
  - rewrite length_take, length_drop. split; intros Hlast; lia.
Qed.

Lemma splice_loop_by_position_witness :
  let items := Stub.recalls 60 in
  length (splice_loop TABLE_NAME items []) = 3 /\
  splice_loop TABLE_NAME items [] !! 2
    = Some (chunk_request TABLE_NAME (drop 50 items)) /\
  length (take 25 (drop 25 items)) = 25.
Proof.
  intros items.
  assert (Hk1 : 1 < (length items + 24) / 25) by (vm_compute; lia).
  assert (Hk2 : 2 < (length items + 24) / 25) by (vm_compute; lia).
  destruct (splice_loop_by_position TABLE_NAME items 2 Hk2) as (Hlen & Hat & _ & _).
  destruct (splice_loop_by_position TABLE_NAME items 1 Hk1) as (_ & _ & Hfull & _).
  split; [exact Hlen |]. split; [exact Hat |].
  apply Hfull. vm_compute; lia.
Defined.

End PartitionMoreFacts.

Module EngineMoreFacts.
Import Loader EngineSpec EngineFacts.

Section Runs.
Context {W : Type}.
Variable Q : list Event -> Prop.
Hypothesis Q_nil : Q [].
Hypothesis Q_app : forall a b, Q a -> Q b -> Q (a ++ b)%list.

Lemma runs_ret {A} (a : A) : runs (W:=W) Q (ret a).
Proof. intros w w' t c [= <- <- <-]. exact Q_nil. Qed.

Lemma runs_throw {A} e : runs (W:=W) Q (throw (A:=A) e).
Proof. intros w w' t c [= <- <- <-]. exact Q_nil. Qed.

Lemma runs_lift {A} (x : Completion A) : runs (W:=W) Q (lift x).
Proof. intros w w' t c [= <- <- <-]. exact Q_nil. Qed.

Lemma runs_emit wave a : Q [(wave, a)] -> runs (W:=W) Q (emit wave a).
Proof. intros H w w' t c [= <- <- <-]. exact H. Qed.

Lemma runs_call {A} wave a (f : W -> W * Completion A) :
  Q [(wave, a)] -> runs Q (call wave a f).
Proof.
  intros H w w' t c. unfold call. destruct (f w) as [w1 r].
  intros [= <- <- <-]. exact H.
Qed.

Lemma runs_bind {A B} (m : M (W:=W) A) (k : A -> M B) :
  runs Q m -> (forall a, runs Q (k a)) -> runs Q (bind m k).
Proof.
  intros Hm Hk w w' t c. unfold bind.
  destruct (m w) as [[[w1 t1] [a | e]] |] eqn:Em; [| | discriminate].
  - destruct (k a w1) as [[[w2 t2] c2] |] eqn:Ek; [| discriminate].
    intros [= <- <- <-]. apply Q_app; [eapply Hm, Em | eapply Hk, Ek].
  - intros [= <- <- <-]. eapply Hm, Em.
Qed.

Lemma runs_try_catch {A} (m : M (W:=W) A) (h : Exn -> M A) :
  runs Q m -> (forall e, runs Q (h e)) -> runs Q (try_catch m h).
Proof.
  intros Hm Hh w w' t c. unfold try_catch.
  destruct (m w) as [[[w1 t1] [a | e]] |] eqn:Em; [| | discriminate].
  - intros [= <- <- <-]. eapply Hm, Em.
  - destruct (h e w1) as [[[w2 t2] c2] |] eqn:Eh; [| discriminate].
    intros [= <- <- <-]. apply Q_app; [eapply Hm, Em | eapply Hh, Eh].
Qed.

Lemma runs_settle {A} (m : M (W:=W) A) : runs Q m -> runs Q (settle m).
Proof.
  intros Hm w w' t c. unfold settle.
  destruct (m w) as [[[w1 t1] r] |] eqn:Em; [| discriminate].
  intros [= <- <- <-]. eapply Hm, Em.
Qed.

Lemma runs_Promise_all ps : runs (W:=W) Q (Promise_all ps).
Proof.
  induction ps as [| [[] | e] rest IH]; cbn [Promise_all];
    [apply runs_ret | exact IH | apply runs_throw].
Qed.
End Runs.

Ltac runs_step :=
  first
    [ apply runs_ret; assumption | apply runs_throw; assumption
    | apply runs_lift; assumption
    | apply runs_settle
    | apply runs_Promise_all; assumption
    | apply runs_bind; [assumption | | intros ?]
    | apply runs_try_catch; [assumption | | intros ?]
    | match goal with
      | |- runs _ (if ?b then _ else _) => destruct b
      | |- runs _ (match ?x with _ => _ end) => destruct x
      end ].

(** *** The loading-text timer *)

Lemma stopped_app a b : stopped a -> stopped b -> stopped (a ++ b).
Proof.
  induction a as [| [d act] a IH]; intros Ha Hb; [exact Hb |].
  destruct act; simpl in *; auto.
  destruct Ha as [Hin Ha]. split; [apply in_or_app; now left | auto].
Qed.

Lemma stopped_spec t d ms pre post :
  stopped t -> t = (pre ++ (d, SetInterval ms) :: post)%list ->
  In (d, ClearInterval) post.
Proof.
  revert t. induction pre as [| [d' act] pre IH]; intros t Ht ->.
  - simpl in Ht. tauto.
  - apply (IH (pre ++ (d, SetInterval ms) :: post)%list); [| reflexivity].
    destruct act; simpl in Ht; tauto.
Qed.

Section Timer.
Context {W : Type}.
Variable sdk : Sdk W.

Ltac timer_step :=
  first [ apply runs_call; [exact I | apply stopped_app | exact I]
        | apply runs_emit; exact I
        | runs_step ].

Let Q_nil : stopped [] := I.
Let Q_app := stopped_app.

Lemma submit_each_stopped wave cfg reqs :
  runs stopped (submit_each sdk wave cfg reqs).
Proof.
  induction reqs as [| r rest IH]; cbn [submit_each]; [now apply runs_ret |].
  apply runs_bind; [exact Q_app | now apply runs_call | intros res].
  apply runs_bind; [exact Q_app | now apply runs_emit | intros _].
  apply runs_bind; [exact Q_app | exact IH | intros more]. now apply runs_ret.
Qed.

Lemma inspect_each_stopped wave results :
  runs (W:=W) stopped (inspect_each wave results).
Proof.
  induction results as [| r rest IH]; cbn [inspect_each]; [now apply runs_ret |].
  apply runs_bind; [exact Q_app | | intros p].
  - apply runs_settle. unfold inspect_result, log.
    repeat first [now apply runs_emit | runs_step].
  - apply runs_bind; [exact Q_app | exact IH | intros ps]. now apply runs_ret.
Qed.

Lemma stop_loading_text_stopped wave :
  runs (W:=W) stopped (stop_loading_text wave).
Proof.
  unfold stop_loading_text. repeat first [now apply runs_emit | runs_step].
Qed.

Lemma returns_after_stop {A} wave (k : unit -> M (W:=W) A) :
  returns_after (wave, ClearInterval) (bind (stop_loading_text wave) k).
Proof.
  intros w w' t a. rewrite bind_stop_loading_text.
  destruct (k tt w) as [[[w1 t1] c] |]; [| discriminate].
  intros [= _ <- _]. now left.
Qed.

Lemma returns_after_bind {A B} ev (m : M (W:=W) A) (k : A -> M B) :
  (forall a, returns_after ev (k a)) -> returns_after ev (bind m k).
Proof.
  intros Hk w w' t b. unfold bind.
  destruct (m w) as [[[w1 t1] [a | e]] |] eqn:Em; [| discriminate ..].
  destruct (k a w1) as [[[w2 t2] c2] |] eqn:Ek; [| discriminate].
  intros [= _ <- ->]. apply in_or_app. right. eapply Hk, Ek.
Qed.

(** What follows [setInterval]: the [try] block and its [catch]. *)
Lemma guarded_stopped wave (body : M (W:=W) unit) :
  runs stopped body -> returns_after (wave, ClearInterval) body ->
  runs stopped
    (bind (emit wave (SetInterval 250))
       (fun _ => try_catch body
                   (fun err => bind (stop_loading_text wave)
                                 (fun _ => log wave (MsgErrorInserting err))))).
Proof.
  intros Hbody Hret w w' t c.
  rewrite bind_emit, try_catch_caught.
  destruct (body w) as [[[w1 t1] [[] | e]] |] eqn:Eb; [| | discriminate];
    intros [= <- <- <-]; simpl.
  - split; [eapply Hret, Eb | eapply Hbody, Eb].
  - split; [apply in_or_app; right; now left |].
    apply stopped_app; [eapply Hbody, Eb | exact I].
Qed.

Lemma start_stopped fuel : forall wave this dry,
  runs stopped (start sdk fuel wave this dry).
Proof.
  induction fuel as [| fuel IH]; intros wave this dry.
  - intros w w' t c. discriminate.
  - cbn [start]. unfold log.
    apply runs_bind; [exact Q_app | now apply runs_call | intros tableList].
    destruct (negb (includes tableList TABLE_NAME)).
    { repeat first [now apply runs_call | now apply runs_emit | runs_step]. }
    apply runs_bind; [exact Q_app | now apply runs_lift | intros items].
    apply runs_bind;
      [exact Q_app | destruct (gt_num _ _); [now apply runs_emit | now apply runs_ret] |
       intros _].
    destruct (truthy dry).
    { repeat first [now apply runs_call | now apply runs_emit | runs_step]. }
    apply guarded_stopped.
    + repeat first
        [ apply submit_each_stopped | apply inspect_each_stopped
        | apply stop_loading_text_stopped | apply IH
        | now apply runs_call | now apply runs_emit | runs_step ].
    + destruct (truthy (length_of _)).
      * apply returns_after_bind. intros results. apply returns_after_stop.
      * apply returns_after_bind. intros result. apply returns_after_stop.
Qed.
End Timer.

(** X9 -- The loading text is always stopped.  In every run of [start],
    on any data and against any datastore, each [setInterval] is followed,
    later in the run, by a [clearInterval] of the same loader: on success, on
    a submission error, and when a retry loader fails.  (The trace lists what
    [start] itself does; the frames the timer prints while a call is awaited
    are left aside.) *)
Theorem loading_timer_always_stopped {W : Type} (sdk : Sdk W) (fuel wave : nat)
    (this : gmap string Slot) (dry : Val) (w w' : W) (trace : list Event)
    (c : Completion unit) :
  start sdk fuel wave this dry w = Some (w', trace, c) ->
  forall d ms pre post,
    trace = (pre ++ (d, SetInterval ms) :: post)%list ->
    In (d, ClearInterval) post.
Proof.
  intros Hrun d ms pre post Htrace.
  eapply stopped_spec; [eapply start_stopped, Hrun | exact Htrace].
Qed.

Lemma loading_timer_always_stopped_witness :
  In (0, ClearInterval)
     [(0, BatchWriteItem Stub.dynamoConfig
            (chunk_request TABLE_NAME (take 25 (map Stub.wire (seq 0 30)))));
      (0, ClearInterval); (0, ClearLine); (0, CursorTo 0);
      (0, ConsoleLog (MsgErrorInserting (RemoteError (VStr "ThrottlingException"))))].
Proof.
  refine (loading_timer_always_stopped (Stub.scripted [TABLE_NAME] "n") 1 0
            (Stub.loader (Stub.recalls 30) 1) (VBool false)
            [Thrown (RemoteError (VStr "ThrottlingException"))] [] _ (Returned tt) _
            0 250 [(0, ListTables Stub.dynamoConfig); (0, ConsoleLog MsgLargeRequest)]
            _ _);
    vm_compute; reflexivity.
Defined.

(** *** Dry runs and rejected calls *)

Section Quiet.
Context {W : Type}.
Variable sdk : Sdk W.

Ltac quiet_step :=
  first [ apply traces_call; exact I
        | apply traces_emit; exact I
        | traces_step ].

Lemma start_dry_quiet fuel wave this dry :
  truthy dry = true -> traces quiet (start sdk fuel wave this dry).
Proof.
  intros Hdry. destruct fuel as [| fuel]; [intros w w' t c; discriminate |].
  cbn [start]. unfold log. rewrite Hdry. repeat quiet_step.
Qed.

Lemma throws_quietly_traces {A} (m : M (W:=W) A) :
  traces quiet m -> throws_quietly m.
Proof. intros H w w' t e E. eapply H, E. Qed.

Lemma throws_quietly_bind {A B} (m : M (W:=W) A) (k : A -> M B) :
  traces quiet m -> (forall a, throws_quietly (k a)) -> throws_quietly (bind m k).
Proof.
  intros Hm Hk w w' t e. unfold bind.
  destruct (m w) as [[[w1 t1] [a | e1]] |] eqn:Em; [| | discriminate].
  - destruct (k a w1) as [[[w2 t2] c2] |] eqn:Ek; [| discriminate].
    intros [= <- <- ->]. apply Forall_app.
    split; [eapply Hm, Em | eapply Hk, Ek].
  - intros [= <- <- <-]. eapply Hm, Em.
Qed.

Lemma guarded_never_throws wave (body : M (W:=W) unit) :
  never_throws
    (bind (emit wave (SetInterval 250))
       (fun _ => try_catch body
                   (fun err => bind (stop_loading_text wave)
                                 (fun _ => log wave (MsgErrorInserting err))))).
Proof.
  intros w w' t e. rewrite bind_emit, try_catch_caught.
  destruct (body w) as [[[w1 t1] [[] | e1]] |]; simpl; congruence.
Qed.

Lemma start_throws_quietly fuel wave this dry :
  throws_quietly (start sdk fuel wave this dry).
Proof.
  destruct fuel as [| fuel]; [intros w w' t c; discriminate |].
  cbn [start]. unfold log.
  apply throws_quietly_bind; [quiet_step | intros tableList].
  destruct (negb (includes tableList TABLE_NAME)).
  { apply throws_quietly_traces. repeat quiet_step. }
  apply throws_quietly_bind; [quiet_step | intros items].
  apply throws_quietly_bind; [repeat quiet_step | intros _].
  destruct (truthy dry).
  { apply throws_quietly_traces. repeat quiet_step. }
  intros w w' t e E. exfalso. exact (guarded_never_throws _ _ _ _ _ _ E).
Qed.
End Quiet.

Lemma quiet_trace (trace : list Event) :
  Forall quiet trace ->
  submissions trace = [] /\ List.filter is_spawn trace = [] /\
  forall d ms, ~ In (d, SetInterval ms) trace.
Proof.
  induction 1 as [| [d a] t Hq _ (IH1 & IH2 & IH3)]; [repeat split; auto |].
  destruct a; simpl in Hq; try contradiction;
    (split; [exact IH1 |]); (split; [exact IH2 |]);
    intros d' ms' [Heq | Hin]; try discriminate; eapply IH3, Hin.
Qed.

(** X10 -- A dry run uploads nothing, whatever it is given.  For every
    data value, table listing, operator answer and datastore, a run of
    [start] with a truthy [dry] submits no batch write, constructs no retry
    loader and never starts the loading text.  (It may still create the
    table when the operator agrees.) *)
Theorem dry_run_never_submits {W : Type} (sdk : Sdk W) (fuel wave : nat)
    (this : gmap string Slot) (dry : Val) (w w' : W) (trace : list Event)
    (c : Completion unit) :
  truthy dry = true ->
  start sdk fuel wave this dry w = Some (w', trace, c) ->
  submissions trace = [] /\ List.filter is_spawn trace = [] /\
  forall d ms, ~ In (d, SetInterval ms) trace.
Proof.
  intros Hdry Hrun. apply quiet_trace. eapply start_dry_quiet; eassumption.
Qed.

Lemma dry_run_never_submits_witness :
  exists trace,
    start (accepting [] "yes") 1 0 (Stub.loader (Stub.recalls 40) 1) (VStr "on") tt
      = Some (tt, trace, Thrown (RemoteError (VStr "ResourceInUseException"))) /\
    submissions trace = [] /\
    In (0, CreateTable Stub.dynamoConfig createTable_params) trace.
Proof.
  eexists. split; [vm_compute; reflexivity |]. split.
  - refine (proj1 (dry_run_never_submits (accepting [] "yes") 1 0
                     (Stub.loader (Stub.recalls 40) 1) (VStr "on") tt tt _ _
                     eq_refl _)).
    vm_compute. reflexivity.
  - do 2 right. left. reflexivity.
Defined.

(** X11 -- A rejected [start] has uploaded nothing.  Whenever the promise
    of [start] is rejected -- the listing, the table creation, the mapping
    or the debug file write failed -- the run has submitted no batch write,
    constructed no retry loader and never started the loading text: once the
    loading text is started, every failure is caught and [start] returns
    normally.  (Writing to the terminal and to the console is taken to
    succeed, here as everywhere in the model.) *)
Theorem rejected_start_uploaded_nothing {W : Type} (sdk : Sdk W) (fuel wave : nat)
    (this : gmap string Slot) (dry : Val) (w w' : W) (trace : list Event)
    (e : Exn) :
  start sdk fuel wave this dry w = Some (w', trace, Thrown e) ->
  submissions trace = [] /\ List.filter is_spawn trace = [] /\
  forall d ms, ~ In (d, SetInterval ms) trace.
Proof.
  intros Hrun. apply quiet_trace. eapply start_throws_quietly, Hrun.
Qed.

Lemma rejected_start_uploaded_nothing_witness :
  submissions
    [(0, ListTables Stub.dynamoConfig); (0, Prompt create_question);
     (0, CreateTable Stub.dynamoConfig createTable_params)] = [].
Proof.
  refine (proj1 (rejected_start_uploaded_nothing (accepting [] "y") 1 0
                   (Stub.loader (Stub.recalls 3) 1) (VBool false) tt tt _
                   (RemoteError (VStr "ResourceInUseException")) _)).
  vm_compute. reflexivity.
Defined.

(** *** The chunked path, submission by submission *)

Section Chunked.
Context {W : Type}.
Variable sdk : Sdk W.

(** The submission loop stops at the first write that fails; every write
    before it is followed by the pause. *)
Lemma submit_each_outcome wave cfg reqs : forall w,
  exists w' t c,
    submit_each sdk wave cfg reqs w = Some (w', t, c) /\
    match c with
    | Returned results => t = paced wave cfg reqs /\ length results = length reqs
    | Thrown e =>
        exists k r, reqs !! k = Some r /\
          t = (paced wave cfg (take k reqs) ++ [(wave, BatchWriteItem cfg r)])%list
    end.
Proof.
  induction reqs as [| r rest IH]; intros w.
  - exists w, [], (Returned []). repeat split.
  - cbn [submit_each]. rewrite bind_call.
    destruct (batchWriteItem sdk cfg r w) as [w1 [res | e]].
    + rewrite bind_emit.
      destruct (IH w1) as (w2 & t2 & c2 & E & Hc).
      unfold bind at 1. rewrite E. destruct c2 as [results | e].
      * destruct Hc as [-> Hlen]. eexists _, _, _. split; [reflexivity |].
        split; [cbn; now rewrite app_nil_r | simpl; now rewrite Hlen].
      * destruct Hc as (k & r' & Hk & ->). eexists _, _, _. split; [reflexivity |].
        exists (S k), r'. split; [exact Hk | reflexivity].
    + exists w1, [(wave, BatchWriteItem cfg r)], (Thrown e). split; [reflexivity |].
      exists 0, r. split; reflexivity.
Qed.

Lemma inspect_result_outcome wave res (w : W) :
  exists t c, inspect_result wave res w = Some (w, t, c) /\ Forall no_write t.
Proof.
  unfold inspect_result, log. rewrite bind_emit.
  destruct (length_access (UnprocessedItems res)) as [len | e] eqn:El.
  - rewrite bind_lift. destruct (truthy len).
    + rewrite bind_emit. eexists _, _. split; [reflexivity |].
      repeat constructor.
    + eexists _, _. split; [reflexivity |]. repeat constructor.
  - eexists _, _. split; [reflexivity |]. repeat constructor.
Qed.

Lemma inspect_each_outcome wave results (w : W) :
  exists t ps, inspect_each wave results w = Some (w, t, Returned ps) /\
               Forall no_write t.
Proof.
  induction results as [| res rest (t2 & ps & E2 & H2)].
  - exists [], []. split; [reflexivity | constructor].
  - destruct (inspect_result_outcome wave res w) as (t1 & c1 & E1 & H1).
    cbn [inspect_each]. unfold bind at 1, settle. rewrite E1.
    unfold bind at 1. rewrite E2. cbn.
    eexists _, _. split; [reflexivity |].
    rewrite app_nil_r. apply Forall_app. now split.
Qed.

Lemma Promise_all_outcome ps (w : W) :
  exists c, Promise_all ps w = Some (w, [], c).
Proof.
  induction ps as [| [[] | e] rest IH]; cbn [Promise_all];
    [eexists; reflexivity | exact IH | eexists; reflexivity].
Qed.

(** The run of a chunked request, reduced to its submission loop. *)
Lemma start_chunked fuel wave this dry w w1 tableList records :
  listTables sdk (client this) w = (w1, Returned tableList) ->
  includes tableList TABLE_NAME = true ->
  read this "data" = VArr (map VObj records) ->
  25 < length records ->
  truthy dry = false ->
  let table := ToString (read this "table") in
  let items := mapped_items (Converter_input sdk) records in
  start sdk (S fuel) wave this dry w =
  after [(wave, ListTables (client this)); (wave, ConsoleLog MsgLargeRequest);
         (wave, SetInterval 250)]
    (caught wave
       (bind (submit_each sdk wave (client this) (splice_loop table items []))
             (fun results =>
                bind (stop_loading_text wave) (fun _ =>
                bind (log wave (MsgInsertionCompleteResults results)) (fun _ =>
                bind (inspect_each wave results) Promise_all))) w1)).
Proof.
  intros Hl Hinc Hdata Hn Hdry table items.
  assert (Hlen : length items = length records) by apply length_map.
  assert (Htruthy : truthy (length_of (VArr (splice_loop table items []))) = true).
  { rewrite PartitionMoreFacts.splice_loop_from_empty.
    cbn [length_of truthy]. rewrite length_map, length_seq.
    pose proof (Nat.div_mod_eq (length items + 24) 25) as Hdiv.
    pose proof (Nat.mod_upper_bound (length items + 24) 25) as Hmod.
    destruct (Z.eqb_spec (Z.of_nat ((length items + 24) / 25)) 0); [lia | reflexivity]. }
  cbn [start]. rewrite bind_call, Hl, Hinc. cbn [negb].
  rewrite Hdata, R_map_records, bind_lift, Hdry.
  fold table. unfold partition. cbn [length_of gt_num elems_of].
  replace (Z.ltb 25 _) with true
    by (unfold mapped_items; rewrite length_map; symmetry; apply Z.ltb_lt; lia).
  cbn [fst snd]. fold items. rewrite Htruthy.
  rewrite client_textInterval.
  unfold log at 1. rewrite !bind_emit, try_catch_caught.
  rewrite !after_after. reflexivity.
Qed.
End Chunked.

(** X12 -- The chunked upload, write by write.  For every record set of more
    than 25 records (table listed, no dry run) and every datastore, [start]
    terminates without retrying and returns normally.  It submits the chunk
    requests in order -- the request at position [k] carrying the items
    [25k .. 25k + 24] -- each accepted write followed by the pause of 1.5 s
    before the next.  Either all chunks are submitted and nothing else is, or
    the write of some chunk fails: then no later chunk is submitted and the
    run ends with the error report. *)
Theorem chunked_upload_in_order {W : Type} (sdk : Sdk W) (fuel wave : nat)
    (this : gmap string Slot) (dry : Val) (w w1 : W) (tableList : list string)
    (records : list (list (string * Val))) :
  listTables sdk (client this) w = (w1, Returned tableList) ->
  includes tableList TABLE_NAME = true ->
  read this "data" = VArr (map VObj records) ->
  25 < length records ->
  truthy dry = false ->
  let table := ToString (read this "table") in
  let items := mapped_items (Converter_input sdk) records in
  let reqs :=
    map (fun k => chunk_request table (take 25 (drop (25 * k) items)))
      (seq 0 ((length records + 24) / 25)) in
  let opening :=
    [(wave, ListTables (client this)); (wave, ConsoleLog MsgLargeRequest);
     (wave, SetInterval 250)] in
  exists w' trace,
    start sdk (S fuel) wave this dry w = Some (w', trace, Returned tt) /\
    ((exists rest,
        trace = (opening ++ paced wave (client this) reqs ++ rest)%list /\
        Forall no_write rest)
     \/
     (exists k r e,
        reqs !! k = Some r /\
        trace = (opening ++ paced wave (client this) (take k reqs)
                 ++ (wave, BatchWriteItem (client this) r) :: error_report wave e)%list)).
Proof.
  intros Hl Hinc Hdata Hn Hdry table items reqs opening.
  rewrite (start_chunked sdk fuel wave this dry w w1 tableList records
             Hl Hinc Hdata Hn Hdry).
  fold table. fold items.
  rewrite PartitionMoreFacts.splice_loop_from_empty.
  replace (length items) with (length records) by (symmetry; apply length_map).
  fold reqs.
  destruct (submit_each_outcome sdk wave (client this) reqs w1)
    as (w2 & t & c & E & Hc).
  unfold bind at 1. rewrite E. destruct c as [results | e].
  - destruct Hc as [-> _].
    rewrite bind_stop_loading_text. unfold log. rewrite bind_emit.
    destruct (inspect_each_outcome wave results w2) as (t3 & ps & E3 & H3).
    unfold bind at 1. rewrite E3.
    destruct (Promise_all_outcome ps w2) as (c4 & E4). rewrite E4.
    destruct c4 as [[] | e4]; eexists _, _; (split; [reflexivity |]); left;
      eexists; (split; [cbn; rewrite <- ?app_assoc; reflexivity |]).
    + repeat (constructor; [reflexivity |]). rewrite app_nil_r. exact H3.
    + repeat (constructor; [reflexivity |]). rewrite app_nil_r.
      apply Forall_app. split; [exact H3 | repeat constructor].
  - destruct Hc as (k & r & Hk & ->).
    eexists _, _. split; [reflexivity |]. right. exists k, r, e.
    split; [exact Hk |]. cbn. now rewrite <- app_assoc.
Qed.

Lemma chunked_upload_in_order_witness :
  exists trace,
    start (accepting [TABLE_NAME] "n") 1 0 (Stub.loader (Stub.recalls 26) 1)
      (VBool false) tt = Some (tt, trace, Returned tt) /\
    map snd (submissions trace)
    = [chunk_request TABLE_NAME (map Stub.wire (seq 0 25));
       chunk_request TABLE_NAME [Stub.wire 25]].
Proof.
  destruct (chunked_upload_in_order (accepting [TABLE_NAME] "n") 0 0
              (Stub.loader (Stub.recalls 26) 1) (VBool false) tt tt [TABLE_NAME]
              (map (fun n => [("recallId", VStr (pretty n))]) (seq 0 26))
              eq_refl eq_refl eq_refl ltac:(vm_compute; lia) eq_refl)
    as (w' & trace & Hrun & _).
  exists trace. destruct w'. split; [exact Hrun |].
  vm_compute in Hrun. injection Hrun as <-. vm_compute. reflexivity.
Defined.

(** *** A retry wave, when it happens *)

(** X13 -- What a retry wave resubmits.  Take a run of at most 25 records
    whose write is answered with a non-empty list of at most 25 unprocessed
    write requests, the table still listed, and a second write that is
    accepted.  The run then consists of two submissions.  The second comes
    from a loader built on [this.dynamoConfig], and it does not carry the
    unprocessed write requests as the datastore returned them: each of them
    is taken for a record, converted property by property and wrapped in a
    new put request. *)
Theorem retry_wave_remaps_unprocessed {W : Type} (sdk : Sdk W) (fuel wave : nat)
    (this : gmap string Slot) (dry : Val) (w w1 w2 w3 w4 : W)
    (tableList tableList' : list string)
    (records unprocessed : list (list (string * Val))) (answer : Output) :
  let table := ToString (read this "table") in
  let request := mk_request table (VArr (mapped_items (Converter_input sdk) records)) in
  let retry_config := read this "dynamoConfig" in
  let retry_request :=
    mk_request table (VArr (mapped_items (Converter_input sdk) unprocessed)) in
  let returned := mkOutput (VArr (map VObj unprocessed)) in
  listTables sdk (client this) w = (w1, Returned tableList) ->
  includes tableList TABLE_NAME = true ->
  read this "data" = VArr (map VObj records) ->
  length records <= 25 ->
  truthy dry = false ->
  batchWriteItem sdk (client this) request w1 = (w2, Returned returned) ->
  0 < length unprocessed <= 25 ->
  listTables sdk retry_config w2 = (w3, Returned tableList') ->
  includes tableList' TABLE_NAME = true ->
  batchWriteItem sdk retry_config retry_request w3 = (w4, Returned answer) ->
  R_keys_length (UnprocessedItems answer) = 0 ->
  start sdk (S (S fuel)) wave this dry w
  = Some (w4,
          [(wave, ListTables (client this)); (wave, SetInterval 250);
           (wave, BatchWriteItem (client this) request);
           (wave, ClearInterval); (wave, ClearLine); (wave, CursorTo 0);
           (wave, ConsoleLog MsgInsertionComplete);
           (wave, ConsoleLog (MsgUnprocessedTryingAgain returned));
           (wave, NewDataLoader (VArr (map VObj unprocessed))
                    (read this "table") retry_config);
           (S wave, ListTables retry_config); (S wave, SetInterval 250);
           (S wave, BatchWriteItem retry_config retry_request);
           (S wave, ClearInterval); (S wave, ClearLine); (S wave, CursorTo 0);
           (S wave, ConsoleLog MsgInsertionComplete)],
          Returned tt).
Proof.
  intros table request retry_config retry_request returned
    Hl Hinc Hdata Hn Hdry Hw [Hpos Hmax] Hl' Hinc' Hw' Hkeys.
  rewrite (start_single_request sdk (S fuel) wave this dry w w1 tableList records
             Hl Hinc Hdata Hn Hdry).
  fold table. fold request. rewrite Hw.
  cbn [returned UnprocessedItems R_keys_length length_of truthy].
  rewrite length_map.
  destruct (Nat.eqb_spec (length unprocessed) 0) as [H0 | _]; [lia |].
  destruct (Z.eqb_spec (Z.of_nat (length unprocessed)) 0) as [H0 | _]; [lia |].
  cbn [negb]. fold retry_config.
  rewrite (start_single_request sdk fuel (S wave)
             (constructor (VArr (map VObj unprocessed)) (read this "table")
                retry_config VUndef)
             VUndef w2 w3 tableList' unprocessed Hl' Hinc' eq_refl Hmax eq_refl).
  change (read (constructor _ (read this "table") retry_config VUndef) "table")
    with (read this "table").
  rewrite constructor_client. fold table. fold retry_request.
  rewrite Hw', Hkeys. reflexivity.
Qed.

Lemma retry_wave_remaps_unprocessed_witness :
  exists trace,
    start (Stub.scripted [TABLE_NAME] "n") 2 0 (Stub.loader (Stub.recalls 1) 1)
      (VBool false) [Returned (mkOutput (VArr [Stub.wire 0]))]
      = Some ([], trace, Returned tt) /\
    submissions trace
    = [(0, mk_request TABLE_NAME (VArr [Stub.wire 0]));
       (1, mk_request TABLE_NAME
             (VArr [put_request
                      (VObj [("PutRequest",
                              Converter.input
                                (VObj [("Item",
                                        VObj [("recallId",
                                               VObj [("S", VStr "0")])])]))])]))].
Proof.
  eexists. split.
  - apply (retry_wave_remaps_unprocessed (Stub.scripted [TABLE_NAME] "n") 0 0
             (Stub.loader (Stub.recalls 1) 1) (VBool false)
             [Returned (mkOutput (VArr [Stub.wire 0]))]
             [Returned (mkOutput (VArr [Stub.wire 0]))] [] [] []
             [TABLE_NAME] [TABLE_NAME]
             [[("recallId", VStr "0")]]
             [[("PutRequest", VObj [("Item", VObj [("recallId", VObj [("S", VStr "0")])])])]]
             Stub.accepted);
      try reflexivity; simpl; lia.
  - reflexivity.
Defined.

(** *** The loading text *)

Lemma read_dots (this : gmap string Slot) (v : Val) :
  read (<["dots" := SVal v]> this) "dots" = v.
Proof. unfold read. now rewrite lookup_insert_eq. Qed.

Lemma loadingText_frames (d : string) :
  (String.eqb d "" || String.eqb d "." || String.eqb d "..") = true ->
  d = "" \/ d = "." \/ d = "..".
Proof.
  intros H. apply orb_true_iff in H as [H | H];
    [apply orb_true_iff in H as [H | H] |]; apply String.eqb_eq in H; auto.
Qed.

Lemma tick_dots (t : gmap string Slot) :
  read (fst (loadingText t)) "dots"
  = VStr match read t "dots" with
         | VStr s =>
             if String.eqb s "" || String.eqb s "." || String.eqb s ".."
             then s ++ "." else ""
         | _ => ""
         end.
Proof. unfold loadingText. cbn [fst]. apply read_dots. Qed.

(** X14 -- The dots of the loading text.  Whatever object it is called on,
    each call of [loadingText] prints "Loading data into table" followed by
    at most three dots, touches no property of its receiver other than
    [dots], and from the first call on the frames repeat with period four (no
    dot, one, two, three).  The first frame has no dot both on a loader fresh
    from the constructor and on a receiver that has no [dots] property (as
    the timer's own object, which is the receiver when [start] hands the
    method over unbound). *)
Theorem loadingText_cycle (this : gmap string Slot) :
  let tick := fun t => fst (loadingText t) in
  (exists d,
     In d [""; "."; ".."; "..."] /\
     read (tick this) "dots" = VStr d /\
     snd (loadingText this)
     = [ClearLine; CursorTo 0; StdoutWrite ("Loading data into table" ++ d)]) /\
  read (tick (tick (tick (tick (tick this))))) "dots" = read (tick this) "dots" /\
  (forall k, k <> "dots" -> tick this !! k = this !! k) /\
  (forall data table config category,
     read (tick (constructor data table config category)) "dots" = VStr "") /\
  read (tick (delete "dots" this)) "dots" = VStr "".
Proof.
  intros tick.
  assert (Hframe : exists d, In d [""; "."; ".."; "..."] /\
                             loadingText this
                             = (<["dots" := SVal (VStr d)]> this,
                                [ClearLine; CursorTo 0;
                                 StdoutWrite ("Loading data into table" ++ d)])).
  { unfold loadingText. destruct (read this "dots") as [| | | | s | |];
      try (exists ""; split; [now left | reflexivity]).
    destruct (String.eqb s "" || String.eqb s "." || String.eqb s "..") eqn:E.
    - apply loadingText_frames in E as [-> | [-> | ->]];
        [exists "." | exists ".." | exists "..."];
        (split; [simpl; tauto | reflexivity]).
    - exists "". split; [now left | reflexivity]. }
  destruct Hframe as (d & Hd & Hlt).
  split; [| split; [| split; [| split]]].
  - exists d. unfold tick. rewrite Hlt. cbn [fst snd].
    split; [exact Hd |]. split; [apply read_dots | reflexivity].
  - assert (H1 : read (tick this) "dots" = VStr d)
      by (unfold tick; rewrite Hlt; apply read_dots).
    rewrite H1. unfold tick in *. do 4 rewrite tick_dots. rewrite H1.
    destruct Hd as [<- | [<- | [<- | [<- | []]]]]; reflexivity.
  - intros k Hk. unfold tick. rewrite Hlt. cbn [fst].
    apply lookup_insert_ne. congruence.
  - intros. reflexivity.
  - unfold tick. rewrite tick_dots. unfold read. now rewrite lookup_delete_eq.
Qed.

End EngineMoreFacts.

Module StagesMoreFacts.
Import Stages.

Lemma each_total {A B : Type} (f : A -> B) (l : list A) :
  each (fun x => Returned (f x)) l = Returned (map f l).
Proof. induction l as [| x l IH]; simpl; [reflexivity | now rewrite IH]. Qed.


Lemma getRecentData_body_ok fetch i fs out props :
  raw_dir fs = true ->
  fetch i = Returned (VObj props) ->
  getRecentData_body fetch i (fs, out)
  = ((mkFS true (<[raw_path i := JSON_stringify (get_prop "results" props)]> (files fs)),
      (out ++ [LogCreatedFile (raw_path i)])%list), Returned tt).
Proof.
  intros Hdir Hf. unfold getRecentData_body, writeFileSync. rewrite Hf. cbn.
  now rewrite Hdir.
Qed.

Lemma cleanData_body_ok i fs out data :
  raw_dir fs = true ->
  files fs !! raw_path i = Some (JsonText (VArr data)) ->
  cleanData_body i (fs, out)
  = ((mkFS true
        (<[stripped_path i := JsonText (json_norm (VArr (map Strip.htmlStripper data)))]>
           (files fs)), out), Returned tt).
Proof.
  intros Hdir Hfile. unfold cleanData_body, readFileSync, writeFileSync.
  rewrite Hfile. cbn [JSON_parse R_map]. rewrite each_total. cbn.
  now rewrite Hdir.
Qed.

Ltac path_neq := vm_compute; congruence.

(** The fetch stage when every category is answered with an object. *)
Lemma getRecentData_success (fetch : nat -> Completion Val) (fs : FS)
    (body : nat -> list (string * Val)) :
  (forall i, In i categories -> fetch i = Returned (VObj (body i))) ->
  let written i := JSON_stringify (get_prop "results" (body i)) in
  getRecentData fetch fs
  = (mkFS true
       (<[raw_path 4 := written 4]> (<[raw_path 3 := written 3]>
        (<[raw_path 2 := written 2]> (<[raw_path 1 := written 1]> (files fs))))),
     ((if raw_dir fs then [] else [LogNoRawDir])
      ++ map (fun i => LogCreatedFile (raw_path i)) categories)%list).
Proof.
  intros Hfetch written. unfold getRecentData, categories.
  assert (Hdir : raw_dir (fst (ensure_raw_dir fs)) = true)
    by (unfold ensure_raw_dir; destruct (raw_dir fs) eqn:E; [exact E | reflexivity]).
  assert (Hfiles : files (fst (ensure_raw_dir fs)) = files fs)
    by (unfold ensure_raw_dir; now destruct (raw_dir fs)).
  assert (Hout : snd (ensure_raw_dir fs) = if raw_dir fs then [] else [LogNoRawDir])
    by (unfold ensure_raw_dir; now destruct (raw_dir fs)).
  destruct (ensure_raw_dir fs) as [fs0 out0]. cbn [fst snd] in Hdir, Hfiles, Hout.
  cbn [for_each].
  rewrite (getRecentData_body_ok fetch 1 fs0 out0 (body 1) Hdir)
    by (apply Hfetch; simpl; tauto).
  erewrite (getRecentData_body_ok fetch 2 _ _ (body 2));
    [| reflexivity | apply Hfetch; simpl; tauto].
  erewrite (getRecentData_body_ok fetch 3 _ _ (body 3));
    [| reflexivity | apply Hfetch; simpl; tauto].
  erewrite (getRecentData_body_ok fetch 4 _ _ (body 4));
    [| reflexivity | apply Hfetch; simpl; tauto].
  cbn [files]. rewrite Hfiles, Hout. now rewrite <- !app_assoc.
Qed.

(** X15 -- A successful fetch stage.  When the API answers for each of the
    four categories with an object that has a [results] property, the stage
    makes sure [./_raw] exists and writes one file per category,
    [./_raw/{i}.json], holding the serialised [results] of that answer -- not
    the answer itself; it prints one line per file, and it changes no other
    file. *)
Theorem getRecentData_writes_results (fetch : nat -> Completion Val) (fs : FS)
    (body : nat -> list (string * Val)) :
  (forall i, In i categories ->
     fetch i = Returned (VObj (body i)) /\ get_prop "results" (body i) <> VUndef) ->
  let fs' := fst (getRecentData fetch fs) in
  raw_dir fs' = true /\
  (forall i, In i categories ->
     files fs' !! raw_path i = Some (JSON_stringify (get_prop "results" (body i)))) /\
  (forall path, ~ In path (map raw_path categories) ->
     files fs' !! path = files fs !! path) /\
  snd (getRecentData fetch fs)
  = ((if raw_dir fs then [] else [LogNoRawDir])
     ++ map (fun i => LogCreatedFile (raw_path i)) categories)%list.
Proof.
  intros Hfetch fs'. subst fs'.
  rewrite (getRecentData_success fetch fs body (fun i Hi => proj1 (Hfetch i Hi))).
  cbn [fst snd files raw_dir].
  split; [reflexivity |]. split; [| split; [| reflexivity]].
  - intros i [<- | [<- | [<- | [<- | []]]]].
    + rewrite !lookup_insert_ne by path_neq. apply lookup_insert_eq.
    + rewrite !lookup_insert_ne by path_neq. apply lookup_insert_eq.
    + rewrite lookup_insert_ne by path_neq. apply lookup_insert_eq.
    + apply lookup_insert_eq.
  - intros path Hpath. simpl in Hpath.
    rewrite !lookup_insert_ne; [reflexivity | ..]; intros <-; tauto.
Qed.

Lemma getRecentData_writes_results_witness :
  files (fst (getRecentData (Stub.fetch_failing 0) (Stub.raw_files []))) !! raw_path 3
  = Some (JSON_stringify Stub.listing).
Proof.
  refine (proj1 (proj2 (getRecentData_writes_results (Stub.fetch_failing 0)
                          (Stub.raw_files []) (fun _ => [("results", Stub.listing)]) _))
            3 _).
  - intros i [<- | [<- | [<- | [<- | []]]]]; (split; [reflexivity | discriminate]).
  - simpl. tauto.
Defined.

(** The clean stage when every raw file holds an array. *)
Lemma cleanData_success (fs : FS) (data : nat -> list Val) :
  raw_dir fs = true ->
  (forall i, In i categories ->
     files fs !! raw_path i = Some (JsonText (VArr (data i)))) ->
  let written i := JsonText (json_norm (VArr (map Strip.htmlStripper (data i)))) in
  cleanData fs
  = (mkFS true
       (<[stripped_path 4 := written 4]> (<[stripped_path 3 := written 3]>
        (<[stripped_path 2 := written 2]> (<[stripped_path 1 := written 1]>
           (files fs))))), []).
Proof.
  intros Hdir Hraw written. unfold cleanData, categories. cbn [for_each].
  destruct fs as [dir fls]. cbn [raw_dir files] in *. subst dir.
  erewrite (cleanData_body_ok 1 _ _ (data 1));
    [| reflexivity | cbn [files]; apply Hraw; simpl; tauto].
  erewrite (cleanData_body_ok 2 _ _ (data 2));
    [| reflexivity
     | cbn [files]; rewrite !lookup_insert_ne by path_neq; apply Hraw; simpl; tauto].
  erewrite (cleanData_body_ok 3 _ _ (data 3));
    [| reflexivity
     | cbn [files]; rewrite !lookup_insert_ne by path_neq; apply Hraw; simpl; tauto].
  erewrite (cleanData_body_ok 4 _ _ (data 4));
    [| reflexivity
     | cbn [files]; rewrite !lookup_insert_ne by path_neq; apply Hraw; simpl; tauto].
  reflexivity.
Qed.



End StagesMoreFacts.

Module FullDataFacts.
Import Stages FullData.

Ltac path_neq := vm_compute; congruence.

Lemma each_fst {A B C : Type} (f : A -> B * C) (l : list A) :
  each (fun x => Returned (fst (f x))) l = Returned (map (fun x => fst (f x)) l).
Proof. induction l as [| x l IH]; simpl; [reflexivity | now rewrite IH]. Qed.

Lemma getFullData_body_array fetch i fs errs elems :
  files fs !! raw_path i = Some (JsonText (VArr elems)) ->
  getFullData_body fetch i (fs, errs) = ((fs, errs), Thrown (TypeError "map")).
Proof.
  intros H. unfold getFullData_body, readFileSync. now rewrite H.
Qed.

Lemma getFullData_body_ok fetch i fs errs props items :
  raw_dir fs = true ->
  files fs !! raw_path i = Some (JsonText (VObj props)) ->
  get_prop "results" props = VArr items ->
  getFullData_body fetch i (fs, errs)
  = ((mkFS true
        (<[raw_path i :=
             JSON_stringify (VArr (map (fun item => fst (full_item fetch item)) items))]>
           (files fs)),
      (errs ++ item_errors fetch (VArr items))%list), Returned tt).
Proof.
  intros Hdir Hfile Hres. unfold getFullData_body, readFileSync, writeFileSync.
  rewrite Hfile. cbn [JSON_parse results_of]. rewrite Hres. cbn [R_map].
  rewrite each_fst. cbn [Promise_all_values]. now rewrite Hdir.
Qed.

(** X17 -- The detail stage does not accept what the fetch stage writes.
    After a fetch stage in which every category was answered, the first
    with a [results] array, the detail stage stops at category 1: the file
    holds the array itself, so [data.results] is [undefined] and [R.map]
    throws.  No detail is requested, no file is changed, and the stage
    returns after printing the error. *)
Theorem getFullData_after_getRecentData
    (fetch_list : nat -> Completion Val) (fetch_detail : string -> Completion Val)
    (fs : FS) (body : nat -> list (string * Val)) (results : list Val) :
  (forall i, In i categories -> fetch_list i = Returned (VObj (body i))) ->
  get_prop "results" (body 1) = VArr results ->
  let fs1 := fst (getRecentData fetch_list fs) in
  getFullData fetch_detail fs1 = ((fs1, []), Some (TypeError "map")).
Proof.
  intros Hfetch Hres fs1. subst fs1.
  rewrite (StagesMoreFacts.getRecentData_success fetch_list fs body Hfetch).
  cbn [fst]. unfold getFullData, categories. cbn [for_each].
  erewrite getFullData_body_array; [reflexivity |].
  cbn [files]. rewrite !lookup_insert_ne by path_neq.
  rewrite lookup_insert_eq, Hres. reflexivity.
Qed.

Lemma getFullData_after_getRecentData_witness :
  let fs1 := fst (getRecentData (Stub.fetch_failing 0) (Stub.raw_files [])) in
  getFullData Samples.fetch_detail fs1 = ((fs1, []), Some (TypeError "map")).
Proof.
  apply (getFullData_after_getRecentData (Stub.fetch_failing 0) Samples.fetch_detail
           (Stub.raw_files []) (fun _ => [("results", Stub.listing)])
           Stub.elems_of_listing).
  - intros i [<- | [<- | [<- | [<- | []]]]]; reflexivity.
  - reflexivity.
Defined.

(** X18 -- The detail stage, item by item.  When each of the four raw
    files holds an object whose [results] is an array, the stage replaces
    each file by the array of the same length in which every item whose
    detail could be fetched is replaced by that detail and every other item
    is kept as it is: a failing item is reported and does not stop the
    others.  Other files are not changed and the stage reports no error of
    its own. *)
Theorem getFullData_item_by_item (fetch : string -> Completion Val) (fs : FS)
    (props : nat -> list (string * Val)) (items : nat -> list Val) :
  raw_dir fs = true ->
  (forall i, In i categories ->
     files fs !! raw_path i = Some (JsonText (VObj (props i))) /\
     get_prop "results" (props i) = VArr (items i)) ->
  let detailed i := map (fun item => fst (full_item fetch item)) (items i) in
  exists fs',
    getFullData fetch fs
    = ((fs', concat (map (fun i => item_errors fetch (VArr (items i))) categories)),
       None) /\
    (forall i, In i categories ->
       files fs' !! raw_path i = Some (JSON_stringify (VArr (detailed i))) /\
       length (detailed i) = length (items i)) /\
    (forall path, ~ In path (map raw_path categories) ->
       files fs' !! path = files fs !! path).
Proof.
  intros Hdir Hraw detailed. unfold getFullData, categories. cbn [for_each].
  destruct fs as [dir fls]. cbn [raw_dir files] in *. subst dir.
  destruct (Hraw 1 ltac:(simpl; tauto)) as [H1 R1].
  destruct (Hraw 2 ltac:(simpl; tauto)) as [H2 R2].
  destruct (Hraw 3 ltac:(simpl; tauto)) as [H3 R3].
  destruct (Hraw 4 ltac:(simpl; tauto)) as [H4 R4].
  erewrite (getFullData_body_ok fetch 1); [| reflexivity | exact H1 | exact R1].
  erewrite (getFullData_body_ok fetch 2);
    [| reflexivity | cbn [files]; rewrite !lookup_insert_ne by path_neq; exact H2
     | exact R2].
  erewrite (getFullData_body_ok fetch 3);
    [| reflexivity | cbn [files]; rewrite !lookup_insert_ne by path_neq; exact H3
     | exact R3].
  erewrite (getFullData_body_ok fetch 4);
    [| reflexivity | cbn [files]; rewrite !lookup_insert_ne by path_neq; exact H4
     | exact R4].
  eexists. split; [cbn [concat map]; rewrite app_nil_r, <- !app_assoc; reflexivity |].
  cbn [files]. split.
  - intros i Hi. split; [| apply length_map].
    destruct Hi as [<- | [<- | [<- | [<- | []]]]].
    + rewrite !lookup_insert_ne by path_neq. apply lookup_insert_eq.
    + rewrite !lookup_insert_ne by path_neq. apply lookup_insert_eq.
    + rewrite lookup_insert_ne by path_neq. apply lookup_insert_eq.
    + apply lookup_insert_eq.
  - intros path Hpath. simpl in Hpath.
    rewrite !lookup_insert_ne; [reflexivity | ..]; intros <-; tauto.
Qed.

Lemma getFullData_item_by_item_witness :
  let unknown := VObj [("recallId", VStr "1"); ("title", VStr "?")] in
  exists fs',
    fst (fst (getFullData Samples.fetch_detail
                (Samples.wrapped_files [unknown; VObj [("recallId", VNum 64712)]])))
    = fs' /\
    files fs' !! raw_path 3
    = Some (JsonText (VArr [unknown; Samples.detail_of_64712])).
Proof.
  intros unknown.
  destruct (getFullData_item_by_item Samples.fetch_detail
              (Samples.wrapped_files [unknown; VObj [("recallId", VNum 64712)]])
              (fun _ => [("results", VArr [unknown; VObj [("recallId", VNum 64712)]])])
              (fun _ => [unknown; VObj [("recallId", VNum 64712)]])
              eq_refl
              ltac:(intros i [<- | [<- | [<- | [<- | []]]]]; split; reflexivity))
    as (fs' & Hrun & Hfiles & _).
  exists fs'. split; [now rewrite Hrun |].
  rewrite (proj1 (Hfiles 3 ltac:(simpl; tauto))). reflexivity.
Defined.

End FullDataFacts.

Module PipelineFacts.
Import Stages Loader EngineSpec EngineFacts EngineMoreFacts Pipeline.

Section Upload.
Context {W : Type}.
Variable sdk : Sdk W.
Variable readFile : string -> W -> Completion FileText.
Variable dynamoConfig : Val.

Lemma load_category_throws_quietly fuel dry i :
  throws_quietly (load_category sdk readFile dynamoConfig fuel dry i).
Proof.
  intros w w' t e. unfold load_category.
  destruct (readFile (stripped_path i) w) as [text | e1];
    [| intros [= <- <- <-]; constructor].
  destruct (JSON_parse text) as [data | e1]; [| intros [= <- <- <-]; constructor].
  apply start_throws_quietly.
Qed.

Lemma load_category_dry_quiet fuel dry i :
  truthy dry = true ->
  traces quiet (load_category sdk readFile dynamoConfig fuel dry i).
Proof.
  intros Hdry w w' t c. unfold load_category.
  destruct (readFile (stripped_path i) w) as [text | e1];
    [| intros [= <- <- <-]; constructor].
  destruct (JSON_parse text) as [data | e1]; [| intros [= <- <- <-]; constructor].
  now apply start_dry_quiet.
Qed.

(** The loop enters the categories in order and leaves at the first one that
    raises; that one has uploaded nothing. *)
Lemma load_each_outcome fuel dry cats : forall w w' runs c,
  load_each sdk readFile dynamoConfig fuel dry cats w = Some (w', runs, c) ->
  match c with
  | Returned _ => map fst runs = cats
  | Thrown _ =>
      exists done i t more,
        runs = (done ++ [(i, t)])%list /\
        cats = (map fst done ++ i :: more)%list /\
        Forall quiet t
  end.
Proof.
  induction cats as [| i rest IH]; intros w w' runs c.
  - intros [= <- <- <-]. reflexivity.
  - cbn [load_each].
    destruct (load_category sdk readFile dynamoConfig fuel dry i w)
      as [[[w1 t] [[] | e]] |] eqn:Ei; [| | discriminate].
    + destruct (load_each sdk readFile dynamoConfig fuel dry rest w1)
        as [[[w2 runs2] c2] |] eqn:Er; [| discriminate].
      intros [= <- <- <-]. specialize (IH _ _ _ _ Er). destruct c2 as [[] | e].
      * cbn. now rewrite IH.
      * destruct IH as (done & j & tj & more & -> & -> & Hq).
        exists ((i, t) :: done), j, tj, more. repeat split; auto.
    + intros [= <- <- <-]. exists [], i, t, rest. repeat split.
      eapply load_category_throws_quietly, Ei.
Qed.

Lemma load_each_dry_quiet fuel dry cats : forall w w' runs c,
  truthy dry = true ->
  load_each sdk readFile dynamoConfig fuel dry cats w = Some (w', runs, c) ->
  Forall (fun r => Forall quiet (snd r)) runs.
Proof.
  induction cats as [| i rest IH]; intros w w' runs c Hdry.
  - intros [= <- <- <-]. constructor.
  - cbn [load_each].
    destruct (load_category sdk readFile dynamoConfig fuel dry i w)
      as [[[w1 t] [[] | e]] |] eqn:Ei; [| | discriminate].
    + destruct (load_each sdk readFile dynamoConfig fuel dry rest w1)
        as [[[w2 runs2] c2] |] eqn:Er; [| discriminate].
      intros [= <- <- <-]. constructor; [| eapply IH; eassumption].
      eapply load_category_dry_quiet; eassumption.
    + intros [= <- <- <-]. repeat constructor.
      eapply load_category_dry_quiet; eassumption.
Qed.
End Upload.

(** X19 -- The upload stage stops only where nothing was uploaded.
    [startLoading] enters the categories in order.  When it reports no error
    it has entered all four.  When it reports one -- a stripped file that is
    missing or does not parse, or a rejected [start] -- the category at
    which it stopped has submitted no batch write and started no loading
    text, and the later categories are not entered.  A category in which a
    submission failed is therefore always followed by the next one. *)
Theorem startLoading_stops_before_upload {W : Type} (sdk : Sdk W)
    (readFile : string -> W -> Completion FileText) (dynamoConfig : Val)
    (fuel : nat) (dry : Val) (w w' : W) (runs : list (nat * list Event))
    (err : option Exn) :
  startLoading sdk readFile dynamoConfig fuel dry w = Some (w', runs, err) ->
  match err with
  | None => map fst runs = categories
  | Some _ =>
      exists done i t more,
        runs = (done ++ [(i, t)])%list /\
        categories = (map fst done ++ i :: more)%list /\
        submissions t = [] /\
        forall d ms, ~ In (d, SetInterval ms) t
  end.
Proof.
  unfold startLoading.
  destruct (load_each sdk readFile dynamoConfig fuel dry categories w)
    as [[[w1 runs1] [[] | e]] |] eqn:E; [| | discriminate];
    intros [= <- <- <-];
    pose proof (load_each_outcome _ _ _ _ _ _ _ _ _ _ E) as H; cbn in H.
  - exact H.
  - destruct H as (done & i & t & more & -> & Hcats & Hq).
    exists done, i, t, more. destruct (quiet_trace t Hq) as (H1 & _ & H3).
    repeat split; auto.
Qed.

Lemma startLoading_stops_before_upload_witness :
  exists runs e,
    startLoading (accepting [TABLE_NAME] "n")
      (fun path (_ : unit) =>
         if String.eqb path (stripped_path 1)
         then Returned (JsonText (VArr (Stub.recalls 2)))
         else Thrown (FsError path))
      Stub.dynamoConfig 1 (VBool false) tt
    = Some (tt, runs, Some e) /\
    map fst runs = [1; 2] /\
    e = FsError (stripped_path 2).
Proof.
  eexists _, _. split; [vm_compute; reflexivity |].
  pose proof (startLoading_stops_before_upload (accepting [TABLE_NAME] "n")
                (fun path (_ : unit) =>
                   if String.eqb path (stripped_path 1)
                   then Returned (JsonText (VArr (Stub.recalls 2)))
                   else Thrown (FsError path))
                Stub.dynamoConfig 1 (VBool false) tt tt _ _ eq_refl) as H.
  cbn in H. destruct H as (done & i & t & more & Hruns & _).
  split; reflexivity.
Defined.

Section Accepting.
Context {W : Type}.
Variable sdk : Sdk W.
Variable readFile : string -> W -> Completion FileText.
Variable dynamoConfig : Val.
Variable records : nat -> list (list (string * Val)).

(** The datastore lists the table whenever it is asked, and accepts every
    write in full. *)
Hypothesis listed : forall w, exists w' tableList,
  listTables sdk dynamoConfig w = (w', Returned tableList) /\
  includes tableList TABLE_NAME = true.
Hypothesis accepted : forall request w, exists w' out,
  batchWriteItem sdk dynamoConfig request w = (w', Returned out) /\
  R_keys_length (UnprocessedItems out) = 0.

Let request_of (i : nat) : Val :=
  mk_request TABLE_NAME (VArr (mapped_items (Converter_input sdk) (records i))).

Lemma load_category_accepted fuel i w :
  readFile (stripped_path i) w = Returned (JsonText (VArr (map VObj (records i)))) ->
  length (records i) <= 25 ->
  exists w' t,
    load_category sdk readFile dynamoConfig (S fuel) (VBool false) i w
      = Some (w', t, Returned tt) /\
    map snd (submissions t) = [request_of i].
Proof.
  intros Hread Hsize. unfold load_category. rewrite Hread. cbn [JSON_parse].
  destruct (listed w) as (w1 & tableList & Hl & Hinc).
  rewrite (start_single_request sdk fuel 0
             (constructor (VArr (map VObj (records i))) (VStr TABLE_NAME) dynamoConfig
                (VNum (Z.of_nat i)))
             (VBool false) w w1 tableList (records i) Hl Hinc eq_refl Hsize eq_refl).
  rewrite constructor_client.
  change (ToString (read (constructor _ (VStr TABLE_NAME) dynamoConfig _) "table"))
    with TABLE_NAME.
  fold (request_of i).
  destruct (accepted (request_of i) w1) as (w2 & out & Hw & Hk).
  rewrite Hw, Hk. eexists _, _. split; reflexivity.
Qed.

Lemma load_each_accepted fuel cats : forall w,
  (forall i w, In i cats ->
     readFile (stripped_path i) w
       = Returned (JsonText (VArr (map VObj (records i)))) /\
     length (records i) <= 25) ->
  exists w' runs,
    load_each sdk readFile dynamoConfig (S fuel) (VBool false) cats w
      = Some (w', runs, Returned tt) /\
    map (fun r => (fst r, map snd (submissions (snd r)))) runs
    = map (fun i => (i, [request_of i])) cats.
Proof.
  induction cats as [| i rest IH]; intros w Hfiles.
  - exists w, []. split; reflexivity.
  - destruct (Hfiles i w ltac:(now left)) as [Hread Hsize].
    destruct (load_category_accepted fuel i w Hread Hsize) as (w1 & t & E1 & H1).
    destruct (IH w1 ltac:(intros j w0 Hj; apply Hfiles; now right))
      as (w2 & runs & E2 & H2).
    exists w2, ((i, t) :: runs). cbn [load_each]. rewrite E1, E2.
    split; [reflexivity |]. cbn [map fst snd]. now rewrite H1, H2.
Qed.
End Accepting.

(** X20 -- An upload that goes through.  When the four stripped files hold
    arrays of at most 25 records each, the datastore lists the table whenever
    asked and accepts every write in full, [startLoading(false)] reports no
    error and makes exactly four submissions, one per category in the order
    1 to 4, each carrying all the mapped records of its category under the
    table name. *)
Theorem startLoading_uploads_each_category {W : Type} (sdk : Sdk W)
    (readFile : string -> W -> Completion FileText) (dynamoConfig : Val)
    (records : nat -> list (list (string * Val))) (fuel : nat) (w : W) :
  (forall w, exists w' tableList,
     listTables sdk dynamoConfig w = (w', Returned tableList) /\
     includes tableList TABLE_NAME = true) ->
  (forall request w, exists w' out,
     batchWriteItem sdk dynamoConfig request w = (w', Returned out) /\
     R_keys_length (UnprocessedItems out) = 0) ->
  (forall i w, In i categories ->
     readFile (stripped_path i) w
       = Returned (JsonText (VArr (map VObj (records i)))) /\
     length (records i) <= 25) ->
  exists w' runs,
    startLoading sdk readFile dynamoConfig (S fuel) (VBool false) w
      = Some (w', runs, None) /\
    map (fun r => (fst r, map snd (submissions (snd r)))) runs
    = map (fun i =>
             (i, [mk_request TABLE_NAME
                    (VArr (mapped_items (Converter_input sdk) (records i)))]))
        categories.
Proof.
  intros Hlisted Haccepted Hfiles.
  destruct (load_each_accepted sdk readFile dynamoConfig records Hlisted Haccepted
              fuel categories w Hfiles) as (w' & runs & E & H).
  exists w', runs. unfold startLoading. rewrite E. split; [reflexivity | exact H].
Qed.

Lemma startLoading_uploads_each_category_witness :
  exists runs,
    startLoading (accepting [TABLE_NAME] "n")
      (fun _ (_ : unit) => Returned (JsonText (VArr (Stub.recalls 2))))
      Stub.dynamoConfig 1 (VBool false) tt
    = Some (tt, runs, None) /\
    map (fun r => (fst r, map snd (submissions (snd r)))) runs
    = map (fun i => (i, [mk_request TABLE_NAME (VArr [Stub.wire 0; Stub.wire 1])]))
        categories.
Proof.
  destruct (startLoading_uploads_each_category (accepting [TABLE_NAME] "n")
              (fun _ (_ : unit) => Returned (JsonText (VArr (Stub.recalls 2))))
              Stub.dynamoConfig
              (fun _ => [[("recallId", VStr "0")]; [("recallId", VStr "1")]]) 0 tt)
    as (w' & runs & E & H).
  - intros []. exists tt, [TABLE_NAME]. split; reflexivity.
  - intros request []. exists tt, (mkOutput (VObj [])). split; reflexivity.
  - intros i [] _. split; [reflexivity | simpl; lia].
  - destruct w'. exists runs. split; [exact E | exact H].
Defined.

Section Entry.
Context {W : Type}.
Variable sdk : Sdk W.
Variable dynamoConfig : Val.
Variable fetch_list : nat -> Completion Val.
Variable fetch_detail : string -> Completion Val.

Lemma menu_selected fuel f (w : W) :
  nothing_selected f = false -> menu sdk fuel f w = Some (w, 0, 0, Some f).
Proof. intros H. destruct fuel; simpl; now rewrite H. Qed.

Lemma nothing_selected_dry f : truthy (dry f) = true -> nothing_selected f = false.
Proof.
  intros H. unfold nothing_selected. rewrite H. cbn. apply andb_false_r.
Qed.

Lemma apply_all_dry f : dry (apply_all f) = dry f.
Proof. unfold apply_all. now destruct (truthy (all f)). Qed.

(** Once the flags are settled with [dry] set, the stages upload nothing;
    each stage ran exactly when its flag is set. *)
Lemma initialize_dry fuel args fs (w w1 : W) shown n f report :
  menu sdk fuel (apply_all args) w = Some (w1, shown, n, Some f) ->
  truthy (dry f) = true ->
  initialize sdk dynamoConfig fetch_list fetch_detail fuel args fs w
    = Some (Some report) ->
  (exists runs err,
     upload_stage report = Some (runs, err) /\
     Forall (fun r => Forall quiet (snd r)) runs) /\
  (menu_prompts report = shown /\ refused_choices report = n) /\
  (truthy (recent f) = true -> recent_stage report <> None) /\
  (truthy (full f) = true -> full_stage report <> None) /\
  (truthy (clean f) = true -> clean_stage report <> None).
Proof.
  intros Hmenu Hdry. unfold initialize. rewrite Hmenu, Hdry, orb_true_r.
  destruct (if truthy (recent f) then _ else _) as [fs1 r1] eqn:E1.
  destruct (if truthy (full f) then _ else _) as [fs2 r2] eqn:E2.
  destruct (if truthy (clean f) then _ else _) as [fs3 r3] eqn:E3.
  destruct (startLoading _ _ _ _ _ _) as [[[[fs4 w2] runs] err] |] eqn:E;
    [| discriminate].
  intros [= <-].
  cbn [upload_stage menu_prompts refused_choices recent_stage full_stage clean_stage].
  split; [| split; [split; reflexivity | split; [| split]]].
  - exists runs, err. split; [reflexivity |].
    unfold startLoading in E.
    destruct (load_each _ _ _ _ _ _ _) as [[[st5 runs5] c5] |] eqn:E5;
      [| discriminate].
    assert (runs5 = runs) as -> by (destruct c5; congruence).
    eapply (load_each_dry_quiet (host sdk) host_readFile dynamoConfig fuel
              (VBool true)); [reflexivity | exact E5].
  - intros H. rewrite H in E1. destruct (getRecentData fetch_list fs).
    injection E1 as _ <-. discriminate.
  - intros H. rewrite H in E2. destruct (FullData.getFullData fetch_detail fs1) as [[? ?] ?].
    injection E2 as _ <-. discriminate.
  - intros H. rewrite H in E3. destruct (cleanData fs2).
    injection E3 as _ <-. discriminate.
Qed.
End Entry.

(** X21 -- The [dry] option wins.  Whenever the program is started with a
    truthy [dry] option -- alone, with [upload], with [all], with anything --
    the menu is never shown (no prompt, hence no choice refused), the upload
    stage runs as a dry run and, in every category and against any
    datastore, submits no batch write. *)
Theorem dry_option_never_uploads {W : Type} (sdk : Sdk W) (dynamoConfig : Val)
    (fetch_list : nat -> Completion Val) (fetch_detail : string -> Completion Val)
    (fuel : nat) (args : Flags) (fs : FS) (w : W) (report : Report) :
  truthy (dry args) = true ->
  initialize sdk dynamoConfig fetch_list fetch_detail fuel args fs w
    = Some (Some report) ->
  menu_prompts report = 0 /\
  refused_choices report = 0 /\
  exists runs err,
    upload_stage report = Some (runs, err) /\
    Forall (fun r => submissions (snd r) = []) runs.
Proof.
  intros Hdry Hrun.
  assert (Hsel : nothing_selected (apply_all args) = false)
    by (apply nothing_selected_dry; now rewrite apply_all_dry).
  destruct (initialize_dry sdk dynamoConfig fetch_list fetch_detail fuel args fs w w 0 0
              (apply_all args) report (menu_selected sdk fuel _ w Hsel)
              ltac:(now rewrite apply_all_dry) Hrun)
    as ((runs & err & Hup & Hq) & (Hshown & Hn) & _).
  split; [exact Hshown |]. split; [exact Hn |].
  exists runs, err. split; [exact Hup |].
  eapply Forall_impl; [exact Hq |]. intros r Hr. now apply quiet_trace.
Qed.

Lemma dry_option_never_uploads_witness :
  exists report runs err,
    initialize (accepting [TABLE_NAME] "n") Stub.dynamoConfig
      (Stub.fetch_failing 0) Samples.fetch_detail 1
      (mkFlags VUndef VUndef VUndef (VBool true) VUndef (VBool true))
      (Stub.raw_files []) tt
    = Some (Some report) /\
    menu_prompts report = 0 /\
    upload_stage report = Some (runs, err) /\
    map fst runs = categories /\
    Forall (fun r => submissions (snd r) = []) runs.
Proof.
  eexists _, _, _. split; [vm_compute; reflexivity |].
  split; [reflexivity |]. split; [reflexivity |]. split; [reflexivity |].
  destruct (dry_option_never_uploads (accepting [TABLE_NAME] "n") Stub.dynamoConfig
              (Stub.fetch_failing 0) Samples.fetch_detail 1
              (mkFlags VUndef VUndef VUndef (VBool true) VUndef (VBool true))
              (Stub.raw_files []) tt _ eq_refl eq_refl)
    as (_ & _ & runs & err & Hup & Hq).
  injection Hup as <- _. exact Hq.
Defined.

(** X22 -- The menu's "all" is a dry run.  Started without options, the
    program asks at the menu; when the operator answers [all] (in any letter
    case) it runs the four stages, the upload stage as a dry run: no batch
    write is submitted.  (The [all] option of the command line leaves [dry]
    as it was given.) *)
Theorem menu_all_is_a_dry_run {W : Type} (sdk : Sdk W) (dynamoConfig : Val)
    (fetch_list : nat -> Completion Val) (fetch_detail : string -> Completion Val)
    (fuel : nat) (args : Flags) (fs : FS) (w w1 : W) (answer : string)
    (report : Report) :
  nothing_selected (apply_all args) = true ->
  prompt sdk menu_question w = (w1, answer) ->
  toLowerCase answer = "all" ->
  initialize sdk dynamoConfig fetch_list fetch_detail (S fuel) args fs w
    = Some (Some report) ->
  recent_stage report <> None /\ full_stage report <> None /\
  clean_stage report <> None /\
  (exists runs err,
     upload_stage report = Some (runs, err) /\
     Forall (fun r => submissions (snd r) = []) runs) /\
  dry (apply_all args) = dry args.
Proof.
  intros Hnone Hprompt Hall Hrun.
  set (f := mkFlags (VBool true) (VBool true) (VBool true) (VBool true) (VBool true)
              (all (apply_all args))).
  assert (Hmenu : menu sdk (S fuel) (apply_all args) w = Some (w1, 1, 0, Some f)).
  { cbn [menu]. rewrite Hnone, Hprompt, Hall.
    change (choose (apply_all args) "all") with (Some f, false). cbn iota.
    now rewrite (menu_selected sdk fuel f w1 eq_refl). }
  destruct (initialize_dry sdk dynamoConfig fetch_list fetch_detail (S fuel) args fs
              w w1 1 0 f report Hmenu eq_refl Hrun)
    as ((runs & err & Hup & Hq) & _ & H1 & H2 & H3).
  split; [now apply H1 |]. split; [now apply H2 |]. split; [now apply H3 |].
  split; [| apply apply_all_dry].
  exists runs, err. split; [exact Hup |].
  eapply Forall_impl; [exact Hq |]. intros r Hr. now apply quiet_trace.
Qed.

Lemma menu_all_is_a_dry_run_witness :
  exists report runs err,
    initialize (accepting [TABLE_NAME] "ALL") Stub.dynamoConfig
      (Stub.fetch_failing 0) Samples.fetch_detail 1
      (mkFlags VUndef VUndef VUndef VUndef VUndef VUndef)
      (Stub.raw_files []) tt
    = Some (Some report) /\
    upload_stage report = Some (runs, err) /\
    Forall (fun r => submissions (snd r) = []) runs.
Proof.
  eexists _, _, _. split; [vm_compute; reflexivity |].
  split; [reflexivity |].
  destruct (menu_all_is_a_dry_run (accepting [TABLE_NAME] "ALL") Stub.dynamoConfig
              (Stub.fetch_failing 0) Samples.fetch_detail 0
              (mkFlags VUndef VUndef VUndef VUndef VUndef VUndef)
              (Stub.raw_files []) tt tt "ALL" _ eq_refl eq_refl eq_refl eq_refl)
    as (_ & _ & _ & (runs & err & Hup & Hq) & _).
  injection Hup as <- _. exact Hq.
Defined.

Lemma cleaned_records (records : list (list (string * Val))) :
  json_norm (VArr (map Strip.htmlStripper (map VObj records)))
  = VArr (map VObj (map PipelineSpec.cleaned_record records)).
Proof.
  cbn [json_norm]. f_equal. rewrite !map_map. apply map_ext. intros props.
  unfold PipelineSpec.cleaned_record. reflexivity.
Qed.

Section DryFiles.
Context {W : Type}.
Variable sdk : Sdk W.
Variable dynamoConfig : Val.
Variable records : nat -> list (list (string * Val)).
Hypothesis listed : forall w, exists w1 tableList,
  listTables sdk dynamoConfig w = (w1, Returned tableList) /\
  includes tableList TABLE_NAME = true.

(** The dry upload of the categories [cats] whose stripped files hold
    records: every category gets its debug file, nothing else changes. *)
Lemma load_each_dry_files fuel (cats : list nat) :
  NoDup (map PipelineSpec.debug_path cats) ->
  (forall i j, In i cats -> In j cats ->
     stripped_path j <> PipelineSpec.debug_path i) ->
  forall (fs : FS) (w : W),
  raw_dir fs = true ->
  (forall i, In i cats ->
     files fs !! stripped_path i = Some (JsonText (VArr (map VObj (records i))))) ->
  exists fs' w' runs,
    load_each (host sdk) host_readFile dynamoConfig (S fuel) (VBool true) cats (fs, w)
      = Some ((fs', w'), runs, Returned tt) /\
    raw_dir fs' = true /\
    (forall i, In i cats ->
       files fs' !! PipelineSpec.debug_path i
       = Some (PipelineSpec.dry_run_text (Converter_input sdk) (records i))) /\
    (forall path, ~ In path (map PipelineSpec.debug_path cats) ->
       files fs' !! path = files fs !! path).
Proof.
  induction cats as [| i rest IH]; intros Hnd Hsep fs w Hdir Hfiles.
  - exists fs, w, []. cbn. repeat split; [exact Hdir | intros i []].
  - cbn [map] in Hnd. inversion Hnd as [| ? ? Hfresh Hnd']; subst. clear Hnd.
    destruct (listed w) as (w1 & tableList & Hl & Hinc).
    set (this := constructor (VArr (map VObj (records i))) (VStr TABLE_NAME)
                   dynamoConfig (VNum (Z.of_nat i))).
    assert (Hrun :
      load_category (host sdk) host_readFile dynamoConfig (S fuel) (VBool true) i (fs, w)
      = Some ((mkFS true (<[PipelineSpec.debug_path i :=
                              PipelineSpec.dry_run_text (Converter_input sdk) (records i)]>
                            (files fs)), w1),
              ((0, ListTables dynamoConfig)
               :: (if gt_num (length_of
                                (VArr (mapped_items (Converter_input sdk) (records i)))) 25
                   then [(0, ConsoleLog MsgLargeRequest)] else [])
               ++ [(0, ConsoleLog (MsgDryRun (PipelineSpec.debug_path i)));
                   (0, WriteFile (PipelineSpec.debug_path i)
                         (PipelineSpec.dry_run_text (Converter_input sdk) (records i)))])%list,
              Returned tt)).
    { unfold load_category, host_readFile, readFileSync. cbn [fst].
      rewrite (Hfiles i) by (left; reflexivity). cbn [JSON_parse].
      fold this.
      rewrite (EngineFacts.start_dry_run (host sdk) fuel 0 this (VBool true)
                 (fs, w) (fs, w1) tableList (records i));
        [| cbn; change (client this) with dynamoConfig; now rewrite Hl
         | exact Hinc | reflexivity | reflexivity].
      cbn [host writeFileSync Converter_input fst snd].
      unfold Stages.writeFileSync. rewrite Hdir. reflexivity. }
    destruct (IH Hnd'
                (fun a b Ha Hb => Hsep a b (or_intror Ha) (or_intror Hb))
                (mkFS true (<[PipelineSpec.debug_path i :=
                                PipelineSpec.dry_run_text (Converter_input sdk) (records i)]>
                              (files fs))) w1 eq_refl)
      as (fs' & w' & runs & Hrest & Hdir' & Hdebug & Hother).
    { intros j Hj. cbn [files]. rewrite lookup_insert_ne.
      - apply Hfiles. now right.
      - intros Heq. apply (Hsep i j); [now left | now right | now symmetry]. }
    eexists fs', w', _. split; [| split; [exact Hdir' | split]].
    + cbn [load_each]. rewrite Hrun, Hrest. reflexivity.
    + intros j [<- | Hj].
      * rewrite Hother by (rewrite <- list_elem_of_In; exact Hfresh).
        cbn [files]. apply lookup_insert_eq.
      * now apply Hdebug.
    + intros path Hpath. cbn [map In] in Hpath.
      rewrite Hother by tauto. cbn [files].
      apply lookup_insert_ne. intros Heq. apply Hpath. now left.
Qed.
End DryFiles.

(** X23 -- Clean, then dry run.  Started with the [clean] and [dry] options
    (and neither [recent], [full] nor [all]) on raw files that each hold an
    array of records, with the table listed, the program ends normally and
    leaves, for every category, the stripped file with the stripped records
    and the debug file with the request built from those stripped records:
    what the dry run shows is the upload of the cleaned data, not of the raw
    data. *)
Theorem clean_then_dry_run {W : Type} (sdk : Sdk W) (dynamoConfig : Val)
    (fetch_list : nat -> Completion Val) (fetch_detail : string -> Completion Val)
    (fuel : nat) (args : Flags) (fs : FS) (w : W)
    (records : nat -> list (list (string * Val))) :
  truthy (all args) = false ->
  truthy (recent args) = false ->
  truthy (full args) = false ->
  truthy (clean args) = true ->
  truthy (dry args) = true ->
  raw_dir fs = true ->
  (forall i, In i categories ->
     files fs !! raw_path i = Some (JsonText (VArr (map VObj (records i))))) ->
  (forall w0, exists w1 tableList,
     listTables sdk dynamoConfig w0 = (w1, Returned tableList) /\
     includes tableList TABLE_NAME = true) ->
  exists report runs,
    initialize sdk dynamoConfig fetch_list fetch_detail (S fuel) args fs w
      = Some (Some report) /\
    clean_stage report = Some [] /\
    upload_stage report = Some (runs, None) /\
    forall i, In i categories ->
      let cleaned := map PipelineSpec.cleaned_record (records i) in
      files (files_after report) !! stripped_path i
        = Some (JsonText (VArr (map VObj cleaned))) /\
      files (files_after report) !! PipelineSpec.debug_path i
        = Some (PipelineSpec.dry_run_text (Converter_input sdk) cleaned).
Proof.
  intros Hall Hrecent Hfull Hclean Hdry Hdir Hraw Hlisted.
  unfold initialize, apply_all. rewrite Hall.
  rewrite (menu_selected sdk (S fuel) args w (nothing_selected_dry args Hdry)).
  rewrite Hrecent, Hfull, Hclean, Hdry, orb_true_r.
  rewrite (StagesMoreFacts.cleanData_success fs (fun i => map VObj (records i)) Hdir Hraw).
  set (fs3 := mkFS true _).
  assert (Hstripped : forall i, In i categories ->
            files fs3 !! stripped_path i
            = Some (JsonText (VArr (map VObj
                                      (map PipelineSpec.cleaned_record (records i)))))).
  { intros i Hi. subst fs3. cbn [files]. rewrite <- cleaned_records.
    destruct Hi as [<- | [<- | [<- | [<- | []]]]].
    - rewrite !lookup_insert_ne by StagesMoreFacts.path_neq. apply lookup_insert_eq.
    - rewrite !lookup_insert_ne by StagesMoreFacts.path_neq. apply lookup_insert_eq.
    - rewrite lookup_insert_ne by StagesMoreFacts.path_neq. apply lookup_insert_eq.
    - apply lookup_insert_eq. }
  assert (Hnd : NoDup (map PipelineSpec.debug_path categories)).
  { apply (bool_decide_unpack _). vm_compute. exact I. }
  assert (Hsep : forall i j, In i categories -> In j categories ->
                   stripped_path j <> PipelineSpec.debug_path i).
  { intros i j Hi Hj.
    destruct Hi as [<- | [<- | [<- | [<- | []]]]];
      destruct Hj as [<- | [<- | [<- | [<- | []]]]]; vm_compute; discriminate. }
  destruct (load_each_dry_files sdk dynamoConfig
              (fun i => map PipelineSpec.cleaned_record (records i)) Hlisted fuel
              categories Hnd Hsep fs3 w eq_refl Hstripped)
    as (fs' & w' & runs & Hrun & Hdir' & Hdebug & Hother).
  unfold startLoading. rewrite Hrun.
  eexists _, runs. split; [reflexivity |]. cbn [clean_stage upload_stage files_after].
  split; [reflexivity |]. split; [reflexivity |].
  intros i Hi. split; [| now apply Hdebug].
  rewrite Hother; [now apply Hstripped |].
  destruct Hi as [<- | [<- | [<- | [<- | []]]]]; vm_compute;
    intros [H | [H | [H | [H | []]]]]; discriminate.
Qed.

Lemma clean_then_dry_run_witness :
  exists report,
    initialize (accepting [TABLE_NAME] "n") Stub.dynamoConfig
      (Stub.fetch_failing 0) Samples.fetch_detail 1
      (mkFlags VUndef VUndef (VBool true) (VBool true) VUndef VUndef)
      (Stub.raw_files categories) tt
    = Some (Some report) /\
    files (files_after report) !! PipelineSpec.debug_path 1
    = Some (JsonText
              (mk_request TABLE_NAME
                 (VArr [put_request
                          (VObj [("recallId", Converter.input (VStr "64712"));
                                 ("title", Converter.input (VStr "Recall notice"))])]))).
Proof.
  destruct (clean_then_dry_run (accepting [TABLE_NAME] "n") Stub.dynamoConfig
              (Stub.fetch_failing 0) Samples.fetch_detail 0
              (mkFlags VUndef VUndef (VBool true) (VBool true) VUndef VUndef)
              (Stub.raw_files categories) tt
              (fun _ => [[("recallId", VStr "64712");
                          ("title", VStr "<b>Recall</b> notice")]])
              eq_refl eq_refl eq_refl eq_refl eq_refl eq_refl)
    as (report & runs & Hrun & _ & _ & Hfiles).
  - intros i [<- | [<- | [<- | [<- | []]]]]; vm_compute; reflexivity.
  - intros w0. exists w0, [TABLE_NAME]. split; reflexivity.
  - exists report. split; [exact Hrun |].
    destruct (Hfiles 1) as [_ Hdebug]; [simpl; tauto |].
    rewrite Hdebug. vm_compute. reflexivity.
Defined.

End PipelineFacts.
